(** * face_detection.py: the [FaceDetection] pipeline object

    A shallow embedding of [src/face_detection.py].  The pipeline object holds
    a decoded image (a numpy array), the list of detected regions and the list
    of crop records; its methods are run in sequence by a caller.

    Python objects that the code shares and mutates live in an explicit
    store: numpy arrays (the pixel memory), the crop records (dicts with the
    keys "frame", "x", "y", "w", "h") and the lists that hold them.  A numpy
    basic slice is a view: it owns no pixels and reads the memory of its base
    array.  Methods are computations in a state monad in which a raised
    exception keeps the store as it was at the raise.

    The OpenCV functions, the remote detection service, the clock and the
    image decoder are outside the repository.  OpenCV is an interface
    ([Cv2]); a service answer, a wall-clock reading and the decoder's result
    are arguments of the method that asks for them. *)

From Stdlib Require Import ZArith QArith String Ascii List Lia.
From Stdlib Require Import DecimalString DecimalNat.
From stdpp Require Import base option list.

Local Open Scope string_scope.
Local Open Scope list_scope.
Local Open Scope Z_scope.

(** ** Pixels, images and numpy slicing *)

(** A pixel of a colour array holds three channel values in blue, green, red
    order; a pixel of a grayscale array holds one. *)
Inductive pixel :=
| Bgr (b g r : Z)
| Gray (v : Z).

(** The pixel memory of an array, as rows of pixels. *)
Definition image := list (list pixel).

Definition channels (p : pixel) : nat :=
  match p with Bgr _ _ _ => 3%nat | Gray _ => 1%nat end.

Definition single_channel (px : image) : Prop :=
  Forall (Forall (fun p => channels p = 1%nat)) px.

Definition height (px : image) : nat := length px.

Definition width (px : image) : nat :=
  match px with [] => 0%nat | row :: _ => length row end.

(** All rows of [px] hold [w] pixels. *)
Definition rectangular (w : nat) (px : image) : Prop :=
  Forall (fun row => length row = w) px.

(** Python's adjustment of a slice bound [i] to a dimension of [n] elements
    (step 1): a negative bound counts from the end, and the result is clamped
    to [0, n]. *)
Definition adjust_index (n : nat) (i : Z) : nat :=
  Z.to_nat (if i <? 0 then Z.max (i + Z.of_nat n) 0 else Z.min i (Z.of_nat n)).

(** [l[start:stop]] on a dimension of [n] elements. *)
Definition py_slice {A} (n : nat) (start stop : Z) (l : list A) : list A :=
  let lo := adjust_index n start in
  let hi := adjust_index n stop in
  take (hi - lo)%nat (drop lo l).

(** [px[y0:y1, x0:x1]] on the pixel memory itself. *)
Definition np_slice2 (px : image) (y0 y1 x0 x1 : Z) : image :=
  map (py_slice (width px) x0 x1) (py_slice (height px) y0 y1 px).

(** The pixel at row [i], column [j]. *)
Definition pixel_at (px : image) (i j : nat) : option pixel :=
  px !! i ≫= fun row => row !! j.

(** ** The store *)

Definition loc := nat.

(** A numpy array object: a window on the pixel memory at [nd_base].  The
    array decoded by [cv2.imread] and the results of [cv2.cvtColor] are
    windows on all of their own memory. *)
Record ndarray := mk_ndarray {
  nd_base : loc;
  nd_row0 : nat;
  nd_rows : nat;
  nd_col0 : nat;
  nd_cols : nat
}.

Definition nd_whole (l : loc) (px : image) : ndarray :=
  mk_ndarray l 0 (height px) 0 (width px).

(** [a[y0:y1, x0:x1]]: a view on the memory of [a]. *)
Definition nd_slice (a : ndarray) (y0 y1 x0 x1 : Z) : ndarray :=
  let r_lo := adjust_index (nd_rows a) y0 in
  let r_hi := adjust_index (nd_rows a) y1 in
  let c_lo := adjust_index (nd_cols a) x0 in
  let c_hi := adjust_index (nd_cols a) x1 in
  mk_ndarray (nd_base a)
             (nd_row0 a + r_lo) (r_hi - r_lo)
             (nd_col0 a + c_lo) (c_hi - c_lo).

(** The pixels seen through a window. *)
Definition window (a : ndarray) (px : image) : image :=
  map (fun row => take (nd_cols a) (drop (nd_col0 a) row))
      (take (nd_rows a) (drop (nd_row0 a) px)).

(** A crop record: the dict built by [extract_items_frames]. *)
Record item_frame := mk_item_frame {
  if_frame : ndarray;
  if_x : Z;
  if_y : Z;
  if_w : Z;
  if_h : Z
}.

Definition set_if_frame (a : ndarray) (d : item_frame) : item_frame :=
  mk_item_frame a (if_x d) (if_y d) (if_w d) (if_h d).

Inductive obj :=
| ObjArray (px : image)
| ObjDict (d : item_frame)
| ObjList (l : list loc).

(** ** The pipeline object and its surroundings *)

(** A detected region, [(x, y, w, h)]. *)
Definition region := (Z * Z * Z * Z)%type.

Record FaceDetection := mk_FaceDetection {
  image_path : string;
  archive_folder : string;
  debug : bool;
  items : list region;
  items_frames : loc;
  images_prefix : string;
  frame : option loc
}.

Definition set_items (v : list region) (o : FaceDetection) : FaceDetection :=
  mk_FaceDetection (image_path o) (archive_folder o) (debug o) v
                   (items_frames o) (images_prefix o) (frame o).

Definition set_items_frames (v : loc) (o : FaceDetection) : FaceDetection :=
  mk_FaceDetection (image_path o) (archive_folder o) (debug o) (items o)
                   v (images_prefix o) (frame o).

(** The calls to [logging.info], by message and arguments. *)
Inductive log_record :=
| LogImage (path : string)
| LogSearch
| LogCount (n : nat)
| LogItems (l : list region)
| LogExtract (n : nat)
| LogArchiveItems (n : nat)
| LogArchiveItem (image_name : string)
| LogArchiveFull
| LogArchiveFile (archive_full_name : string).

Record state := mk_state {
  self : FaceDetection;
  heap : list obj;
  logged : list log_record;
  written : list (string * image);
  previewed : list image
}.

Definition set_self (v : FaceDetection) (s : state) : state :=
  mk_state v (heap s) (logged s) (written s) (previewed s).

Definition set_heap (v : list obj) (s : state) : state :=
  mk_state (self s) v (logged s) (written s) (previewed s).

Definition set_logged (v : list log_record) (s : state) : state :=
  mk_state (self s) (heap s) v (written s) (previewed s).

Definition set_written (v : list (string * image)) (s : state) : state :=
  mk_state (self s) (heap s) (logged s) v (previewed s).

Definition set_previewed (v : list image) (s : state) : state :=
  mk_state (self s) (heap s) (logged s) (written s) v.

(** ** Exceptions and the method monad *)

Inductive exn :=
| TypeError      (* subscripting [None] *)
| IndexError     (* a vertex index out of range *)
| Cv2Error       (* raised inside an OpenCV call *)
| ServiceError   (* opening the file or the remote call failed *)
| StoreError.    (* a reference of the wrong kind; no Python run reaches it *)

Inductive result (A : Type) :=
| Return (a : A)
| Raise (e : exn).
Arguments Return {A} a.
Arguments Raise {A} e.

Definition M (A : Type) : Type := state -> result A * state.

Definition ret {A} (a : A) : M A := fun s => (Return a, s).

Definition raise {A} (e : exn) : M A := fun s => (Raise e, s).

Definition bind {A B} (m : M A) (k : A -> M B) : M B :=
  fun s => match m s with
           | (Return a, s') => k a s'
           | (Raise e, s') => (Raise e, s')
           end.

#[global] Instance M_ret : MRet M := @ret.
#[global] Instance M_bind : MBind M := fun A B k m => bind m k.

Definition get_state : M state := fun s => (Return s, s).

Definition modify (f : state -> state) : M unit := fun s => (Return tt, f s).

(** A [for] loop over a list that the body does not change. *)
Fixpoint for_each {A} (l : list A) (body : A -> M unit) : M unit :=
  match l with
  | [] => ret tt
  | a :: l' => body a;; for_each l' body
  end.

Definition logging_info (r : log_record) : M unit :=
  modify (fun s => set_logged (logged s ++ [r]) s).

(** A new object, at the next free location. *)
Definition alloc (o : obj) : M loc :=
  fun s => (Return (length (heap s)), set_heap (heap s ++ [o]) s).

Definition load_array (l : loc) : M image :=
  fun s => match heap s !! l with
           | Some (ObjArray px) => (Return px, s)
           | _ => (Raise StoreError, s)
           end.

Definition load_dict (l : loc) : M item_frame :=
  fun s => match heap s !! l with
           | Some (ObjDict d) => (Return d, s)
           | _ => (Raise StoreError, s)
           end.

Definition load_list (l : loc) : M (list loc) :=
  fun s => match heap s !! l with
           | Some (ObjList xs) => (Return xs, s)
           | _ => (Raise StoreError, s)
           end.

Definition store (l : loc) (o : obj) : M unit :=
  modify (fun s => set_heap (<[l := o]> (heap s)) s).

(** [lst.append(x)] *)
Definition list_append (lst x : loc) : M unit :=
  xs ← load_list lst;
  store lst (ObjList (xs ++ [x])).

(** The pixels an array object shows. *)
Definition nd_read (a : ndarray) : M image :=
  px ← load_array (nd_base a);
  ret (window a px).

(** ** Collaborators outside the repository *)

Inductive color_conversion := COLOR_BGR2GRAY.

Inductive font_face := FONT_HERSHEY_SIMPLEX.

(** The OpenCV functions the pipeline calls, on pixel memory.
    [cvtColor] answers [None] when OpenCV raises.  [putText] and [rectangle]
    give the memory after drawing in place.  [imwrite] answers [None] when
    OpenCV raises, [Some false] when it returns without having written the
    file and [Some true] when the file is written.  The one law is the
    contract of the [COLOR_BGR2GRAY] conversion code. *)
Class Cv2 := {
  cvtColor : image -> color_conversion -> option image;
  putText : image -> string -> Z * Z -> font_face -> Q -> Z * Z * Z -> Z -> image;
  rectangle : image -> Z * Z -> Z * Z -> Z * Z * Z -> Z -> image;
  imwrite : string -> image -> option bool;
  cvtColor_BGR2GRAY_single_channel :
    forall px g, cvtColor px COLOR_BGR2GRAY = Some g -> single_channel g
}.

(** A reading of [datetime.datetime.now()]. *)
Record datetime := mk_datetime {
  year : nat;
  month : nat;
  day : nat;
  hour : nat;
  minute : nat;
  second : nat;
  microsecond : nat
}.

(** The fields of a datetime object are within these ranges. *)
Definition datetime_valid (t : datetime) : Prop :=
  (1000 <= year t < 10 * 1000 /\ 1 <= month t <= 12 /\ 1 <= day t <= 31 /\
   hour t < 24 /\ minute t < 60 /\ second t < 60 /\ microsecond t < 1000 * 1000)%nat.

(** The ["%c"] conversion depends on the locale. *)
Class Locale := { strftime_c : datetime -> string }.

Definition digit_char (d : nat) : ascii := ascii_of_nat (48 + d).

(** A field of [strftime]: the number in [width] decimal digits, padded with
    zeros on the left. *)
Fixpoint zero_padded (width n : nat) : string :=
  match width with
  | O => ""
  | S k => zero_padded k (n / 10) ++ String (digit_char (n mod 10)) ""
  end.

(** [str(n)] for a non-negative integer. *)
Definition str (n : nat) : string := NilZero.string_of_uint (Nat.to_uint n).

(** [t.strftime("%Y%m%d-%H%M%S-%f")].  The C library writes the year of
    [%Y] in decimal without padding, so a year below 1000 gives fewer than
    four digits; the other fields have a fixed width. *)
Definition strftime_Ymd_HMS_f (t : datetime) : string :=
  str (year t) ++ zero_padded 2 (month t) ++ zero_padded 2 (day t)
  ++ "-" ++
  zero_padded 2 (hour t) ++ zero_padded 2 (minute t) ++ zero_padded 2 (second t)
  ++ "-" ++
  zero_padded 6 (microsecond t).

Definition startswith_slash (s : string) : bool :=
  match s with String c _ => Ascii.eqb c "/" | EmptyString => false end.

Fixpoint endswith_slash (s : string) : bool :=
  match s with
  | EmptyString => false
  | String c EmptyString => Ascii.eqb c "/"
  | String _ t => endswith_slash t
  end.

(** [os.path.join(a, b)] on a POSIX system. *)
Definition os_path_join (a b : string) : string :=
  if startswith_slash b then b
  else if (a =? "")%string || endswith_slash a then a ++ b
  else a ++ "/" ++ b.

(** A vertex of a bounding polygon, and a face of the service's answer. *)
Record vertex := mk_vertex { x_coordinate : Z; y_coordinate : Z }.
Record bounds_t := mk_bounds { vertices : list vertex }.
Record face := mk_face { bounds : bounds_t }.

(** ** The methods of [FaceDetection] *)

Section Methods.
Context `{Cv2} `{Locale}.

(** [cv2.imshow("preview", self.frame)] then [cv2.waitKey()].  OpenCV
    raises when there is no image to show. *)
Definition imshow_frame : M unit :=
  s ← get_state;
  match frame (self s) with
  | None => raise Cv2Error
  | Some l =>
      px ← load_array l;
      modify (fun s => set_previewed (previewed s ++ [px]) s)
  end.

(** [cv2.imwrite(path, px)], its return value dropped: a file OpenCV did
    not write goes unnoticed. *)
Definition cv2_imwrite (path : string) (px : image) : M unit :=
  match imwrite path px with
  | None => raise Cv2Error
  | Some true => modify (fun s => set_written (written s ++ [(path, px)]) s)
  | Some false => ret tt
  end.

(** An OpenCV drawing call on [self.frame]: the pixel memory of the frame is
    changed in place.  Given [None] for the image, [cv2.putText] and
    [cv2.rectangle] take it for an empty array, draw on an array of their own
    and return it; the call here drops that result, so nothing of the object
    changes and nothing is raised. *)
Definition draw_on_frame (draw : image -> image) : M unit :=
  s ← get_state;
  match frame (self s) with
  | None => ret tt
  | Some l =>
      px ← load_array l;
      store l (ObjArray (draw px))
  end.

(** [self.frame[y0:y1, x0:x1]] *)
Definition frame_getitem (y0 y1 x0 x1 : Z) : M ndarray :=
  s ← get_state;
  match frame (self s) with
  | None => raise TypeError
  | Some l =>
      px ← load_array l;
      ret (nd_slice (nd_whole l px) y0 y1 x0 x1)
  end.

(** [__init__(self, image_path, archive_folder, debug)], with the clock
    reading [now] and the answer [decoded] of [cv2.imread(image_path)]
    ([None] when the file cannot be decoded). *)
Definition __init__ (image_path archive_folder : string) (debug : bool)
    (now : datetime) (decoded : option image) : M unit :=
  logging_info (LogImage image_path);;
  items_frames ← alloc (ObjList []);
  frame ← match decoded with
          | Some px => l ← alloc (ObjArray px); ret (Some l)
          | None => ret None
          end;
  modify (set_self (mk_FaceDetection image_path archive_folder debug []
                      items_frames (strftime_Ymd_HMS_f now) frame));;
  if debug then imshow_frame else ret tt.

Definition vertex_at (f : face) (i : nat) : M vertex :=
  match vertices (bounds f) !! i with
  | Some v => ret v
  | None => raise IndexError
  end.

(** The loop of [find_items]; [items] is the local list. *)
Fixpoint find_items_loop (faces : list face) (items : list region)
  : M (list region) :=
  match faces with
  | [] => ret items
  | face :: faces' =>
      v0 ← vertex_at face 0;
      let x1 := x_coordinate v0 in
      let y1 := y_coordinate v0 in
      v2 ← vertex_at face 2;
      let x2 := x_coordinate v2 in
      let y2 := y_coordinate v2 in
      find_items_loop faces' (items ++ [(x1, y1, x2 - x1, y2 - y1)])
  end.

(** [find_items(self)]; [response] is what creating the client, reading the
    file and [image.detect_faces()] give: the faces, or the exception. *)
Definition find_items (response : result (list face)) : M unit :=
  logging_info LogSearch;;
  faces ← match response with
          | Return faces => ret faces
          | Raise e => raise e
          end;
  items ← find_items_loop faces [];
  logging_info (LogCount (length items));;
  logging_info (LogItems items);;
  modify (fun s => set_self (set_items items (self s)) s).

(** [extract_items_frames(self)] *)
Definition extract_items_frames : M unit :=
  s ← get_state;
  logging_info (LogExtract (length (items (self s))));;
  items_frames ← alloc (ObjList []);
  for_each (items (self s)) (fun '(x, y, w, h) =>
    item_frame ← frame_getitem y (y + h) x (x + w);
    d ← alloc (ObjDict (mk_item_frame item_frame x y w h));
    list_append items_frames d);;
  modify (fun s => set_self (set_items_frames items_frames (self s)) s).

(** [get_items_frames(self, grayscale)]; the result is the list object
    returned. *)
Definition get_items_frames (grayscale : bool) : M loc :=
  if negb grayscale then
    s ← get_state; ret (items_frames (self s))
  else
    items_frames' ← alloc (ObjList []);
    s ← get_state;
    stored ← load_list (items_frames (self s));
    for_each stored (fun item_frame =>
      d ← load_dict item_frame;
      px ← nd_read (if_frame d);
      match cvtColor px COLOR_BGR2GRAY with
      | None => raise Cv2Error
      | Some g =>
          a ← alloc (ObjArray g);
          store item_frame (ObjDict (set_if_frame (nd_whole a g) d));;
          list_append items_frames' item_frame
      end);;
    ret items_frames'.

(** [add_label(self, text, x, y)] *)
Definition add_label (text : string) (x y : Z) : M unit :=
  let y := if 11 <? y then y - 5 else y in
  draw_on_frame (fun px =>
    putText px text (x + 40, y) FONT_HERSHEY_SIMPLEX (12 # 10)%Q (0, 255, 0) 4).

(** The loop of [archive_items_frames]. *)
Fixpoint archive_items_loop (stored : list loc) (idx : nat) : M unit :=
  match stored with
  | [] => ret tt
  | item_frame :: stored' =>
      d ← load_dict item_frame;
      a_frame ← nd_read (if_frame d);
      s ← get_state;
      let image_name :=
        (images_prefix (self s) ++ "_item_" ++ str idx ++ ".jpg")%string in
      logging_info (LogArchiveItem image_name);;
      cv2_imwrite (os_path_join (archive_folder (self s)) image_name) a_frame;;
      archive_items_loop stored' (S idx)
  end.

(** [archive_items_frames(self)] *)
Definition archive_items_frames : M unit :=
  s ← get_state;
  stored ← load_list (items_frames (self s));
  logging_info (LogArchiveItems (length stored));;
  archive_items_loop stored 0.

(** [archive_with_items(self)], with the clock reading [now].  Without a
    frame the drawing steps do nothing and the method goes on to the preview
    and the write, where OpenCV raises on the missing image. *)
Definition archive_with_items (now : datetime) : M unit :=
  logging_info LogArchiveFull;;
  s ← get_state;
  for_each (items (self s)) (fun '(x, y, w, h) =>
    draw_on_frame (fun px => rectangle px (x, y) (x + w, y + h) (0, 255, 0) 3));;
  draw_on_frame (fun px =>
    putText px (strftime_c now) (5, 25) FONT_HERSHEY_SIMPLEX (8 # 10)%Q
            (0, 0, 0) 3);;
  s ← get_state;
  (if debug (self s) then imshow_frame else ret tt);;
  let archive_full_name := (images_prefix (self s) ++ "_full.jpg")%string in
  logging_info (LogArchiveFile archive_full_name);;
  match frame (self s) with
  | None => raise Cv2Error
  | Some l =>
      px ← load_array l;
      cv2_imwrite (os_path_join (archive_folder (self s)) archive_full_name) px
  end.

End Methods.

(** ** A small OpenCV stand-in, to run the methods on concrete inputs *)

Module Pen.

Definition gray_of (p : pixel) : pixel :=
  match p with
  | Bgr b g r => Gray ((r * 4899 + g * 9617 + b * 1868 + 8192) / 16384)
  | Gray v => Gray v
  end.

Definition is_bgr (p : pixel) : bool :=
  match p with Bgr _ _ _ => true | Gray _ => false end.

(** An array without a pixel: no rows, or rows without columns. *)
Definition no_pixels (px : image) : bool :=
  match px with
  | [] => true
  | row :: _ => match row with [] => true | _ :: _ => false end
  end.

(** Colour to gray; raises on an array without a pixel and on one that is not
    three-channel. *)
Definition to_gray (px : image) (code : color_conversion) : option image :=
  if no_pixels px then None
  else if forallb (forallb is_bgr) px then Some (map (map gray_of) px)
  else None.

(** Paints the pixel at column [x], row [y] when it is inside the array. *)
Definition dot (px : image) (org : Z * Z) (color : Z * Z * Z) : image :=
  let '(x, y) := org in
  let '(b, g, r) := color in
  if (x <? 0) || (y <? 0) then px
  else alter (alter (fun _ => Bgr b g r) (Z.to_nat x)) (Z.to_nat y) px.

Definition draw_text (px : image) (text : string) (org : Z * Z)
    (f : font_face) (scale : Q) (color : Z * Z * Z) (thickness : Z) : image :=
  dot px org color.

Definition draw_box (px : image) (pt1 pt2 : Z * Z) (color : Z * Z * Z)
    (thickness : Z) : image :=
  dot (dot px pt1 color) pt2 color.

(** Raises on an array without a pixel, writes any other. *)
Definition write (path : string) (px : image) : option bool :=
  if no_pixels px then None else Some true.

Lemma gray_of_single_channel (px : image) :
  single_channel (map (map gray_of) px).
Proof.
  unfold single_channel.
  induction px as [|row px IH]; simpl; [constructor|].
  constructor; [|exact IH].
  clear. induction row as [|p row IHrow]; simpl; [constructor|].
  constructor; [destruct p; reflexivity | exact IHrow].
Qed.

Lemma to_gray_single_channel px g :
  to_gray px COLOR_BGR2GRAY = Some g -> single_channel g.
Proof.
  unfold to_gray. destruct (no_pixels px); [discriminate|].
  destruct (forallb _ _); [|discriminate]. intros [= <-].
  exact (gray_of_single_channel px).
Qed.

#[export] Instance cv2 : Cv2 := {|
  cvtColor := to_gray;
  putText := draw_text;
  rectangle := draw_box;
  imwrite := write;
  cvtColor_BGR2GRAY_single_channel := to_gray_single_channel
|}.

(** The ["%c"] text is left empty. *)
#[export] Instance locale : Locale := {| strftime_c := fun _ => "" |}.

(** A second stand-in, for a folder in which the file [locked] cannot be
    opened for writing: [cv2.imwrite] returns [False] for it and writes any
    other file. *)
Definition locked : string := "/tmp/20170309-140507-000042_item_0.jpg".

Definition write_locked (path : string) (px : image) : option bool :=
  if no_pixels px then None
  else if (path =? locked)%string then Some false
  else Some true.

Definition cv2_locked : Cv2 := {|
  cvtColor := to_gray;
  putText := draw_text;
  rectangle := draw_box;
  imwrite := write_locked;
  cvtColor_BGR2GRAY_single_channel := to_gray_single_channel
|}.

(** A 4 x 5 colour image whose pixel at row [i], column [j] is
    [Bgr i j (i + j)]. *)
Definition sample : image :=
  map (fun i => map (fun j => Bgr i j (i + j)) [0; 1; 2; 3; 4]) [0; 1; 2; 3].

Definition clock : datetime :=
  mk_datetime 2017%nat 3%nat 9%nat 14%nat 5%nat 7%nat 42%nat.

(** The store before the object is made. *)
Definition blank : state :=
  mk_state (mk_FaceDetection "" "" false [] 0%nat "" None) [] [] [] [].

Definition square (x1 y1 x2 y2 : Z) : face :=
  mk_face (mk_bounds [mk_vertex x1 y1; mk_vertex x2 y1;
                      mk_vertex x2 y2; mk_vertex x1 y2]).

Definition two_faces : list face := [square 1 1 3 3; square 2 0 5 2].

(** The object after construction, then after detection of two faces, then
    after cropping. *)
Definition constructed : state :=
  snd (__init__ "in.jpg" "/tmp/" false clock (Some sample) blank).

Definition detected : state := snd (find_items (Return two_faces) constructed).

Definition cropped : state := snd (extract_items_frames detected).

End Pen.

(** ** Reading the store *)

Definition lookup_array (h : list obj) (l : loc) : option image :=
  match h !! l with Some (ObjArray px) => Some px | _ => None end.

Definition lookup_dict (h : list obj) (l : loc) : option item_frame :=
  match h !! l with Some (ObjDict d) => Some d | _ => None end.

Definition lookup_list (h : list obj) (l : loc) : option (list loc) :=
  match h !! l with Some (ObjList xs) => Some xs | _ => None end.

(** The array object [self.frame] refers to, when the image was decoded. *)
Definition frame_array (s : state) : option ndarray :=
  l ← frame (self s);
  px ← lookup_array (heap s) l;
  Some (nd_whole l px).

(** The pixel memory of [self.frame]. *)
Definition frame_pixels (s : state) : option image :=
  l ← frame (self s); lookup_array (heap s) l.

(** The pixels an array object shows in the store of [s]. *)
Definition pixels_of (s : state) (a : ndarray) : option image :=
  window a <$> lookup_array (heap s) (nd_base a).

(** The crop records of [self.items_frames], in list order. *)
Definition stored_crops (s : state) : option (list loc) :=
  lookup_list (heap s) (items_frames (self s)).

(** The crop record of a region, cut from the array [fr]. *)
Definition crop_record (fr : ndarray) (r : region) : item_frame :=
  let '(x, y, w, h) := r in
  mk_item_frame (nd_slice fr y (y + h) x (x + w)) x y w h.

(** ** Running the monad *)

Lemma bind_Return {A B} (m : M A) (k : A -> M B) s a s' :
  m s = (Return a, s') -> (m ≫= k) s = k a s'.
Proof. intros E. unfold mbind, M_bind, bind. rewrite E. reflexivity. Qed.

Lemma load_array_Some s l px :
  lookup_array (heap s) l = Some px -> load_array l s = (Return px, s).
Proof.
  unfold lookup_array, load_array.
  destruct (heap s !! l) as [[]|]; intros [= <-]; reflexivity.
Qed.

Lemma load_dict_Some s l d :
  lookup_dict (heap s) l = Some d -> load_dict l s = (Return d, s).
Proof.
  unfold lookup_dict, load_dict.
  destruct (heap s !! l) as [[]|]; intros [= <-]; reflexivity.
Qed.

Lemma load_list_Some s l xs :
  lookup_list (heap s) l = Some xs -> load_list l s = (Return xs, s).
Proof.
  unfold lookup_list, load_list.
  destruct (heap s !! l) as [[]|]; intros [= <-]; reflexivity.
Qed.

Lemma nd_read_Some s a px :
  pixels_of s a = Some px -> nd_read a s = (Return px, s).
Proof.
  unfold pixels_of, nd_read. intros E.
  destruct (lookup_array (heap s) (nd_base a)) as [px0|] eqn:E0; [|discriminate].
  injection E as <-.
  rewrite (bind_Return _ _ _ _ _ (load_array_Some _ _ _ E0)). reflexivity.
Qed.

Lemma frame_getitem_Some `{Cv2} s fr y0 y1 x0 x1 :
  frame_array s = Some fr ->
  frame_getitem y0 y1 x0 x1 s = (Return (nd_slice fr y0 y1 x0 x1), s).
Proof.
  unfold frame_array, frame_getitem. intros E.
  unfold mbind at 1, M_bind, bind, get_state.
  destruct (frame (self s)) as [l|]; [|discriminate]. simpl in E.
  destruct (lookup_array (heap s) l) as [px|] eqn:E0; [|discriminate].
  injection E as <-.
  rewrite (bind_Return _ _ _ _ _ (load_array_Some _ _ _ E0)). reflexivity.
Qed.

(** ** [extract_items_frames] *)

(** The state [extract_items_frames] leaves when the crops are cut from the
    array [fr]: a new list object at the next free location, then one new
    crop record per region, in order. *)
Definition after_extract (fr : ndarray) (s : state) : state :=
  let n := length (heap s) in
  let rs := items (self s) in
  mk_state (set_items_frames n (self s))
           (heap s ++ ObjList (seq (S n) (length rs))
                   :: map (fun r => ObjDict (crop_record fr r)) rs)
           (logged s ++ [LogExtract (length rs)])
           (written s) (previewed s).

Section ExtractLoop.
Context `{Cv2}.

Lemma extract_loop lf px (rs : list region) :
  forall s h0 acc ds,
    heap s = h0 ++ ObjList acc :: ds ->
    frame (self s) = Some lf ->
    lookup_array h0 lf = Some px ->
    for_each rs (fun '(x, y, w, h) =>
        item_frame ← frame_getitem y (y + h) x (x + w);
        d ← alloc (ObjDict (mk_item_frame item_frame x y w h));
        list_append (length h0) d) s
    = (Return tt,
       set_heap (h0 ++ ObjList (acc ++ seq (S (length h0 + length ds)) (length rs))
                    :: (ds ++ map (fun r => ObjDict (crop_record (nd_whole lf px) r)) rs))
                s).
Proof.
  induction rs as [|[[[x y] w] h] rs IH]; intros s h0 acc ds Hh Hf Hl.
  - simpl. rewrite !app_nil_r, <- Hh. destruct s; reflexivity.
  - assert (Hfa : frame_array s = Some (nd_whole lf px)).
    { unfold frame_array. rewrite Hf. simpl.
      unfold lookup_array in *. rewrite Hh.
      destruct (h0 !! lf) as [o|] eqn:E; [|discriminate].
      rewrite (lookup_app_l_Some _ _ _ _ E). destruct o; try discriminate.
      injection Hl as ->. reflexivity. }
    cbn [for_each].
    erewrite bind_Return; cycle 1.
    { erewrite bind_Return; [|apply frame_getitem_Some; exact Hfa].
      erewrite bind_Return; [|reflexivity].
      unfold list_append. erewrite bind_Return; cycle 1.
      { apply load_list_Some. unfold lookup_list. cbn [set_heap heap].
        rewrite Hh, <- app_assoc. cbn [app].
        rewrite list_lookup_middle by reflexivity. reflexivity. }
      reflexivity. }
    cbn [set_heap heap self].
    rewrite (IH _ h0 (acc ++ [length (heap s)])
                (ds ++ [ObjDict (mk_item_frame
                   (nd_slice (nd_whole lf px) y (y + h) x (x + w)) x y w h)])).
    + f_equal. destruct s as [o hp lg wr pv]. unfold set_heap. cbn in *.
      subst hp. f_equal. f_equal. f_equal.
      * rewrite <- app_assoc. cbn. rewrite !length_app. cbn.
        f_equal. f_equal. f_equal; [lia | f_equal; lia].
      * rewrite <- app_assoc. reflexivity.
    + cbn. rewrite Hh, <- app_assoc. cbn [app].
      rewrite insert_app_r_alt by lia.
      replace (length h0 - length h0)%nat with 0%nat by lia.
      cbn. reflexivity.
    + exact Hf.
    + exact Hl.
Qed.

End ExtractLoop.
Lemma lookup_map {A B} (f : A -> B) (l : list A) (i : nat) :
  map f l !! i = f <$> l !! i.
Proof. exact (list_lookup_fmap f l i). Qed.

Section Extract.
Context `{Cv2}.

Lemma extract_items_frames_loaded s fr :
  frame_array s = Some fr ->
  extract_items_frames s = (Return tt, after_extract fr s).
Proof.
  intros Hfa. unfold extract_items_frames.
  erewrite bind_Return; [|reflexivity].
  erewrite bind_Return; [|reflexivity].
  erewrite bind_Return; [|reflexivity].
  unfold frame_array in Hfa.
  destruct (frame (self s)) as [lf|] eqn:Hf; [|discriminate]. simpl in Hfa.
  destruct (lookup_array (heap s) lf) as [px|] eqn:Hl; [|discriminate].
  injection Hfa as <-.
  erewrite bind_Return; cycle 1.
  { cbn [set_heap set_logged heap self].
    eapply (extract_loop lf px _ _ (heap s) [] []);
      [reflexivity | exact Hf | exact Hl]. }
  unfold after_extract. destruct s as [o hp lg wr pv]. cbn.
  rewrite Nat.add_0_r. reflexivity.
Qed.

Lemma extract_items_frames_nil s fr :
  items (self s) = [] ->
  extract_items_frames s = (Return tt, after_extract fr s).
Proof.
  intros Hnil. unfold extract_items_frames, after_extract.
  erewrite bind_Return; [|reflexivity].
  erewrite bind_Return; [|reflexivity].
  erewrite bind_Return; [|reflexivity].
  rewrite Hnil. destruct s; reflexivity.
Qed.

End Extract.

Lemma stored_crops_after_extract fr s :
  stored_crops (after_extract fr s)
  = Some (seq (S (length (heap s))) (length (items (self s)))).
Proof.
  unfold stored_crops, after_extract, lookup_list. cbn.
  rewrite list_lookup_middle by reflexivity. reflexivity.
Qed.

Lemma lookup_dict_after_extract fr s i r :
  items (self s) !! i = Some r ->
  lookup_dict (heap (after_extract fr s)) (S (length (heap s)) + i)%nat
  = Some (crop_record fr r).
Proof.
  intros Hi. unfold lookup_dict, after_extract. cbn [heap].
  rewrite lookup_app_r by lia.
  replace (S (length (heap s)) + i - length (heap s))%nat with (S i) by lia.
  rewrite lookup_cons_ne_0 by lia. cbn [pred].
  rewrite lookup_map, Hi. reflexivity.
Qed.

Lemma lookup_array_after_extract fr s l px :
  lookup_array (heap s) l = Some px ->
  lookup_array (heap (after_extract fr s)) l = Some px.
Proof.
  unfold lookup_array, after_extract. cbn [heap]. intros E.
  destruct (heap s !! l) as [o|] eqn:El; [|discriminate].
  rewrite (lookup_app_l_Some _ _ _ _ El). exact E.
Qed.


(** ** Relations every run of a computation keeps *)

(** [stable R m]: whatever [m] does, and whether it returns or raises, the
    state it leaves is related by [R] to the state it started in. *)
Definition stable {A} (R : state -> state -> Prop) (m : M A) : Prop :=
  forall s, R s (snd (m s)).

Section Stable.
Variable R : state -> state -> Prop.
Hypothesis R_refl : forall s, R s s.
Hypothesis R_trans : forall s1 s2 s3, R s1 s2 -> R s2 s3 -> R s1 s3.

Lemma stable_ret {A} (a : A) : stable R (ret a).
Proof. intros s. apply R_refl. Qed.

Lemma stable_mret {A} (a : A) : stable R (mret a : M A).
Proof. intros s. apply R_refl. Qed.

Lemma stable_raise {A} (e : exn) : stable R (raise e : M A).
Proof. intros s. apply R_refl. Qed.

Lemma stable_get_state : stable R get_state.
Proof. intros s. apply R_refl. Qed.

Lemma stable_bind {A B} (m : M A) (k : A -> M B) :
  stable R m -> (forall a, stable R (k a)) -> stable R (m ≫= k).
Proof.
  intros Hm Hk s. unfold mbind, M_bind, bind.
  specialize (Hm s). destruct (m s) as [[a|e] s1]; cbn in *.
  - eapply R_trans; [exact Hm | apply Hk].
  - exact Hm.
Qed.

Lemma stable_modify (f : state -> state) :
  (forall s, R s (f s)) -> stable R (modify f).
Proof. intros Hf s. apply Hf. Qed.

Lemma stable_for_each {A} (l : list A) (body : A -> M unit) :
  (forall a, stable R (body a)) -> stable R (for_each l body).
Proof.
  intros Hb. induction l as [|a l IH]; cbn [for_each].
  - apply stable_ret.
  - apply stable_bind; [apply Hb | intros _; exact IH].
Qed.

Lemma stable_load_array l : stable R (load_array l).
Proof.
  intros s. unfold load_array.
  destruct (heap s !! l) as [[]|]; apply R_refl.
Qed.

Lemma stable_load_dict l : stable R (load_dict l).
Proof.
  intros s. unfold load_dict.
  destruct (heap s !! l) as [[]|]; apply R_refl.
Qed.

Lemma stable_load_list l : stable R (load_list l).
Proof.
  intros s. unfold load_list.
  destruct (heap s !! l) as [[]|]; apply R_refl.
Qed.

Lemma stable_nd_read a : stable R (nd_read a).
Proof.
  apply stable_bind; [apply stable_load_array | intros px; apply stable_ret].
Qed.

Lemma stable_logging_info r :
  (forall s l, R s (set_logged l s)) -> stable R (logging_info r).
Proof. intros Hl. apply stable_modify. intros s. apply Hl. Qed.


End Stable.

(** The relations used below. *)




Section StableMethods.
Context `{Cv2} `{Locale}.

Lemma imshow_frame_self s : self (snd (imshow_frame s)) = self s.
Proof.
  apply (stable_bind (fun s s' => self s' = self s)); try congruence.
  - apply stable_get_state; congruence.
  - intros s0. destruct (frame (self s0)).
    + apply stable_bind; try congruence.
      * apply stable_load_array; congruence.
      * intros px. apply stable_modify. reflexivity.
    + apply stable_raise; congruence.
Qed.

End StableMethods.

(** ** Slices that lie within the array *)

Lemma adjust_index_in_range n i :
  0 <= i <= Z.of_nat n -> adjust_index n i = Z.to_nat i.
Proof.
  intros Hi. unfold adjust_index.
  destruct (i <? 0) eqn:E; [apply Z.ltb_lt in E; lia|].
  rewrite Z.min_l by lia. reflexivity.
Qed.

Lemma py_slice_in_range {A} (l : list A) n a b :
  0 <= a -> 0 <= b -> a + b <= Z.of_nat n ->
  py_slice n a (a + b) l = take (Z.to_nat b) (drop (Z.to_nat a) l).
Proof.
  intros Ha Hb Hab. unfold py_slice.
  rewrite !adjust_index_in_range by lia.
  f_equal. lia.
Qed.

Lemma np_slice2_in_bounds px W x y w h :
  rectangular W px ->
  0 <= x -> 0 <= y -> 0 <= w -> 0 <= h ->
  y + h <= Z.of_nat (height px) -> x + w <= Z.of_nat W ->
  let c := np_slice2 px y (y + h) x (x + w) in
  height c = Z.to_nat h /\
  rectangular (Z.to_nat w) c /\
  forall i j, (i < Z.to_nat h)%nat -> (j < Z.to_nat w)%nat ->
    pixel_at c i j = pixel_at px (Z.to_nat y + i) (Z.to_nat x + j).
Proof.
  intros Hrect Hx Hy Hw Hh Hyh Hxw c.
  assert (Hc : c = map (fun row => take (Z.to_nat w) (drop (Z.to_nat x) row))
                       (take (Z.to_nat h) (drop (Z.to_nat y) px))).
  { subst c. unfold np_slice2.
    rewrite (py_slice_in_range px) by lia.
    destruct px as [|row0 px'].
    - rewrite drop_nil, take_nil. reflexivity.
    - apply map_ext. intros row.
      apply py_slice_in_range; try lia.
      inversion Hrect as [|? ? Hrow0 _]; subst. cbn [width]. lia. }
  rewrite Hc. clear Hc c. unfold height in *.
  split; [|split].
  - rewrite length_map, length_take, length_drop. lia.
  - unfold rectangular in *. rewrite Forall_forall in *.
    intros row Hrow. apply list_elem_of_In, in_map_iff in Hrow as (r0 & <- & Hr0).
    apply list_elem_of_In in Hr0.
    assert (Hin : r0 ∈ px).
    { apply (subseteq_drop (Z.to_nat y)), (subseteq_take (Z.to_nat h)), Hr0. }
    specialize (Hrect _ Hin).
    rewrite length_take, length_drop. lia.
  - intros i j Hi Hj. unfold pixel_at, image in *.
    rewrite lookup_map, lookup_take_lt, lookup_drop by lia.
    destruct (px !! (Z.to_nat y + i)%nat) as [row|]; [|reflexivity].
    cbn. rewrite lookup_take_lt, lookup_drop by lia. reflexivity.
Qed.

(** ** Claims on [extract_items_frames] *)

Section ExtractClaims.
Context `{Cv2} `{Locale}.

Lemma init_items_nil path folder dbg now decoded s0 r s1 :
  __init__ path folder dbg now decoded s0 = (r, s1) ->
  items (self s1) = [].
Proof.
  unfold __init__. intros E.
  erewrite bind_Return in E; [|reflexivity].
  erewrite bind_Return in E; [|reflexivity].
  destruct decoded as [px|];
    (erewrite bind_Return in E; [|reflexivity]);
    (erewrite bind_Return in E; [|reflexivity]);
    (destruct dbg;
     [ apply (f_equal snd) in E; cbn [snd] in E; rewrite <- E, imshow_frame_self
     | injection E as _ <- ]; reflexivity).
Qed.

(** C1: with the image decoded, or with no region stored,
    [extract_items_frames] returns and leaves exactly one crop record per
    stored region: the stored crop list has as many entries as the region
    list had at the call, the entries are distinct records, and the i-th
    record is the crop of the i-th region.  On an object that has just been
    constructed it returns with an empty crop list. *)
Theorem extract_one_crop_per_region :
  (forall s : state,
     is_Some (frame_array s) \/ items (self s) = [] ->
     exists s' ds,
       extract_items_frames s = (Return tt, s') /\
       stored_crops s' = Some ds /\
       length ds = length (items (self s)) /\
       NoDup ds /\
       forall i r, items (self s) !! i = Some r ->
         exists d c, ds !! i = Some d /\ lookup_dict (heap s') d = Some c /\
                     (if_x c, if_y c, if_w c, if_h c) = r) /\
  (forall path folder dbg now decoded s0 s1,
     __init__ path folder dbg now decoded s0 = (Return tt, s1) ->
     exists s2,
       extract_items_frames s1 = (Return tt, s2) /\
       stored_crops s2 = Some []).
Proof.
  split.
  - intros s Hs.
    assert (exists fr, extract_items_frames s = (Return tt, after_extract fr s))
      as [fr E].
    { destruct Hs as [[fr Hfr]|Hnil].
      - exists fr. apply extract_items_frames_loaded, Hfr.
      - exists (nd_whole 0%nat []). apply extract_items_frames_nil, Hnil. }
    exists (after_extract fr s), (seq (S (length (heap s))) (length (items (self s)))).
    split; [exact E|]. split; [apply stored_crops_after_extract|].
    split; [apply length_seq|]. split; [apply NoDup_seq|].
    intros i r Hi.
    exists (S (length (heap s)) + i)%nat, (crop_record fr r).
    split; [apply lookup_seq_lt, (lookup_lt_Some _ _ _ Hi)|].
    split; [apply lookup_dict_after_extract, Hi|].
    destruct r as [[[x y] w] h]. reflexivity.
  - intros path folder dbg now decoded s0 s1 E.
    pose proof (init_items_nil _ _ _ _ _ _ _ _ E) as Hnil.
    exists (after_extract (nd_whole 0%nat []) s1).
    split; [apply extract_items_frames_nil, Hnil|].
    rewrite stored_crops_after_extract, Hnil. reflexivity.
Qed.

(** C2: with the image decoded, the crop record built for the i-th region
    [(x, y, w, h)] stores exactly [x], [y], [w], [h], and its buffer is the
    slice [frame[y:y+h, x:x+w]]: it shows the pixels of that slice of the
    current image buffer.  When the region lies within a [W]-pixel wide
    buffer, that is [h] rows of [w] pixels, the pixel at row [i], column [j]
    being the buffer's pixel at row [y+i], column [x+j]. *)
Theorem extract_crop_is_region_slice (s : state) (lf : loc) (px : image)
    (Hf : frame (self s) = Some lf)
    (Hpx : lookup_array (heap s) lf = Some px) :
  exists s' ds,
    extract_items_frames s = (Return tt, s') /\
    stored_crops s' = Some ds /\
    length ds = length (items (self s)) /\
    forall i x y w h, items (self s) !! i = Some (x, y, w, h) ->
      exists d c,
        ds !! i = Some d /\ lookup_dict (heap s') d = Some c /\
        if_x c = x /\ if_y c = y /\ if_w c = w /\ if_h c = h /\
        if_frame c = nd_slice (nd_whole lf px) y (y + h) x (x + w) /\
        pixels_of s' (if_frame c) = Some (np_slice2 px y (y + h) x (x + w)) /\
        forall W,
          rectangular W px ->
          0 <= x -> 0 <= y -> 0 <= w -> 0 <= h ->
          y + h <= Z.of_nat (height px) -> x + w <= Z.of_nat W ->
          exists crop,
            pixels_of s' (if_frame c) = Some crop /\
            height crop = Z.to_nat h /\
            rectangular (Z.to_nat w) crop /\
            forall i j, (i < Z.to_nat h)%nat -> (j < Z.to_nat w)%nat ->
              pixel_at crop i j = pixel_at px (Z.to_nat y + i) (Z.to_nat x + j).
Proof.
  assert (Hfa : frame_array s = Some (nd_whole lf px)).
  { unfold frame_array. rewrite Hf. cbn. rewrite Hpx. reflexivity. }
  exists (after_extract (nd_whole lf px) s),
         (seq (S (length (heap s))) (length (items (self s)))).
  split; [apply extract_items_frames_loaded, Hfa|].
  split; [apply stored_crops_after_extract|].
  split; [apply length_seq|].
  intros i x y w h Hi.
  exists (S (length (heap s)) + i)%nat, (crop_record (nd_whole lf px) (x, y, w, h)).
  split; [apply lookup_seq_lt, (lookup_lt_Some _ _ _ Hi)|].
  split; [apply lookup_dict_after_extract, Hi|].
  do 5 (split; [reflexivity|]).
  assert (Hread : pixels_of (after_extract (nd_whole lf px) s)
                    (if_frame (crop_record (nd_whole lf px) (x, y, w, h)))
                  = Some (np_slice2 px y (y + h) x (x + w))).
  { unfold pixels_of. cbn [crop_record if_frame nd_slice nd_base nd_whole].
    rewrite (lookup_array_after_extract _ _ _ _ Hpx). reflexivity. }
  split; [exact Hread|].
  intros W Hrect Hx Hy Hw Hh Hyh Hxw.
  exists (np_slice2 px y (y + h) x (x + w)).
  split; [exact Hread|].
  exact (np_slice2_in_bounds px W x y w h Hrect Hx Hy Hw Hh Hyh Hxw).
Qed.

End ExtractClaims.

(** ** [find_items] *)

(** The region of a face: vertex 0 is its top-left corner and vertex 2 its
    bottom-right corner. *)
Definition bounding_box (f : face) : option region :=
  v0 ← vertices (bounds f) !! 0%nat;
  v2 ← vertices (bounds f) !! 2%nat;
  Some (x_coordinate v0, y_coordinate v0,
        x_coordinate v2 - x_coordinate v0, y_coordinate v2 - y_coordinate v0).

(** Only the region list and the log may differ. *)
Definition only_items_logged (s s' : state) : Prop :=
  image_path (self s') = image_path (self s) /\
  archive_folder (self s') = archive_folder (self s) /\
  debug (self s') = debug (self s) /\
  items_frames (self s') = items_frames (self s) /\
  images_prefix (self s') = images_prefix (self s) /\
  frame (self s') = frame (self s) /\
  heap s' = heap s /\
  written s' = written s /\
  previewed s' = previewed s.

Lemma only_items_logged_refl s : only_items_logged s s.
Proof. repeat split. Qed.

Lemma only_items_logged_trans s1 s2 s3 :
  only_items_logged s1 s2 -> only_items_logged s2 s3 -> only_items_logged s1 s3.
Proof.
  unfold only_items_logged.
  intros (?&?&?&?&?&?&?&?&?) (?&?&?&?&?&?&?&?&?). repeat split; congruence.
Qed.

Section FindItems.
Context `{Cv2} `{Locale}.

Lemma find_items_loop_pure faces :
  forall acc s, snd (find_items_loop faces acc s) = s.
Proof.
  induction faces as [|f faces IH]; intros acc s; [reflexivity|].
  cbn [find_items_loop]. unfold vertex_at, mbind, M_bind, bind.
  destruct (vertices (bounds f) !! 0%nat) as [v0|]; [|reflexivity]. cbn.
  destruct (vertices (bounds f) !! 2%nat) as [v2|]; [|reflexivity]. cbn.
  apply IH.
Qed.

Lemma find_items_loop_boxes faces :
  forall rs acc s,
    Forall2 (fun f r => bounding_box f = Some r) faces rs ->
    find_items_loop faces acc s = (Return (acc ++ rs), s).
Proof.
  induction faces as [|f faces IH]; intros rs acc s Hrs.
  - inversion Hrs; subst. cbn. rewrite app_nil_r. reflexivity.
  - inversion Hrs as [|? r ? rs' Hb Hrs']; subst.
    cbn [find_items_loop]. unfold bounding_box in Hb.
    unfold vertex_at, mbind at 1 2, M_bind, bind.
    destruct (vertices (bounds f) !! 0%nat) as [v0|]; [|discriminate]. cbn in *.
    destruct (vertices (bounds f) !! 2%nat) as [v2|]; [|discriminate]. cbn in *.
    injection Hb as <-.
    rewrite (IH rs' _ s Hrs'), <- app_assoc. reflexivity.
Qed.

Lemma bounding_box_is_Some f :
  (3 <= length (vertices (bounds f)))%nat -> is_Some (bounding_box f).
Proof.
  intros Hlen. unfold bounding_box.
  destruct (lookup_lt_is_Some_2 (vertices (bounds f)) 0%nat) as [v0 E0]; [lia|].
  destruct (lookup_lt_is_Some_2 (vertices (bounds f)) 2%nat) as [v2 E2]; [lia|].
  rewrite E0, E2. cbn. eauto.
Qed.

Lemma find_items_only_items_logged response :
  stable only_items_logged (find_items response).
Proof.
  pose proof only_items_logged_refl as Hr.
  pose proof only_items_logged_trans as Ht.
  assert (Hlog : forall r, stable only_items_logged (logging_info r)).
  { intros r. apply stable_logging_info. intros s l. repeat split. }
  unfold find_items.
  apply stable_bind; [exact Ht | apply Hlog | intros _].
  apply stable_bind; [exact Ht | | intros faces].
  { destruct response; [apply stable_mret | apply stable_raise]; exact Hr. }
  apply stable_bind; [exact Ht | | intros rs].
  { intros s. rewrite find_items_loop_pure. apply Hr. }
  apply stable_bind; [exact Ht | apply Hlog | intros _].
  apply stable_bind; [exact Ht | apply Hlog | intros _].
  apply stable_modify. intros s. repeat split.
Qed.

(** C3: when every face of the service's answer has the vertices 0 and 2,
    [find_items] returns and the stored region list holds, for the i-th face
    in the order of the answer, the tuple [(x1, y1, x2 - x1, y2 - y1)] with
    [(x1, y1)] vertex 0 and [(x2, y2)] vertex 2.  The list replaces the one
    stored before: whatever the state at the call, the same list is
    stored. *)
Theorem find_items_regions (s : state) (faces : list face)
    (Hv : Forall (fun f => (3 <= length (vertices (bounds f)))%nat) faces) :
  exists s',
    find_items (Return faces) s = (Return tt, s') /\
    Forall2 (fun f r =>
               exists v0 v2,
                 vertices (bounds f) !! 0%nat = Some v0 /\
                 vertices (bounds f) !! 2%nat = Some v2 /\
                 r = (x_coordinate v0, y_coordinate v0,
                      x_coordinate v2 - x_coordinate v0,
                      y_coordinate v2 - y_coordinate v0))
            faces (items (self s')) /\
    forall s2, items (self (snd (find_items (Return faces) s2)))
               = items (self s').
Proof.
  assert (exists rs, Forall2 (fun f r => bounding_box f = Some r) faces rs)
    as [rs Hrs].
  { induction Hv as [|f faces Hf _ [rs IH]]; [exists []; constructor|].
    destruct (bounding_box_is_Some f Hf) as [r Hr].
    exists (r :: rs). constructor; assumption. }
  assert (Hrun : forall s0, find_items (Return faces) s0
            = (Return tt,
               mk_state (set_items rs (self s0)) (heap s0)
                 (logged s0 ++ [LogSearch; LogCount (length rs); LogItems rs])
                 (written s0) (previewed s0))).
  { intros s0. unfold find_items.
    erewrite bind_Return; [|reflexivity].
    erewrite bind_Return; [|reflexivity].
    erewrite bind_Return; [|apply (find_items_loop_boxes faces rs [] _ Hrs)].
    cbn [app].
    erewrite bind_Return; [|reflexivity].
    erewrite bind_Return; [|reflexivity].
    destruct s0 as [o hp lg wr pv]. cbn.
    rewrite <- !app_assoc. reflexivity. }
  eexists. split; [apply Hrun|]. split.
  - cbn. clear Hrun. induction Hrs as [|f r faces rs Hb _ IH]; constructor.
    + unfold bounding_box in Hb.
      destruct (vertices (bounds f) !! 0%nat) as [v0|]; [|discriminate].
      destruct (vertices (bounds f) !! 2%nat) as [v2|]; [|discriminate].
      cbn in Hb. injection Hb as <-. exists v0, v2. auto.
    + inversion Hv; subst. apply IH. assumption.
  - intros s2. rewrite Hrun. reflexivity.
Qed.

(** C9: whatever the service answers, [find_items] leaves the frame, its
    pixel memory, the stored crop list and every crop record as they were;
    besides the region list only the log can change.  Crops built before a
    new detection are therefore still the stored crops after it. *)
Theorem find_items_frame_effect :
  forall (response : result (list face)) (s : state),
    let s' := snd (find_items response s) in
    frame (self s') = frame (self s) /\
    items_frames (self s') = items_frames (self s) /\
    heap s' = heap s /\
    frame_pixels s' = frame_pixels s /\
    stored_crops s' = stored_crops s /\
    (forall d, lookup_dict (heap s') d = lookup_dict (heap s) d) /\
    (forall a, pixels_of s' a = pixels_of s a) /\
    written s' = written s /\
    previewed s' = previewed s.
Proof.
  intros response s s'.
  destruct (find_items_only_items_logged response s)
    as (_ & _ & _ & Hif & _ & Hf & Hh & Hw & Hp).
  fold s' in Hif, Hf, Hh, Hw, Hp.
  unfold frame_pixels, stored_crops, pixels_of.
  rewrite Hif, Hf, Hh, Hw, Hp. repeat split.
Qed.

End FindItems.

(** ** [add_label] and [get_items_frames(False)] *)

Section Label.
Context `{Cv2} `{Locale}.

Lemma draw_on_frame_loaded s l px draw :
  frame (self s) = Some l ->
  lookup_array (heap s) l = Some px ->
  draw_on_frame draw s
  = (Return tt, set_heap (<[l := ObjArray (draw px)]> (heap s)) s).
Proof.
  intros Hf Hpx. unfold draw_on_frame.
  erewrite bind_Return; [|reflexivity]. rewrite Hf.
  erewrite bind_Return; [|apply load_array_Some, Hpx].
  reflexivity.
Qed.

(** C4: with the image decoded, [add_label(text, x, y)] returns after one
    [cv2.putText] call on the full-frame buffer, in the fixed style, at
    position [(x+40, y-5)] when [y > 11] and at [(x+40, y)] otherwise.  So
    [y = 5] and [y = 11] are not shifted, [y = 12] and [y = 50] are. *)
Theorem add_label_position (s : state) (l : loc) (px : image)
    (Hf : frame (self s) = Some l)
    (Hpx : lookup_array (heap s) l = Some px) :
  let labelled text org :=
    (Return tt,
     set_heap (<[l := ObjArray (putText px text org FONT_HERSHEY_SIMPLEX
                                        (12 # 10)%Q (0, 255, 0) 4)]> (heap s)) s) in
  forall text x,
    (forall y, 11 < y -> add_label text x y s = labelled text (x + 40, y - 5)) /\
    (forall y, y <= 11 -> add_label text x y s = labelled text (x + 40, y)) /\
    add_label text x 5 s = labelled text (x + 40, 5) /\
    add_label text x 11 s = labelled text (x + 40, 11) /\
    add_label text x 12 s = labelled text (x + 40, 7) /\
    add_label text x 50 s = labelled text (x + 40, 45).
Proof.
  intros labelled text x.
  assert (Hhi : forall y, 11 < y ->
            add_label text x y s = labelled text (x + 40, y - 5)).
  { intros y Hy. unfold add_label.
    destruct (Z.ltb_spec 11 y); [|lia].
    rewrite (draw_on_frame_loaded s l px _ Hf Hpx). reflexivity. }
  assert (Hlo : forall y, y <= 11 ->
            add_label text x y s = labelled text (x + 40, y)).
  { intros y Hy. unfold add_label.
    destruct (Z.ltb_spec 11 y); [lia|].
    rewrite (draw_on_frame_loaded s l px _ Hf Hpx). reflexivity. }
  split; [exact Hhi|]. split; [exact Hlo|].
  split; [apply Hlo; lia|]. split; [apply Hlo; lia|].
  split; [apply (Hhi 12); lia | apply (Hhi 50); lia].
Qed.

(** C8: [get_items_frames(False)] returns the stored list object itself, not
    a copy, and changes nothing: the store, hence every crop record, is as
    before, and what the caller holds is the very list and records the
    pipeline object holds. *)
Theorem get_items_frames_false_shares :
  forall s : state,
    get_items_frames false s = (Return (items_frames (self s)), s).
Proof. intros s. reflexivity. Qed.

End Label.

(** ** [get_items_frames(True)] *)

Lemma lookup_array_lookup h l px :
  lookup_array h l = Some px <-> h !! l = Some (ObjArray px).
Proof.
  unfold lookup_array. destruct (h !! l) as [[]|]; split; congruence.
Qed.

Lemma lookup_dict_lookup h l c :
  lookup_dict h l = Some c <-> h !! l = Some (ObjDict c).
Proof.
  unfold lookup_dict. destruct (h !! l) as [[]|]; split; congruence.
Qed.

Lemma lookup_list_lookup h l xs :
  lookup_list h l = Some xs <-> h !! l = Some (ObjList xs).
Proof.
  unfold lookup_list. destruct (h !! l) as [[]|]; split; congruence.
Qed.

Lemma single_channel_window a px :
  single_channel px -> single_channel (window a px).
Proof.
  unfold single_channel, window. intros Hpx.
  apply Forall_forall. intros row Hrow.
  apply list_elem_of_In, in_map_iff in Hrow as (r0 & <- & Hr0).
  apply list_elem_of_In in Hr0.
  apply (subseteq_take (nd_rows a)), (subseteq_drop (nd_row0 a)) in Hr0.
  rewrite Forall_forall in Hpx. specialize (Hpx _ Hr0).
  apply Forall_take, Forall_drop, Hpx.
Qed.

Lemma window_nd_whole l px :
  rectangular (width px) px -> window (nd_whole l px) px = px.
Proof.
  unfold window, nd_whole, height, rectangular. cbn.
  rewrite drop_0, firstn_all. generalize (width px). intros w Hrect.
  induction Hrect as [|row rows Hrow _ IH]; [reflexivity|].
  cbn. rewrite drop_0, <- Hrow, firstn_all, Hrow. f_equal. exact IH.
Qed.

Section Grayscale.
Context `{Cv2}.

(** The crop record at [d] can be converted: it is a record, its buffer
    reads pixel memory, and OpenCV accepts those pixels. *)
Definition crop_convertible (s : state) (d : loc) : Prop :=
  exists c px g,
    lookup_dict (heap s) d = Some c /\
    pixels_of s (if_frame c) = Some px /\
    cvtColor px COLOR_BGR2GRAY = Some g.

(** One turn of the loop of [get_items_frames]. *)
Definition gray_body (lst item_frame : loc) : M unit :=
  d ← load_dict item_frame;
  px ← nd_read (if_frame d);
  match cvtColor px COLOR_BGR2GRAY with
  | None => raise Cv2Error
  | Some g =>
      a ← alloc (ObjArray g);
      store item_frame (ObjDict (set_if_frame (nd_whole a g) d));;
      list_append lst item_frame
  end.

Lemma gray_body_run lst d s acc c px g :
  lookup_list (heap s) lst = Some acc ->
  lookup_dict (heap s) d = Some c ->
  pixels_of s (if_frame c) = Some px ->
  cvtColor px COLOR_BGR2GRAY = Some g ->
  gray_body lst d s
  = (Return tt,
     set_heap (<[lst := ObjList (acc ++ [d])]>
                 (<[d := ObjDict (set_if_frame (nd_whole (length (heap s)) g) c)]>
                    (heap s ++ [ObjArray g]))) s).
Proof.
  intros Hlst Hd Hpx Hg. unfold gray_body.
  erewrite bind_Return; [|apply load_dict_Some, Hd].
  erewrite bind_Return; [|apply nd_read_Some, Hpx].
  rewrite Hg.
  erewrite bind_Return; [|reflexivity].
  erewrite bind_Return; [|reflexivity].
  unfold list_append.
  erewrite bind_Return; cycle 1.
  { apply load_list_Some. cbn [set_heap heap].
    apply lookup_list_lookup in Hlst. apply lookup_dict_lookup in Hd.
    apply lookup_list_lookup.
    rewrite list_lookup_insert_ne by congruence.
    apply lookup_app_l_Some, Hlst. }
  destruct s; reflexivity.
Qed.

Lemma gray_loop lst (ds : list loc) :
  forall s acc,
    lookup_list (heap s) lst = Some acc ->
    NoDup ds ->
    Forall (crop_convertible s) ds ->
    exists s',
      for_each ds (gray_body lst) s = (Return tt, s') /\
      self s' = self s /\ logged s' = logged s /\
      written s' = written s /\ previewed s' = previewed s /\
      length (heap s') = (length (heap s) + length ds)%nat /\
      lookup_list (heap s') lst = Some (acc ++ ds) /\
      (forall l, (l < length (heap s))%nat -> l ∉ ds -> l <> lst ->
                 heap s' !! l = heap s !! l) /\
      (forall i d, ds !! i = Some d ->
         exists c px g,
           lookup_dict (heap s) d = Some c /\
           pixels_of s (if_frame c) = Some px /\
           cvtColor px COLOR_BGR2GRAY = Some g /\
           lookup_dict (heap s') d
           = Some (set_if_frame (nd_whole (length (heap s) + i)%nat g) c) /\
           lookup_array (heap s') (length (heap s) + i)%nat = Some g).
Proof.
  induction ds as [|d ds IH]; intros s acc Hlst Hnd Hconv.
  - exists s. cbn. rewrite app_nil_r, Nat.add_0_r.
    repeat split; auto. intros i d Hi. rewrite lookup_nil in Hi. discriminate.
  - apply NoDup_cons in Hnd as [Hd_notin Hnd].
    apply Forall_cons in Hconv as [(c & px & g & Hc & Hpx & Hg) Hconv].
    pose proof (gray_body_run lst d s acc c px g Hlst Hc Hpx Hg) as Hrun.
    set (n := length (heap s)) in *.
    set (c' := set_if_frame (nd_whole n g) c) in *.
    set (s1 := set_heap (<[lst := ObjList (acc ++ [d])]>
                 (<[d := ObjDict c']> (heap s ++ [ObjArray g]))) s) in *.
    assert (Hd_lt : (d < n)%nat).
    { apply lookup_dict_lookup in Hc. apply (lookup_lt_Some _ _ _ Hc). }
    assert (Hlst_lt : (lst < n)%nat).
    { apply lookup_list_lookup in Hlst. apply (lookup_lt_Some _ _ _ Hlst). }
    assert (Hd_lst : d <> lst).
    { intros ->. apply lookup_dict_lookup in Hc.
      apply lookup_list_lookup in Hlst. congruence. }
    assert (Hlen1 : length (heap s1) = S n).
    { subst s1. cbn [set_heap heap].
      rewrite !length_insert, length_app. cbn. lia. }
    assert (Hsame : forall l, (l < n)%nat -> l <> d -> l <> lst ->
                      heap s1 !! l = heap s !! l).
    { intros l Hl Hld Hll. subst s1. cbn [set_heap heap].
      rewrite !list_lookup_insert_ne by congruence.
      apply lookup_app_l. exact Hl. }
    assert (Hlst1 : lookup_list (heap s1) lst = Some (acc ++ [d])).
    { apply lookup_list_lookup. subst s1. cbn [set_heap heap].
      apply list_lookup_insert_eq.
      rewrite length_insert, length_app. cbn. fold n. lia. }
    assert (Hkeep : forall d0 c0 px0,
              d0 <> d ->
              lookup_dict (heap s) d0 = Some c0 ->
              pixels_of s (if_frame c0) = Some px0 ->
              lookup_dict (heap s1) d0 = Some c0 /\
              pixels_of s1 (if_frame c0) = Some px0).
    { intros d0 c0 px0 Hne Hc0 Hpx0. split.
      - apply lookup_dict_lookup. apply lookup_dict_lookup in Hc0.
        rewrite Hsame; [exact Hc0 | apply (lookup_lt_Some _ _ _ Hc0) | exact Hne |].
        intros ->. apply lookup_list_lookup in Hlst. congruence.
      - unfold pixels_of in *.
        destruct (lookup_array (heap s) (nd_base (if_frame c0))) as [m|] eqn:Em;
          [|discriminate].
        apply lookup_array_lookup in Em.
        assert (E1 : lookup_array (heap s1) (nd_base (if_frame c0)) = Some m).
        { apply lookup_array_lookup. rewrite Hsame; [exact Em | | |].
          - apply (lookup_lt_Some _ _ _ Em).
          - intros E. rewrite E in Em. apply lookup_dict_lookup in Hc. congruence.
          - intros E. rewrite E in Em. apply lookup_list_lookup in Hlst. congruence. }
        rewrite E1. exact Hpx0. }
    assert (Hconv1 : Forall (crop_convertible s1) ds).
    { rewrite Forall_forall in *. intros d0 Hd0.
      destruct (Hconv _ Hd0) as (c0 & px0 & g0 & Hc0 & Hpx0 & Hg0).
      assert (Hne : d0 <> d) by (intros ->; contradiction).
      destruct (Hkeep d0 c0 px0 Hne Hc0 Hpx0) as [Hc1 Hpx1].
      exists c0, px0, g0. auto. }
    destruct (IH s1 (acc ++ [d]) Hlst1 Hnd Hconv1)
      as (s' & Hloop & Hself & Hlog & Hwr & Hpv & Hlen & Hlst' & Hframe & Hrec).
    exists s'. cbn [for_each].
    rewrite (bind_Return _ _ _ _ _ Hrun).
    split; [exact Hloop|].
    split; [rewrite Hself; reflexivity|].
    split; [rewrite Hlog; reflexivity|].
    split; [rewrite Hwr; reflexivity|].
    split; [rewrite Hpv; reflexivity|].
    split; [rewrite Hlen, Hlen1; cbn; lia|].
    split; [rewrite Hlst', <- app_assoc; reflexivity|].
    split.
    + intros l Hl Hnotin Hll.
      apply not_elem_of_cons in Hnotin as [Hld Hnotin].
      rewrite Hframe; [apply Hsame; assumption | rewrite Hlen1; lia | exact Hnotin | exact Hll].
    + assert (Hds_lt : forall d0, d0 ∈ ds -> (d0 < n)%nat).
      { intros d0 Hd0. rewrite Forall_forall in Hconv.
        destruct (Hconv _ Hd0) as (c0 & _ & _ & Hc0 & _).
        apply lookup_dict_lookup in Hc0. apply (lookup_lt_Some _ _ _ Hc0). }
      intros [|i] d0 Hi; cbn in Hi.
      * injection Hi as <-. exists c, px, g.
        split; [exact Hc|]. split; [exact Hpx|]. split; [exact Hg|].
        rewrite Nat.add_0_r. split.
        -- apply lookup_dict_lookup.
           rewrite Hframe; [| rewrite Hlen1; lia | exact Hd_notin | exact Hd_lst].
           subst s1. cbn [set_heap heap].
           rewrite list_lookup_insert_ne by congruence.
           apply list_lookup_insert_eq. rewrite length_app. cbn. fold n. lia.
        -- apply lookup_array_lookup.
           rewrite Hframe; [| rewrite Hlen1; lia | | lia].
           ++ subst s1. cbn [set_heap heap].
              rewrite !list_lookup_insert_ne by lia.
              apply list_lookup_middle. reflexivity.
           ++ intros Hin. apply Hds_lt in Hin. lia.
      * destruct (Hrec i d0 Hi) as (c0 & px0 & g0 & Hc1 & Hpx1 & Hg0 & Hc' & Ha').
        assert (Hin : d0 ∈ ds) by (apply list_elem_of_lookup; eauto).
        assert (Hne : d0 <> d) by (intros ->; contradiction).
        rewrite Forall_forall in Hconv.
        destruct (Hconv _ Hin) as (c2 & px2 & g2 & Hc2 & Hpx2 & Hg2).
        destruct (Hkeep d0 c2 px2 Hne Hc2 Hpx2) as [Hc3 Hpx3].
        assert (c0 = c2) by congruence. subst c0.
        assert (px0 = px2) by congruence. subst px0.
        exists c2, px2, g0.
        split; [exact Hc2|]. split; [exact Hpx2|]. split; [exact Hg0|].
        rewrite Hlen1 in Hc', Ha'.
        replace (n + S i)%nat with (S n + i)%nat by lia.
        split; assumption.
Qed.

End Grayscale.

Section GrayscaleClaims.
Context `{Cv2}.

Lemma get_items_frames_true_run s ds :
  stored_crops s = Some ds ->
  NoDup ds ->
  Forall (crop_convertible s) ds ->
  exists s',
    get_items_frames true s = (Return (length (heap s)), s') /\
    self s' = self s /\ logged s' = logged s /\
    written s' = written s /\ previewed s' = previewed s /\
    lookup_list (heap s') (length (heap s)) = Some ds /\
    stored_crops s' = Some ds /\
    (forall i d, ds !! i = Some d ->
       exists c px g,
         lookup_dict (heap s) d = Some c /\
         pixels_of s (if_frame c) = Some px /\
         cvtColor px COLOR_BGR2GRAY = Some g /\
         lookup_dict (heap s') d
         = Some (set_if_frame (nd_whole (S (length (heap s)) + i)%nat g) c) /\
         lookup_array (heap s') (S (length (heap s)) + i)%nat = Some g).
Proof.
  intros Hds Hnd Hconv. unfold stored_crops in Hds.
  set (n := length (heap s)).
  set (s0 := set_heap (heap s ++ [ObjList []]) s).
  assert (Hup : forall l o, heap s !! l = Some o -> heap s0 !! l = Some o).
  { intros l o E. subst s0. cbn [set_heap heap]. apply lookup_app_l_Some, E. }
  assert (Hlst0 : lookup_list (heap s0) n = Some []).
  { apply lookup_list_lookup. subst s0 n. cbn [set_heap heap].
    apply list_lookup_middle. reflexivity. }
  assert (Hconv0 : Forall (crop_convertible s0) ds).
  { rewrite Forall_forall in *. intros d Hd.
    destruct (Hconv d Hd) as (c & px & g & Hc & Hpx & Hg).
    exists c, px, g. split; [|split; [|exact Hg]].
    - apply lookup_dict_lookup, Hup, lookup_dict_lookup, Hc.
    - unfold pixels_of in *.
      destruct (lookup_array (heap s) (nd_base (if_frame c))) as [m|] eqn:Em;
        [|discriminate].
      apply lookup_array_lookup, Hup, lookup_array_lookup in Em.
      rewrite Em. exact Hpx. }
  destruct (gray_loop n ds s0 [] Hlst0 Hnd Hconv0)
    as (s' & Hloop & Hself & Hlog & Hwr & Hpv & Hlen & Hlst' & Hframe & Hrec).
  assert (Hlen0 : length (heap s0) = S n).
  { subst s0 n. cbn [set_heap heap]. rewrite length_app. cbn. lia. }
  exists s'.
  split.
  { unfold get_items_frames. cbn [negb].
    erewrite bind_Return; [|reflexivity].
    erewrite bind_Return; [|reflexivity].
    erewrite bind_Return; cycle 1.
    { apply load_list_Some. cbn [set_heap heap self].
      apply lookup_list_lookup, (Hup _ _), lookup_list_lookup, Hds. }
    change (for_each ds _) with (for_each ds (gray_body n)).
    erewrite bind_Return; [|exact Hloop]. reflexivity. }
  split; [exact Hself|]. split; [exact Hlog|].
  split; [exact Hwr|]. split; [exact Hpv|].
  split; [exact Hlst'|].
  split.
  { unfold stored_crops. rewrite Hself. change (self s0) with (self s).
    apply lookup_list_lookup in Hds. apply lookup_list_lookup.
    rewrite Hframe.
    - apply Hup, Hds.
    - rewrite Hlen0. pose proof (lookup_lt_Some _ _ _ Hds) as Hlt.
      fold n in Hlt. lia.
    - intros Hin. rewrite Forall_forall in Hconv.
      destruct (Hconv _ Hin) as (c & _ & _ & Hc & _).
      apply lookup_dict_lookup in Hc. congruence.
    - pose proof (lookup_lt_Some _ _ _ Hds) as Hlt. fold n in Hlt. lia. }
  intros i d Hi.
  destruct (Hrec i d Hi) as (c0 & px0 & g0 & Hc0 & Hpx0 & Hg0 & Hc' & Ha').
  assert (Hin : d ∈ ds) by (apply list_elem_of_lookup; eauto).
  rewrite Forall_forall in Hconv.
  destruct (Hconv _ Hin) as (c & px & g & Hc & Hpx & Hg).
  assert (Ec : c0 = c).
  { apply lookup_dict_lookup, Hup, lookup_dict_lookup in Hc. congruence. }
  subst c0.
  assert (Epx : px0 = px).
  { unfold pixels_of in *.
    destruct (lookup_array (heap s) (nd_base (if_frame c))) as [m|] eqn:Em;
      [|discriminate].
    apply lookup_array_lookup, Hup, lookup_array_lookup in Em.
    rewrite Em in Hpx0. congruence. }
  subst px0.
  exists c, px, g0. rewrite Hlen0 in Hc', Ha'.
  repeat split; assumption.
Qed.

(** C5: when the stored crop list holds distinct crop records whose buffers
    OpenCV can convert, [get_items_frames(True)] returns, and each stored
    record is converted in place: the record at the same location has its
    buffer field overwritten with the grayscale conversion of the pixels it
    showed, a single-channel array, and its x, y, w, h fields are unchanged.
    The list returned holds these same records. *)
Theorem get_items_frames_true_in_place (s : state) (ds : list loc)
    (Hds : stored_crops s = Some ds)
    (Hnd : NoDup ds)
    (Hconv : Forall (crop_convertible s) ds) :
  exists l' s',
    get_items_frames true s = (Return l', s') /\
    lookup_list (heap s') l' = Some ds /\
    forall d, d ∈ ds ->
      exists c c' px g shown,
        lookup_dict (heap s) d = Some c /\
        pixels_of s (if_frame c) = Some px /\
        cvtColor px COLOR_BGR2GRAY = Some g /\
        lookup_dict (heap s') d = Some c' /\
        if_x c' = if_x c /\ if_y c' = if_y c /\
        if_w c' = if_w c /\ if_h c' = if_h c /\
        pixels_of s' (if_frame c') = Some shown /\
        single_channel shown /\
        (rectangular (width g) g -> shown = g).
Proof.
  destruct (get_items_frames_true_run s ds Hds Hnd Hconv)
    as (s' & Hrun & _ & _ & _ & _ & Hret & _ & Hrec).
  exists (length (heap s)), s'.
  split; [exact Hrun|]. split; [exact Hret|].
  intros d Hd. apply list_elem_of_lookup in Hd as [i Hi].
  destruct (Hrec i d Hi) as (c & px & g & Hc & Hpx & Hg & Hc' & Ha').
  exists c, (set_if_frame (nd_whole (S (length (heap s)) + i)%nat g) c), px, g,
         (window (nd_whole (S (length (heap s)) + i)%nat g) g).
  split; [exact Hc|]. split; [exact Hpx|]. split; [exact Hg|].
  split; [exact Hc'|]. do 4 (split; [reflexivity|]).
  split.
  { unfold pixels_of. cbn [set_if_frame if_frame nd_whole nd_base].
    rewrite Ha'. reflexivity. }
  split.
  { apply single_channel_window.
    exact (cvtColor_BGR2GRAY_single_channel px g Hg). }
  apply window_nd_whole.
Qed.

(** C10: under the same conditions, the list returned by
    [get_items_frames(True)] is a new list object with the length of the
    stored list and the very same records in the same order, and the stored
    list is still that list of records.  So the stored list itself now holds
    the converted buffers: [get_items_frames(False)] called next returns the
    stored list, whose records show single-channel pixels. *)
Theorem get_items_frames_true_same_records (s : state) (ds : list loc)
    (Hds : stored_crops s = Some ds)
    (Hnd : NoDup ds)
    (Hconv : Forall (crop_convertible s) ds) :
  exists l' s' returned,
    get_items_frames true s = (Return l', s') /\
    lookup_list (heap s') l' = Some returned /\
    length returned = length ds /\
    returned = ds /\
    l' <> items_frames (self s) /\
    items_frames (self s') = items_frames (self s) /\
    stored_crops s' = Some ds /\
    exists l2,
      get_items_frames false s' = (Return l2, s') /\
      lookup_list (heap s') l2 = Some ds /\
      forall i d, ds !! i = Some d ->
        exists c c' px g shown,
          lookup_dict (heap s) d = Some c /\
          pixels_of s (if_frame c) = Some px /\
          cvtColor px COLOR_BGR2GRAY = Some g /\
          lookup_dict (heap s') d = Some c' /\
          pixels_of s' (if_frame c') = Some shown /\
          shown = window (if_frame c') g /\
          single_channel shown.
Proof.
  destruct (get_items_frames_true_run s ds Hds Hnd Hconv)
    as (s' & Hrun & Hself & _ & _ & _ & Hret & Hst & Hrec).
  exists (length (heap s)), s', ds.
  split; [exact Hrun|]. split; [exact Hret|].
  split; [reflexivity|]. split; [reflexivity|].
  split.
  { unfold stored_crops in Hds. apply lookup_list_lookup in Hds.
    pose proof (lookup_lt_Some _ _ _ Hds) as Hlt. lia. }
  split; [rewrite Hself; reflexivity|].
  split; [exact Hst|].
  exists (items_frames (self s')).
  split; [reflexivity|]. split; [exact Hst|].
  intros i d Hi.
  destruct (Hrec i d Hi) as (c & px & g & Hc & Hpx & Hg & Hc' & Ha').
  exists c, (set_if_frame (nd_whole (S (length (heap s)) + i)%nat g) c), px, g,
         (window (nd_whole (S (length (heap s)) + i)%nat g) g).
  split; [exact Hc|]. split; [exact Hpx|]. split; [exact Hg|].
  split; [exact Hc'|].
  split.
  { unfold pixels_of. cbn [set_if_frame if_frame nd_whole nd_base].
    rewrite Ha'. reflexivity. }
  split; [reflexivity|].
  apply single_channel_window.
  exact (cvtColor_BGR2GRAY_single_channel px g Hg).
Qed.

End GrayscaleClaims.

(** ** Construction and sequences of calls *)

(** A method call, as a caller issues it after construction. *)
Inductive call :=
| CallFindItems (response : result (list face))
| CallExtractItemsFrames
| CallGetItemsFrames (grayscale : bool)
| CallAddLabel (text : string) (x y : Z)
| CallArchiveItemsFrames
| CallArchiveWithItems (now : datetime).

(** The calls that work on the region and crop lists only. *)
Definition on_lists (c : call) : Prop :=
  match c with
  | CallExtractItemsFrames | CallGetItemsFrames _ | CallArchiveItemsFrames => True
  | _ => False
  end.

Section Calls.
Context `{Cv2} `{Locale}.

Definition run_call (c : call) : M unit :=
  match c with
  | CallFindItems response => find_items response
  | CallExtractItemsFrames => extract_items_frames
  | CallGetItemsFrames grayscale => get_items_frames grayscale;; ret tt
  | CallAddLabel text x y => add_label text x y
  | CallArchiveItemsFrames => archive_items_frames
  | CallArchiveWithItems now => archive_with_items now
  end.

(** The state after the calls [cs], issued in order by a caller that goes on
    after an exception. *)
Definition run_calls (cs : list call) (s : state) : state :=
  fold_left (fun s c => snd (run_call c s)) cs s.

(** The state a returning [__init__] leaves. *)
Definition after_init (image_path archive_folder : string) (debug : bool)
    (now : datetime) (decoded : option image) (s0 : state) : state :=
  let n := length (heap s0) in
  mk_state
    (mk_FaceDetection image_path archive_folder debug [] n
       (strftime_Ymd_HMS_f now)
       (match decoded with Some _ => Some (S n) | None => None end))
    (heap s0 ++ ObjList []
       :: match decoded with Some px => [ObjArray px] | None => [] end)
    (logged s0 ++ [LogImage image_path])
    (written s0)
    (previewed s0 ++
       match decoded with
       | Some px => if debug then [px] else []
       | None => []
       end).

Lemma init_run path folder dbg now decoded s0 :
  __init__ path folder dbg now decoded s0
  = (if dbg && negb (bool_decide (is_Some decoded))
     then Raise Cv2Error else Return tt,
     after_init path folder dbg now decoded s0).
Proof.
  unfold __init__, after_init.
  generalize (strftime_Ymd_HMS_f now). intros prefix.
  erewrite bind_Return; [|reflexivity].
  erewrite bind_Return; [|reflexivity].
  destruct decoded as [px|].
  - erewrite bind_Return; [|reflexivity].
    erewrite bind_Return; [|reflexivity].
    destruct dbg; cbn [andb negb].
    + unfold imshow_frame.
      erewrite bind_Return; [|reflexivity]. cbn [set_self self frame].
      erewrite bind_Return; cycle 1.
      { apply load_array_Some, lookup_array_lookup. cbn.
        apply list_lookup_middle. reflexivity. }
      cbn. rewrite <- app_assoc, length_app, Nat.add_1_r. reflexivity.
    + cbn. rewrite <- app_assoc, app_nil_r, length_app, Nat.add_1_r.
      reflexivity.
  - erewrite bind_Return; [|reflexivity].
    erewrite bind_Return; [|reflexivity].
    destruct dbg; cbn; rewrite app_nil_r; reflexivity.
Qed.

Lemma init_returns path folder dbg now decoded s0 s1 :
  __init__ path folder dbg now decoded s0 = (Return tt, s1) ->
  s1 = after_init path folder dbg now decoded s0.
Proof. rewrite init_run. intros [= _ <-]. reflexivity. Qed.

(** Every method keeps the configuration captured at construction. *)












End Calls.

(** ** Calls on empty lists *)

(** No region is stored and the stored crop list is empty. *)
Definition lists_empty (s : state) : Prop :=
  items (self s) = [] /\ stored_crops s = Some [].

Section EmptyLists.
Context `{Cv2} `{Locale}.

Lemma archive_items_frames_empty s :
  stored_crops s = Some [] ->
  archive_items_frames s
  = (Return tt, set_logged (logged s ++ [LogArchiveItems 0]) s).
Proof.
  intros Hst. unfold archive_items_frames.
  erewrite bind_Return; [|reflexivity].
  erewrite bind_Return; [|apply load_list_Some, Hst].
  erewrite bind_Return; [|reflexivity].
  reflexivity.
Qed.

Lemma after_init_lists_empty path folder dbg now decoded s0 :
  lists_empty (after_init path folder dbg now decoded s0).
Proof.
  split; [reflexivity|].
  unfold stored_crops, after_init. cbn [self heap items_frames].
  apply lookup_list_lookup, list_lookup_middle. reflexivity.
Qed.

Lemma run_call_lists_empty c s :
  lists_empty s -> on_lists c ->
  exists s',
    run_call c s = (Return tt, s') /\ lists_empty s' /\ written s' = written s.
Proof.
  intros [Hit Hst] Hc.
  destruct c as [response| |grayscale|text x y| |now]; try contradiction;
    cbn [run_call].
  - exists (after_extract (nd_whole 0%nat []) s).
    split; [apply extract_items_frames_nil, Hit|].
    split; [|reflexivity].
    split; [exact Hit|].
    rewrite stored_crops_after_extract, Hit. reflexivity.
  - destruct grayscale.
    + destruct (get_items_frames_true_run s [] Hst (NoDup_nil_2) (Forall_nil_2 _))
        as (s' & Hrun & Hself & _ & Hwr & _ & _ & Hst' & _).
      exists s'. split; [erewrite bind_Return; [reflexivity | exact Hrun]|].
      split; [|exact Hwr].
      split; [rewrite Hself; exact Hit | exact Hst'].
    + exists s. split; [reflexivity|]. split; [split; assumption | reflexivity].
  - exists (set_logged (logged s ++ [LogArchiveItems 0]) s).
    split; [apply archive_items_frames_empty, Hst|].
    split; [split; assumption | reflexivity].
Qed.

Lemma run_calls_lists_empty cs :
  forall s,
    lists_empty s -> Forall on_lists cs ->
    exists s',
      for_each cs run_call s = (Return tt, s') /\
      lists_empty s' /\ written s' = written s.
Proof.
  induction cs as [|c cs IH]; intros s Hs Hcs.
  - exists s. repeat split; apply Hs.
  - apply Forall_cons in Hcs as [Hc Hcs].
    destruct (run_call_lists_empty c s Hs Hc) as (s1 & Hrun & Hs1 & Hw1).
    destruct (IH s1 Hs1 Hcs) as (s' & Hrest & Hs' & Hw').
    exists s'. cbn [for_each].
    rewrite (bind_Return _ _ _ _ _ Hrun).
    split; [exact Hrest|]. split; [exact Hs' | congruence].
Qed.

(** C7: with no region stored, [extract_items_frames] returns with an empty
    crop list and [archive_items_frames] then returns having written no
    file.  On an object that has just been constructed, any sequence of calls
    of [extract_items_frames], [get_items_frames] and [archive_items_frames],
    in any order, returns call after call without an exception: the lists
    stay empty and no file is written. *)
Theorem out_of_order_calls_degrade_silently :
  (forall s : state,
     items (self s) = [] ->
     exists s1 s2,
       extract_items_frames s = (Return tt, s1) /\
       stored_crops s1 = Some [] /\
       archive_items_frames s1 = (Return tt, s2) /\
       written s2 = written s) /\
  (forall path folder dbg now decoded s0 s1 cs,
     __init__ path folder dbg now decoded s0 = (Return tt, s1) ->
     Forall on_lists cs ->
     exists s',
       for_each cs run_call s1 = (Return tt, s') /\
       items (self s') = [] /\
       stored_crops s' = Some [] /\
       written s' = written s0).
Proof.
  split.
  - intros s Hit.
    set (s1 := after_extract (nd_whole 0%nat []) s).
    assert (Hst : stored_crops s1 = Some []).
    { subst s1. rewrite stored_crops_after_extract, Hit. reflexivity. }
    exists s1, (set_logged (logged s1 ++ [LogArchiveItems 0]) s1).
    split; [apply extract_items_frames_nil, Hit|].
    split; [exact Hst|].
    split; [apply archive_items_frames_empty, Hst | reflexivity].
  - intros path folder dbg now decoded s0 s1 cs Hinit Hcs.
    apply init_returns in Hinit. subst s1.
    destruct (run_calls_lists_empty cs _
                (after_init_lists_empty path folder dbg now decoded s0) Hcs)
      as (s' & Hrun & [Hit Hst] & Hw).
    exists s'. repeat split; assumption.
Qed.

End EmptyLists.

(** ** The run prefix *)

Definition is_digit (c : ascii) : bool :=
  let n := nat_of_ascii c in ((48 <=? n) && (n <=? 57))%nat.

Fixpoint all_digits (s : string) : bool :=
  match s with
  | EmptyString => true
  | String c s' => is_digit c && all_digits s'
  end.

(** The number a string of decimal digits denotes, continuing from [acc]. *)
Fixpoint digits_value_from (acc : nat) (s : string) : nat :=
  match s with
  | EmptyString => acc
  | String c s' => digits_value_from (10 * acc + (nat_of_ascii c - 48)) s'
  end.

Definition digits_value (s : string) : nat := digits_value_from 0 s.

(** A string of exactly [w] decimal digits. *)
Definition digits_field (w : nat) (s : string) : Prop :=
  String.length s = w /\ all_digits s = true.

Lemma string_length_app (a b : string) :
  String.length (a ++ b) = (String.length a + String.length b)%nat.
Proof. induction a as [|c a IH]; cbn; [reflexivity | rewrite IH; reflexivity]. Qed.

Lemma all_digits_app (a b : string) :
  all_digits (a ++ b) = all_digits a && all_digits b.
Proof.
  induction a as [|c a IH]; cbn; [reflexivity|].
  rewrite IH, andb_assoc. reflexivity.
Qed.

Lemma digits_value_from_app (a b : string) :
  forall acc,
    digits_value_from acc (a ++ b) = digits_value_from (digits_value_from acc a) b.
Proof. induction a as [|c a IH]; intros acc; cbn; [reflexivity | apply IH]. Qed.

Lemma nat_of_digit_char d : (d < 10)%nat -> nat_of_ascii (digit_char d) = (48 + d)%nat.
Proof. intros Hd. unfold digit_char. apply nat_ascii_embedding. lia. Qed.

Lemma is_digit_digit_char d : (d < 10)%nat -> is_digit (digit_char d) = true.
Proof.
  intros Hd. unfold is_digit. rewrite nat_of_digit_char by exact Hd.
  apply andb_true_intro. split; apply Nat.leb_le; lia.
Qed.

Lemma zero_padded_field w : forall n, digits_field w (zero_padded w n).
Proof.
  induction w as [|w IH]; intros n; [split; reflexivity|].
  destruct (IH (n / 10)%nat) as [Hlen Hdig].
  cbn [zero_padded]. split.
  - rewrite string_length_app, Hlen. cbn [String.length]. lia.
  - rewrite all_digits_app, Hdig. cbn [all_digits andb].
    rewrite is_digit_digit_char; [reflexivity|].
    apply Nat.mod_upper_bound. lia.
Qed.

Lemma zero_padded_value w :
  forall n, digits_value (zero_padded w n) = (n mod 10 ^ w)%nat.
Proof.
  unfold digits_value.
  induction w as [|w IH]; intros n.
  - cbn [zero_padded digits_value_from]. change (10 ^ 0)%nat with 1%nat.
    rewrite Nat.mod_1_r. reflexivity.
  - cbn [zero_padded]. rewrite digits_value_from_app, IH.
    cbn [digits_value_from].
    rewrite nat_of_digit_char by (apply Nat.mod_upper_bound; lia).
    rewrite Nat.pow_succ_r', Nat.Div0.mod_mul_r. lia.
Qed.

Lemma zero_padded_reads_back w n :
  (n < 10 ^ w)%nat -> digits_value (zero_padded w n) = n.
Proof. intros Hn. rewrite zero_padded_value. apply Nat.mod_small, Hn. Qed.

(** ** Decimal numerals *)

(** [N] is the decimal numeral of [n]: a string of decimal digits, not
    empty, that denotes [n] and has no leading zero; the numeral of zero is
    ["0"]. *)
Definition decimal_numeral (n : nat) (N : string) : Prop :=
  N <> ""%string /\ all_digits N = true /\ digits_value N = n /\
  (N = "0"%string \/ forall rest, N <> String "0" rest).

Lemma all_digits_string_of_uint d :
  all_digits (NilEmpty.string_of_uint d) = true.
Proof.
  induction d; cbn [NilEmpty.string_of_uint all_digits];
    try rewrite IHd; reflexivity.
Qed.

Lemma digits_value_from_string_of_uint d :
  forall acc,
    digits_value_from acc (NilEmpty.string_of_uint d) = Nat.of_uint_acc d acc.
Proof.
  induction d; intros acc;
    cbn [NilEmpty.string_of_uint digits_value_from Nat.of_uint_acc];
    [reflexivity|..];
    rewrite IHd, Nat.tail_mul_spec; f_equal;
    simpl (nat_of_ascii _ - 48)%nat; lia.
Qed.

Lemma digits_value_string_of_uint d :
  digits_value (NilEmpty.string_of_uint d) = Nat.of_uint d.
Proof. apply digits_value_from_string_of_uint. Qed.

(** A normalised numeral is [0] or starts with a digit that is not zero. *)
Definition canonical (d : Decimal.uint) : Prop :=
  match d with
  | Decimal.Nil => False
  | Decimal.D0 d' => d' = Decimal.Nil
  | _ => True
  end.

Lemma unorm_canonical d : canonical (Decimal.unorm d).
Proof.
  induction d; try exact I; [reflexivity|].
  exact IHd.
Qed.

Lemma canonical_unorm d : canonical d -> Decimal.unorm d = d.
Proof. destruct d; cbn; try reflexivity; [tauto | intros ->; reflexivity]. Qed.

Lemma to_uint_canonical n : canonical (Nat.to_uint n).
Proof.
  pose proof (Unsigned.to_of (Nat.to_uint n)) as E.
  rewrite Unsigned.of_to in E. rewrite E. apply unorm_canonical.
Qed.

Lemma canonical_numeral d :
  canonical d ->
  decimal_numeral (Nat.of_uint d) (NilZero.string_of_uint d) /\
  NilZero.string_of_uint d = NilEmpty.string_of_uint d.
Proof.
  intros Hc.
  assert (E : NilZero.string_of_uint d = NilEmpty.string_of_uint d).
  { destruct d; try reflexivity. destruct Hc. }
  split; [|exact E]. rewrite E.
  split; [destruct d; [destruct Hc|..]; discriminate|].
  split; [apply all_digits_string_of_uint|].
  split; [apply digits_value_string_of_uint|].
  destruct d; try (right; intros rest; discriminate).
  left. cbn in Hc. subst d. reflexivity.
Qed.

(** [str n] is the decimal numeral of [n]. *)
Lemma str_decimal_numeral n : decimal_numeral n (str n).
Proof.
  destruct (canonical_numeral (Nat.to_uint n) (to_uint_canonical n)) as [Hn _].
  rewrite Unsigned.of_to in Hn. exact Hn.
Qed.

Lemma digits_string_of_uint N :
  all_digits N = true -> exists d, NilEmpty.string_of_uint d = N.
Proof.
  induction N as [|c N IH]; [exists Decimal.Nil; reflexivity|].
  cbn [all_digits]. intros Hd. apply andb_prop in Hd as [Hc HN].
  destruct (IH HN) as [d <-]. clear IH HN.
  destruct c as [[] [] [] [] [] [] [] []];
    vm_compute in Hc; try discriminate Hc; clear Hc.
  all: first
    [ exists (Decimal.D0 d); reflexivity | exists (Decimal.D1 d); reflexivity
    | exists (Decimal.D2 d); reflexivity | exists (Decimal.D3 d); reflexivity
    | exists (Decimal.D4 d); reflexivity | exists (Decimal.D5 d); reflexivity
    | exists (Decimal.D6 d); reflexivity | exists (Decimal.D7 d); reflexivity
    | exists (Decimal.D8 d); reflexivity | exists (Decimal.D9 d); reflexivity ].
Qed.

(** A number has one decimal numeral, the one [str] gives. *)
Lemma decimal_numeral_str n N : decimal_numeral n N -> N = str n.
Proof.
  intros (Hne & Hd & Hv & Hz).
  destruct (digits_string_of_uint N Hd) as [d <-].
  assert (Hc : canonical d).
  { destruct d; try exact I.
    - contradiction Hne. reflexivity.
    - destruct Hz as [Hz|Hz].
      + cbn in Hz. destruct d; [reflexivity|discriminate..].
      + contradiction (Hz (NilEmpty.string_of_uint d)). reflexivity. }
  rewrite digits_value_string_of_uint in Hv. subst n.
  unfold str. rewrite Unsigned.to_of, (canonical_unorm d Hc).
  symmetry. apply canonical_numeral, Hc.
Qed.

Lemma decimal_numeral_unique n N N' :
  decimal_numeral n N -> decimal_numeral n N' -> N = N'.
Proof.
  intros HN HN'. rewrite (decimal_numeral_str n N HN).
  symmetry. apply decimal_numeral_str, HN'.
Qed.

(** From 1000 to 9999 the decimal numeral is the field of four digits. *)
Lemma str_four_digits y :
  (1000 <= y < 10 * 1000)%nat -> str y = zero_padded 4 y.
Proof.
  intros Hy. symmetry. apply decimal_numeral_str.
  destruct (zero_padded_field 4 y) as [Hlen Hdig].
  split; [intros E; rewrite E in Hlen; discriminate Hlen|].
  split; [exact Hdig|].
  split.
  { apply zero_padded_reads_back. rewrite !Nat.pow_succ_r', Nat.pow_0_r. lia. }
  right. intros rest E.
  assert (Hq : exists q tl, (1 <= q < 10)%nat /\
            zero_padded 4 y = String (digit_char q) tl).
  { exists (y / 10 / 10 / 10 mod 10)%nat. eexists. split; [|reflexivity].
    rewrite !Nat.Div0.div_div. rewrite Nat.mod_small.
    - split; [apply Nat.div_le_lower_bound; lia|].
      apply Nat.Div0.div_lt_upper_bound. lia.
    - apply Nat.Div0.div_lt_upper_bound. lia. }
  destruct Hq as (q & tl & Hq & Etl). rewrite Etl in E.
  injection E as E _.
  apply (f_equal nat_of_ascii) in E.
  rewrite nat_of_digit_char in E by lia.
  change (nat_of_ascii "0") with 48%nat in E. lia.
Qed.






(** ** The archive methods *)

(** The pixels the crop record at [d] shows. *)
Definition crop_pixels (s : state) (d : loc) : option image :=
  c ← lookup_dict (heap s) d; pixels_of s (if_frame c).

Section Archive.
Context `{Cv2} `{Locale}.

(** The frame memory after the drawing step of [archive_with_items]: a
    rectangle per region, in list order, then the date and time. *)
Definition boxed (rs : list region) (px : image) : image :=
  fold_left (fun img '(x, y, w, h) =>
               rectangle img (x, y) (x + w, y + h) (0, 255, 0) 3) rs px.

Definition annotated (rs : list region) (now : datetime) (px : image) : image :=
  putText (boxed rs px) (strftime_c now) (5, 25) FONT_HERSHEY_SIMPLEX
          (8 # 10)%Q (0, 0, 0) 3.

Lemma archive_items_loop_run ds :
  forall pxs idx s,
    Forall2 (fun d px => crop_pixels s d = Some px) ds pxs ->
    (forall i px, pxs !! i = Some px ->
       imwrite (os_path_join (archive_folder (self s))
                  (images_prefix (self s) ++ "_item_" ++ str (idx + i) ++ ".jpg"))
               px = Some true) ->
    exists s',
      archive_items_loop ds idx s = (Return tt, s') /\
      self s' = self s /\ heap s' = heap s /\ previewed s' = previewed s /\
      written s'
      = written s ++
        imap (fun i px =>
                (os_path_join (archive_folder (self s))
                   (images_prefix (self s) ++ "_item_" ++ str (idx + i) ++ ".jpg"),
                 px)) pxs.
Proof.
  induction ds as [|d ds IH]; intros pxs idx s Hpx Hw.
  - inversion Hpx; subst. exists s. cbn. rewrite app_nil_r. repeat split.
  - inversion Hpx as [|? px ? pxs' Hd Hrest]; subst.
    unfold crop_pixels in Hd.
    destruct (lookup_dict (heap s) d) as [c|] eqn:Hc; [|discriminate].
    cbn in Hd.
    pose proof (Hw 0%nat px eq_refl) as Hw0. rewrite Nat.add_0_r in Hw0.
    set (path := os_path_join (archive_folder (self s))
                   (images_prefix (self s) ++ "_item_" ++ str idx ++ ".jpg")) in *.
    set (s1 := set_written (written s ++ [(path, px)])
                 (set_logged (logged s ++
                    [LogArchiveItem (images_prefix (self s) ++ "_item_"
                                       ++ str idx ++ ".jpg")]) s)).
    destruct (IH pxs' (S idx) s1) as (s' & Hloop & Hself & Hheap & Hpv & Hwr).
    { exact Hrest. }
    { intros i px' Hi. specialize (Hw (S i) px' Hi).
      rewrite Nat.add_succ_r in Hw. exact Hw. }
    exists s'. split.
    { cbn [archive_items_loop].
      erewrite bind_Return; [|apply load_dict_Some, Hc].
      erewrite bind_Return; [|apply nd_read_Some, Hd].
      erewrite bind_Return; [|reflexivity].
      erewrite bind_Return; [|reflexivity].
      erewrite bind_Return; cycle 1.
      { unfold cv2_imwrite. cbn [set_logged self]. fold path.
        rewrite Hw0. reflexivity. }
      exact Hloop. }
    split; [exact Hself|]. split; [exact Hheap|]. split; [exact Hpv|].
    rewrite Hwr. subst s1. cbn [set_written set_logged written self].
    rewrite <- app_assoc. f_equal. rewrite imap_cons. cbn [app].
    rewrite Nat.add_0_r. fold path. f_equal.
    apply imap_ext. intros i px' _. cbn. rewrite Nat.add_succ_r. reflexivity.
Qed.

Lemma archive_items_frames_run s ds pxs :
  stored_crops s = Some ds ->
  Forall2 (fun d px => crop_pixels s d = Some px) ds pxs ->
  (forall i px, pxs !! i = Some px ->
     imwrite (os_path_join (archive_folder (self s))
                (images_prefix (self s) ++ "_item_" ++ str i ++ ".jpg"))
             px = Some true) ->
  exists s',
    archive_items_frames s = (Return tt, s') /\
    self s' = self s /\ heap s' = heap s /\ previewed s' = previewed s /\
    written s'
    = written s ++
      imap (fun i px =>
              (os_path_join (archive_folder (self s))
                 (images_prefix (self s) ++ "_item_" ++ str i ++ ".jpg"),
               px)) pxs.
Proof.
  intros Hst Hpx Hw.
  destruct (archive_items_loop_run ds pxs 0%nat
              (set_logged (logged s ++ [LogArchiveItems (length ds)]) s) Hpx Hw)
    as (s' & Hloop & Hself & Hheap & Hpv & Hwr).
  exists s'. split.
  { unfold archive_items_frames.
    erewrite bind_Return; [|reflexivity].
    erewrite bind_Return; [|apply load_list_Some, Hst].
    erewrite bind_Return; [|reflexivity].
    exact Hloop. }
  repeat split; assumption.
Qed.

Lemma draw_boxes_run rs :
  forall s l px,
    frame (self s) = Some l ->
    lookup_array (heap s) l = Some px ->
    for_each rs (fun '(x, y, w, h) =>
        draw_on_frame (fun px =>
          rectangle px (x, y) (x + w, y + h) (0, 255, 0) 3)) s
    = (Return tt, set_heap (<[l := ObjArray (boxed rs px)]> (heap s)) s).
Proof.
  induction rs as [|[[[x y] w] h] rs IH]; intros s l px Hf Hpx.
  - change (boxed [] px) with px. apply lookup_array_lookup in Hpx.
    unfold loc in *. rewrite (list_insert_id _ _ _ Hpx).
    destruct s; reflexivity.
  - cbn [for_each].
    erewrite bind_Return; [|apply (draw_on_frame_loaded s l px _ Hf Hpx)].
    assert (Hlt : (l < length (heap s))%nat).
    { apply lookup_array_lookup in Hpx. apply (lookup_lt_Some _ _ _ Hpx). }
    erewrite IH; [| exact Hf |].
    + cbn [set_heap heap]. unfold loc in *. rewrite list_insert_insert_eq.
      destruct s; reflexivity.
    + apply lookup_array_lookup. cbn [set_heap heap].
      apply list_lookup_insert_eq, Hlt.
Qed.

Lemma archive_with_items_run now s l px :
  frame (self s) = Some l ->
  lookup_array (heap s) l = Some px ->
  imwrite (os_path_join (archive_folder (self s))
             (images_prefix (self s) ++ "_full.jpg"))
          (annotated (items (self s)) now px) = Some true ->
  exists s',
    archive_with_items now s = (Return tt, s') /\
    self s' = self s /\
    frame_pixels s' = Some (annotated (items (self s)) now px) /\
    written s'
    = written s ++
      [(os_path_join (archive_folder (self s))
          (images_prefix (self s) ++ "_full.jpg"),
        annotated (items (self s)) now px)].
Proof.
  intros Hf Hpx Hw.
  assert (Hlt : (l < length (heap s))%nat).
  { apply lookup_array_lookup in Hpx. apply (lookup_lt_Some _ _ _ Hpx). }
  set (final := annotated (items (self s)) now px) in *.
  set (path := os_path_join (archive_folder (self s))
                 (images_prefix (self s) ++ "_full.jpg")) in *.
  set (s1 := set_logged (logged s ++ [LogArchiveFull]) s).
  set (s2 := set_heap (<[l := ObjArray (boxed (items (self s)) px)]> (heap s1)) s1).
  set (s3 := set_heap (<[l := ObjArray final]> (heap s2)) s2).
  set (s4 := if debug (self s)
             then set_previewed (previewed s3 ++ [final]) s3 else s3).
  set (s5 := set_logged (logged s4 ++
               [LogArchiveFile (images_prefix (self s) ++ "_full.jpg")]) s4).
  assert (H3 : lookup_array (heap s3) l = Some final).
  { apply lookup_array_lookup. subst s3 s2 s1. cbn [set_heap set_logged heap].
    apply list_lookup_insert_eq. rewrite length_insert. exact Hlt. }
  assert (Hself4 : self s4 = self s).
  { subst s4. destruct (debug (self s)); reflexivity. }
  assert (Hheap4 : heap s4 = heap s3).
  { subst s4. destruct (debug (self s)); reflexivity. }
  assert (Hwr4 : written s4 = written s).
  { subst s4. destruct (debug (self s)); reflexivity. }
  exists (set_written (written s5 ++ [(path, final)]) s5).
  split.
  { unfold archive_with_items.
    erewrite bind_Return; [|reflexivity].
    erewrite bind_Return; [|reflexivity].
    erewrite bind_Return; [|apply (draw_boxes_run _ s1 l px Hf Hpx)].
    erewrite bind_Return; cycle 1.
    { apply (draw_on_frame_loaded s2 l (boxed (items (self s)) px)); [exact Hf|].
      apply lookup_array_lookup. subst s2 s1. cbn [set_heap set_logged heap].
      apply list_lookup_insert_eq, Hlt. }
    erewrite bind_Return; [|reflexivity].
    change (self (set_heap _ s2)) with (self s).
    erewrite (bind_Return _ _ _ _ s4); cycle 1.
    { subst s4. destruct (debug (self s)); [|reflexivity].
      unfold imshow_frame.
      erewrite bind_Return; [|reflexivity].
      change (frame (self _)) with (frame (self s)). rewrite Hf.
      erewrite bind_Return; [|apply load_array_Some, H3].
      reflexivity. }
    erewrite bind_Return; [|reflexivity].
    rewrite Hf.
    erewrite bind_Return; cycle 1.
    { apply load_array_Some. change (heap (set_logged _ s4)) with (heap s4).
      rewrite Hheap4. exact H3. }
    unfold cv2_imwrite. fold path. fold final in Hw |- *. rewrite Hw.
    reflexivity. }
  split; [exact Hself4|].
  split.
  { unfold frame_pixels.
    change (self (set_written _ s5)) with (self s4).
    change (heap (set_written _ s5)) with (heap s4).
    rewrite Hself4, Hf, Hheap4. exact H3. }
  change (written (set_written _ s5)) with (written s4 ++ [(path, final)]).
  rewrite Hwr4. reflexivity.
Qed.

End Archive.

(** The file name [<prefix>_item_<N>.jpg] of crop [i]: [N] is the decimal
    numeral of [i]. *)
Definition item_name (prefix : string) (i : nat) (name : string) : Prop :=
  exists N, decimal_numeral i N /\
            name = (prefix ++ "_item_" ++ N ++ ".jpg")%string.

Lemma item_name_str prefix i :
  item_name prefix i (prefix ++ "_item_" ++ str i ++ ".jpg").
Proof. exists (str i). split; [apply str_decimal_numeral | reflexivity]. Qed.


Section ArchiveClaims.
Context `{Cv2} `{Locale}.


End ArchiveClaims.

(** ** Sample runs *)

Section SampleRuns.
#[local] Existing Instance Pen.cv2.
#[local] Existing Instance Pen.locale.

Example strftime_clock :
  strftime_Ymd_HMS_f Pen.clock = "20170309-140507-000042".
Proof. vm_compute. reflexivity. Qed.

Example str_samples : str 0 = "0" /\ str 7 = "7" /\ str 12 = "12".
Proof. repeat split. Qed.

Example os_path_join_samples :
  os_path_join "/tmp" "a.jpg" = "/tmp/a.jpg" /\
  os_path_join "/tmp/" "a.jpg" = "/tmp/a.jpg" /\
  os_path_join "" "a.jpg" = "a.jpg" /\
  os_path_join "/tmp" "/a.jpg" = "/a.jpg".
Proof. repeat split. Qed.

(** A slice that reaches past the array is clamped to it, and a negative
    bound counts from the end. *)
Example np_slice2_clamps :
  np_slice2 Pen.sample 3 9 (-2) 9 = [[Bgr 3 3 6; Bgr 3 4 7]].
Proof. vm_compute. reflexivity. Qed.

(** A region that ends before it starts gives an empty crop. *)
Example np_slice2_negative_height : np_slice2 Pen.sample 2 1 0 3 = [].
Proof. vm_compute. reflexivity. Qed.

(** Without a decoded image the first region makes [extract_items_frames]
    raise, and the stored crop list is not replaced. *)
Example extract_without_frame_raises :
  let s := snd ((__init__ "in.gif" "/tmp/" false Pen.clock None;;
                 find_items (Return Pen.two_faces)) Pen.blank) in
  fst (extract_items_frames s) = Raise TypeError /\
  items_frames (self (snd (extract_items_frames s))) = items_frames (self s).
Proof. vm_compute. split; reflexivity. Qed.

(** The crops are views: a label drawn on the frame shows in a crop that was
    not converted, and does not show in one that was. *)
Example label_shows_in_view :
  crop_pixels Pen.cropped 3%nat
  = Some [[Bgr 1 1 2; Bgr 1 2 3]; [Bgr 2 1 3; Bgr 2 2 4]] /\
  crop_pixels (snd (add_label "a" (-39) 1 Pen.cropped)) 3%nat
  = Some [[Bgr 0 255 0; Bgr 1 2 3]; [Bgr 2 1 3; Bgr 2 2 4]] /\
  crop_pixels (snd ((get_items_frames true;; add_label "a" (-39) 1) Pen.cropped))
              3%nat
  = Some [[Gray 1; Gray 2]; [Gray 2; Gray 3]].
Proof. vm_compute. repeat split. Qed.

(** A second [get_items_frames(True)] hands single-channel pixels to the
    conversion, which this stand-in refuses as OpenCV does. *)
Example second_conversion_raises :
  fst ((get_items_frames true;; get_items_frames true) Pen.cropped)
  = Raise Cv2Error.
Proof. vm_compute. reflexivity. Qed.

(** Detection after cropping: the crops of the two old regions stay while
    one region is stored. *)
Example crops_stale_after_detection :
  let s := snd (find_items (Return [Pen.square 0 0 1 1]) Pen.cropped) in
  items (self s) = [(0, 0, 1, 1)] /\
  stored_crops s = Some [3%nat; 4%nat].
Proof. vm_compute. split; reflexivity. Qed.

Example archive_run :
  written (snd ((archive_items_frames;; archive_with_items Pen.clock) Pen.cropped))
  = [("/tmp/20170309-140507-000042_item_0.jpg",
      [[Bgr 1 1 2; Bgr 1 2 3]; [Bgr 2 1 3; Bgr 2 2 4]]);
     ("/tmp/20170309-140507-000042_item_1.jpg",
      [[Bgr 0 2 2; Bgr 0 3 3; Bgr 0 4 4]; [Bgr 1 2 3; Bgr 1 3 4; Bgr 1 4 5]]);
     ("/tmp/20170309-140507-000042_full.jpg",
      [[Bgr 0 0 0; Bgr 0 1 1; Bgr 0 255 0; Bgr 0 3 3; Bgr 0 4 4];
       [Bgr 1 0 1; Bgr 0 255 0; Bgr 1 2 3; Bgr 1 3 4; Bgr 1 4 5];
       [Bgr 2 0 2; Bgr 2 1 3; Bgr 2 2 4; Bgr 2 3 5; Bgr 2 4 6];
       [Bgr 3 0 3; Bgr 3 1 4; Bgr 3 2 5; Bgr 0 255 0; Bgr 3 4 7]])].
Proof. vm_compute. reflexivity. Qed.

End SampleRuns.

(** ** The claims on a concrete run *)

Section Witnesses.
#[local] Existing Instance Pen.cv2.
#[local] Existing Instance Pen.locale.

Lemma extract_one_crop_per_region_witness :
  is_Some (frame_array Pen.detected) /\
  exists s' ds,
    extract_items_frames Pen.detected = (Return tt, s') /\
    stored_crops s' = Some ds /\ length ds = 2%nat.
Proof.
  split; [eexists; reflexivity|].
  destruct (proj1 extract_one_crop_per_region Pen.detected)
    as (s' & ds & E & Hst & Hlen & _); [left; eexists; reflexivity|].
  exists s', ds. repeat split; assumption.
Defined.

Lemma extract_crop_is_region_slice_witness :
  frame (self Pen.detected) = Some 1%nat /\
  lookup_array (heap Pen.detected) 1%nat = Some Pen.sample /\
  exists s' ds,
    extract_items_frames Pen.detected = (Return tt, s') /\
    stored_crops s' = Some ds /\ length ds = 2%nat.
Proof.
  split; [reflexivity|]. split; [reflexivity|].
  destruct (extract_crop_is_region_slice Pen.detected 1%nat Pen.sample
              eq_refl eq_refl) as (s' & ds & E & Hst & Hlen & _).
  exists s', ds. repeat split; assumption.
Defined.

Lemma two_faces_have_vertices :
  Forall (fun f => (3 <= length (vertices (bounds f)))%nat) Pen.two_faces.
Proof. repeat constructor. Defined.

Lemma find_items_regions_witness :
  Forall (fun f => (3 <= length (vertices (bounds f)))%nat) Pen.two_faces /\
  exists s',
    find_items (Return Pen.two_faces) Pen.constructed = (Return tt, s') /\
    length (items (self s')) = 2%nat.
Proof.
  split; [exact two_faces_have_vertices|].
  destruct (find_items_regions Pen.constructed Pen.two_faces
              two_faces_have_vertices) as (s' & E & Hall & _).
  exists s'. split; [exact E|].
  symmetry. exact (Forall2_length _ _ _ Hall).
Defined.

Lemma add_label_position_witness :
  frame (self Pen.cropped) = Some 1%nat /\
  lookup_array (heap Pen.cropped) 1%nat = Some Pen.sample /\
  fst (add_label "a" 0 50 Pen.cropped) = Return tt /\
  frame_pixels (snd (add_label "a" 0 50 Pen.cropped))
  = Some (putText Pen.sample "a" (40, 45) FONT_HERSHEY_SIMPLEX (12 # 10)%Q
                  (0, 255, 0) 4).
Proof.
  split; [reflexivity|]. split; [reflexivity|].
  destruct (add_label_position Pen.cropped 1%nat Pen.sample eq_refl eq_refl
              "a" 0) as (Hhi & _).
  rewrite (Hhi 50 eq_refl). split; reflexivity.
Defined.

Lemma cropped_crops_distinct : NoDup [3%nat; 4%nat].
Proof. apply (bool_decide_unpack _). vm_compute. exact I. Defined.

Lemma cropped_crops_convertible :
  Forall (crop_convertible Pen.cropped) [3%nat; 4%nat].
Proof.
  repeat constructor; eexists _, _, _;
    (split; [reflexivity | split; reflexivity]).
Defined.

Lemma get_items_frames_true_in_place_witness :
  stored_crops Pen.cropped = Some [3%nat; 4%nat] /\
  NoDup [3%nat; 4%nat] /\
  Forall (crop_convertible Pen.cropped) [3%nat; 4%nat] /\
  exists l' s',
    get_items_frames true Pen.cropped = (Return l', s') /\
    lookup_list (heap s') l' = Some [3%nat; 4%nat].
Proof.
  split; [reflexivity|]. split; [exact cropped_crops_distinct|].
  split; [exact cropped_crops_convertible|].
  destruct (get_items_frames_true_in_place Pen.cropped [3%nat; 4%nat] eq_refl
              cropped_crops_distinct cropped_crops_convertible)
    as (l' & s' & E & Hl & _).
  exists l', s'. split; assumption.
Defined.

Lemma get_items_frames_true_same_records_witness :
  stored_crops Pen.cropped = Some [3%nat; 4%nat] /\
  NoDup [3%nat; 4%nat] /\
  Forall (crop_convertible Pen.cropped) [3%nat; 4%nat] /\
  exists l' s',
    get_items_frames true Pen.cropped = (Return l', s') /\
    stored_crops s' = Some [3%nat; 4%nat].
Proof.
  split; [reflexivity|]. split; [exact cropped_crops_distinct|].
  split; [exact cropped_crops_convertible|].
  destruct (get_items_frames_true_same_records Pen.cropped [3%nat; 4%nat]
              eq_refl cropped_crops_distinct cropped_crops_convertible)
    as (l' & s' & returned & E & _ & _ & _ & _ & _ & Hst & _).
  exists l', s'. split; assumption.
Defined.


Lemma out_of_order_calls_degrade_silently_witness :
  items (self Pen.constructed) = [] /\
  exists s1 s2,
    extract_items_frames Pen.constructed = (Return tt, s1) /\
    stored_crops s1 = Some [] /\
    archive_items_frames s1 = (Return tt, s2) /\
    written s2 = [].
Proof.
  split; [reflexivity|].
  exact (proj1 out_of_order_calls_degrade_silently Pen.constructed eq_refl).
Defined.

End Witnesses.

(** * Beyond the claims: failures, aliasing and invariants *)

(** ** Failures of [find_items] and [extract_items_frames] *)

Lemma for_each_app {A} (l1 l2 : list A) (body : A -> M unit) (s : state) :
  for_each (l1 ++ l2) body s = (for_each l1 body;; for_each l2 body) s.
Proof.
  revert s. induction l1 as [|a l1 IH]; intros s; [reflexivity|].
  cbn [app for_each]. unfold mbind, M_bind, bind in *.
  destruct (body a s) as [[[]|e] s1]; [apply IH | reflexivity].
Qed.

Lemma bind_raises {A B} (m : M A) (k : A -> M B) s e s' :
  m s = (Raise e, s') -> (m ≫= k) s = (Raise e, s').
Proof. intros E. unfold mbind, M_bind, bind. rewrite E. reflexivity. Qed.

(** A face without vertex 0 or vertex 2. *)
Definition lacks_corner (f : face) : Prop :=
  (length (vertices (bounds f)) < 3)%nat.

Section Failures.
Context `{Cv2} `{Locale}.

Lemma find_items_loop_lacks_corner faces :
  forall acc s,
    Exists lacks_corner faces ->
    find_items_loop faces acc s = (Raise IndexError, s).
Proof.
  induction faces as [|f faces IH]; intros acc s Hex.
  - inversion Hex.
  - cbn [find_items_loop]. unfold vertex_at, mbind at 1 2, M_bind, bind.
    destruct (vertices (bounds f) !! 0%nat) as [v0|] eqn:E0; [|reflexivity].
    cbn. destruct (vertices (bounds f) !! 2%nat) as [v2|] eqn:E2;
      [|reflexivity].
    cbn. apply IH. apply Exists_cons in Hex as [Hf|Hex]; [|exact Hex].
    apply lookup_lt_Some in E2. unfold lacks_corner in Hf. lia.
Qed.

(** X1: when the service call fails, or when some face of the answer lacks
    vertex 0 or vertex 2, [find_items] raises (the service's exception, or
    [IndexError]) before it assigns [self.items]: the regions stored before
    are still stored, no partial list replaces them, and only the log line
    of the search was added. *)
Theorem find_items_failure_keeps_items :
  (forall e s,
     find_items (Raise e) s
     = (Raise e, set_logged (logged s ++ [LogSearch]) s)) /\
  (forall faces s,
     Exists lacks_corner faces ->
     find_items (Return faces) s
     = (Raise IndexError, set_logged (logged s ++ [LogSearch]) s) /\
     items (self (snd (find_items (Return faces) s))) = items (self s)).
Proof.
  split; [reflexivity|].
  intros faces s Hex.
  assert (E : find_items (Return faces) s
              = (Raise IndexError, set_logged (logged s ++ [LogSearch]) s)).
  { unfold find_items.
    erewrite bind_Return; [|reflexivity].
    erewrite bind_Return; [|reflexivity].
    unfold mbind, M_bind, bind.
    rewrite (find_items_loop_lacks_corner faces [] _ Hex). reflexivity. }
  split; [exact E | rewrite E; reflexivity].
Qed.

Lemma frame_getitem_None s y0 y1 x0 x1 :
  frame (self s) = None ->
  frame_getitem y0 y1 x0 x1 s = (Raise TypeError, s).
Proof.
  intros Hf. unfold frame_getitem.
  erewrite bind_Return; [|reflexivity]. rewrite Hf. reflexivity.
Qed.

Lemma frame_getitem_pure s y0 y1 x0 x1 :
  snd (frame_getitem y0 y1 x0 x1 s) = s.
Proof.
  unfold frame_getitem, mbind, M_bind, bind, get_state.
  destruct (frame (self s)) as [l|]; [|reflexivity].
  unfold load_array. destruct (heap s !! l) as [[]|]; reflexivity.
Qed.

(** What [extract_items_frames] does when [self.frame] is [None] and a
    region is stored. *)
Lemma extract_items_frames_no_frame s r rs :
  frame (self s) = None ->
  items (self s) = r :: rs ->
  extract_items_frames s
  = (Raise TypeError,
     set_heap (heap s ++ [ObjList []])
       (set_logged (logged s ++ [LogExtract (S (length rs))]) s)).
Proof.
  intros Hf Hit. unfold extract_items_frames.
  erewrite bind_Return; [|reflexivity].
  erewrite bind_Return; [|rewrite Hit; reflexivity].
  erewrite bind_Return; [|reflexivity].
  rewrite Hit. destruct r as [[[x y] w] h]. cbn [for_each].
  do 3 (erewrite bind_raises; [reflexivity|]).
  apply frame_getitem_None. exact Hf.
Qed.

(** X2: when the image was not decoded and at least one region is stored,
    [extract_items_frames] raises [TypeError] at the first region.  The
    object is unchanged: [self.items_frames] still names the crop list it
    named before, with the same records, and no file is written. *)
Theorem extract_without_frame_keeps_crops (s : state)
    (Hf : frame (self s) = None)
    (Hit : items (self s) <> []) :
  exists s',
    extract_items_frames s = (Raise TypeError, s') /\
    self s' = self s /\
    written s' = written s /\
    (forall l o, heap s !! l = Some o -> heap s' !! l = Some o) /\
    (forall ds, stored_crops s = Some ds -> stored_crops s' = Some ds).
Proof.
  destruct (items (self s)) as [|r rs] eqn:E; [contradiction|].
  eexists. split; [apply (extract_items_frames_no_frame s r rs Hf E)|].
  split; [reflexivity|]. split; [reflexivity|].
  assert (Hup : forall l o, heap s !! l = Some o ->
                  (heap s ++ [ObjList []]) !! l = Some o).
  { intros l o El. apply lookup_app_l_Some, El. }
  split; [exact Hup|].
  intros ds Hds. unfold stored_crops in *. cbn [set_heap set_logged self heap].
  apply lookup_list_lookup, Hup, lookup_list_lookup, Hds.
Qed.

(** The loop of [extract_items_frames] touches the new list and appends new
    objects; it leaves the objects below the new list as they are, whatever
    the state and whether it returns or raises. *)
Lemma extract_loop_extends (rs : list region) :
  forall s h0 acc ds,
    heap s = h0 ++ ObjList acc :: ds ->
    exists r s' acc' ds',
      for_each rs (fun '(x, y, w, h) =>
          item_frame ← frame_getitem y (y + h) x (x + w);
          d ← alloc (ObjDict (mk_item_frame item_frame x y w h));
          list_append (length h0) d) s = (r, s') /\
      heap s' = h0 ++ ObjList acc' :: ds' /\
      self s' = self s /\ logged s' = logged s /\
      written s' = written s /\ previewed s' = previewed s.
Proof.
  induction rs as [|[[[x y] w] h] rs IH]; intros s h0 acc ds Hh.
  - exists (Return tt), s, acc, ds.
    split; [reflexivity|]. split; [exact Hh|]. repeat split.
  - cbn [for_each].
    destruct (frame_getitem y (y + h) x (x + w) s) as [[a|e] s1] eqn:Eg.
    + assert (s1 = s).
      { rewrite <- (frame_getitem_pure s y (y + h) x (x + w)), Eg.
        reflexivity. }
      subst s1.
      set (st := set_heap
                   (<[length h0 := ObjList (acc ++ [length (heap s)])]>
                      (heap s ++ [ObjDict (mk_item_frame a x y w h)])) s).
      assert (Hbody :
        (item_frame ← frame_getitem y (y + h) x (x + w);
         d ← alloc (ObjDict (mk_item_frame item_frame x y w h));
         list_append (length h0) d) s = (Return tt, st)).
      { erewrite bind_Return; [|exact Eg].
        erewrite bind_Return; [|reflexivity].
        unfold list_append.
        erewrite bind_Return; cycle 1.
        { apply load_list_Some, lookup_list_lookup. cbn [set_heap heap].
          rewrite Hh, <- app_assoc. cbn [app].
          apply list_lookup_middle. reflexivity. }
        reflexivity. }
      destruct (IH st h0 (acc ++ [length (heap s)])
                  (ds ++ [ObjDict (mk_item_frame a x y w h)]))
        as (r & s' & acc' & ds' & Hrun & Hh' & Hself & Hlog & Hwr & Hpv).
      { subst st. cbn [set_heap heap]. rewrite Hh, <- app_assoc. cbn [app].
        unfold loc. rewrite insert_app_r_alt by lia.
        replace (length h0 - length h0)%nat with 0%nat by lia.
        reflexivity. }
      exists r, s', acc', ds'.
      split; [rewrite (bind_Return _ _ _ _ _ Hbody); exact Hrun|].
      split; [exact Hh'|]. repeat split; assumption.
    + assert (s1 = s).
      { rewrite <- (frame_getitem_pure s y (y + h) x (x + w)), Eg.
        reflexivity. }
      subst s1. exists (Raise e), s, acc, ds.
      split; [|split; [exact Hh | repeat split]].
      erewrite bind_raises; [reflexivity|].
      erewrite bind_raises; [reflexivity | exact Eg].
Qed.

(** X3: in every state, and whether it returns or raises,
    [extract_items_frames] changes no object that exists at the call: the
    frame memory keeps its pixels, crop records built earlier keep their
    fields, and a list obtained earlier from [get_items_frames] still holds
    the records it held.  The region list and the files are as before. *)
Theorem extract_keeps_existing_objects :
  forall s : state,
    let s' := snd (extract_items_frames s) in
    (forall l o, heap s !! l = Some o -> heap s' !! l = Some o) /\
    (forall px, frame_pixels s = Some px -> frame_pixels s' = Some px) /\
    items (self s') = items (self s) /\
    frame (self s') = frame (self s) /\
    written s' = written s.
Proof.
  intros s s'.
  assert (Hmain : (forall l o, heap s !! l = Some o -> heap s' !! l = Some o) /\
                  items (self s') = items (self s) /\
                  frame (self s') = frame (self s) /\
                  written s' = written s).
  { subst s'. unfold extract_items_frames.
    erewrite bind_Return; [|reflexivity].
    erewrite bind_Return; [|reflexivity].
    erewrite bind_Return; [|reflexivity].
    destruct (extract_loop_extends (items (self s))
                (set_heap (heap s ++ [ObjList []])
                   (set_logged (logged s ++ [LogExtract (length (items (self s)))]) s))
                (heap s) [] [] eq_refl)
      as (r & s1 & acc' & ds' & Hrun & Hh & Hself & _ & Hwr & _).
    cbn [set_heap set_logged heap self written] in *.
    assert (Hup : forall l o, heap s !! l = Some o -> heap s1 !! l = Some o).
    { intros l o El. rewrite Hh. apply lookup_app_l_Some, El. }
    destruct r as [[]|e].
    - erewrite bind_Return; [|exact Hrun]. cbn.
      rewrite Hself, Hwr. auto.
    - erewrite bind_raises; [|exact Hrun]. cbn [snd].
      rewrite Hself, Hwr. auto. }
  destruct Hmain as (Hup & Hit & Hf & Hwr).
  split; [exact Hup|]. split; [|auto].
  intros px Hpx. unfold frame_pixels in *. rewrite Hf.
  destruct (frame (self s)) as [l|]; [|discriminate]. cbn in *.
  apply lookup_array_lookup, Hup, lookup_array_lookup, Hpx.
Qed.

End Failures.

(** ** Regions that do not lie within the image *)

Lemma adjust_index_nonneg n i :
  0 <= i -> adjust_index n i = Nat.min (Z.to_nat i) n.
Proof.
  intros Hi. unfold adjust_index.
  destruct (i <? 0) eqn:E; [apply Z.ltb_lt in E; lia|]. lia.
Qed.

Lemma py_slice_nonneg {A} (l : list A) a b :
  0 <= a -> 0 <= b ->
  py_slice (length l) a (a + b) l = take (Z.to_nat b) (drop (Z.to_nat a) l).
Proof.
  intros Ha Hb. unfold py_slice.
  rewrite !adjust_index_nonneg by lia.
  destruct (Nat.le_gt_cases (length l) (Z.to_nat a)) as [Hge|Hlt].
  - rewrite Nat.min_r by lia. rewrite !drop_ge by lia.
    rewrite !take_nil. reflexivity.
  - rewrite (Nat.min_l (Z.to_nat a)) by lia.
    destruct (Nat.le_gt_cases (Z.to_nat (a + b)) (length l)) as [Hin|Hout].
    + rewrite Nat.min_l by lia. f_equal. lia.
    + rewrite Nat.min_r by lia.
      rewrite !take_ge; [reflexivity | |]; rewrite length_drop; lia.
Qed.

(** A slice with non-negative origin and size, on an array of [W]-pixel
    rows: the part of the rectangle that lies in the array. *)
Lemma np_slice2_clamped px W x y w h :
  rectangular W px ->
  0 <= x -> 0 <= y -> 0 <= w -> 0 <= h ->
  let c := np_slice2 px y (y + h) x (x + w) in
  height c = Nat.min (Z.to_nat h) (height px - Z.to_nat y) /\
  rectangular (Nat.min (Z.to_nat w) (W - Z.to_nat x)) c /\
  forall i j, (i < Z.to_nat h)%nat -> (j < Z.to_nat w)%nat ->
    pixel_at c i j = pixel_at px (Z.to_nat y + i) (Z.to_nat x + j).
Proof.
  intros Hrect Hx Hy Hw Hh c.
  assert (Hc : c = map (fun row => take (Z.to_nat w) (drop (Z.to_nat x) row))
                       (take (Z.to_nat h) (drop (Z.to_nat y) px))).
  { subst c. unfold np_slice2, height.
    rewrite (py_slice_nonneg px) by lia.
    apply map_ext_in. intros row Hrow. apply list_elem_of_In in Hrow.
    apply (subseteq_take (Z.to_nat h)), (subseteq_drop (Z.to_nat y)) in Hrow.
    unfold rectangular in Hrect. rewrite Forall_forall in Hrect.
    pose proof (Hrect _ Hrow) as Hlen.
    assert (Hwd : width px = length row).
    { destruct px as [|row0 px']; [inversion Hrow|].
      cbn [width]. rewrite Hlen. apply Hrect. left. }
    rewrite Hwd. apply py_slice_nonneg; lia. }
  rewrite Hc. clear Hc c. unfold height in *.
  split; [|split].
  - rewrite length_map, length_take, length_drop. reflexivity.
  - unfold rectangular in *. rewrite Forall_forall in *.
    intros row Hrow.
    apply list_elem_of_In, in_map_iff in Hrow as (r0 & <- & Hr0).
    apply list_elem_of_In in Hr0.
    apply (subseteq_take (Z.to_nat h)), (subseteq_drop (Z.to_nat y)) in Hr0.
    rewrite length_take, length_drop, (Hrect _ Hr0). reflexivity.
  - intros i j Hi Hj. unfold pixel_at, image in *.
    rewrite lookup_map, lookup_take_lt, lookup_drop by lia.
    destruct (px !! (Z.to_nat y + i)%nat) as [row|]; [|reflexivity].
    cbn. rewrite lookup_take_lt, lookup_drop by lia. reflexivity.
Qed.

(** A slice whose column range starts left of the array and ends inside it
    has no columns; one whose row range starts above the array and ends
    inside it has no rows: the negative bound counts from the far edge. *)
Lemma np_slice2_negative_origin px x y w h :
  (x < 0 -> 0 <= x + w -> w <= Z.of_nat (width px) ->
   rectangular 0 (np_slice2 px y (y + h) x (x + w))) /\
  (y < 0 -> 0 <= y + h -> h <= Z.of_nat (height px) ->
   np_slice2 px y (y + h) x (x + w) = []).
Proof.
  split.
  - intros Hx Hxw Hw. unfold np_slice2, rectangular.
    apply Forall_forall. intros row Hrow.
    apply list_elem_of_In, in_map_iff in Hrow as (r0 & <- & _).
    unfold py_slice.
    assert (E : (adjust_index (width px) (x + w)
                 - adjust_index (width px) x)%nat = 0%nat).
    { unfold adjust_index.
      destruct (x <? 0) eqn:E1; [|apply Z.ltb_ge in E1; lia].
      destruct (x + w <? 0) eqn:E2; [apply Z.ltb_lt in E2; lia|]. lia. }
    rewrite E. reflexivity.
  - intros Hy Hyh Hh. unfold np_slice2, py_slice.
    assert (E : (adjust_index (height px) (y + h)
                 - adjust_index (height px) y)%nat = 0%nat).
    { unfold adjust_index.
      destruct (y <? 0) eqn:E1; [|apply Z.ltb_ge in E1; lia].
      destruct (y + h <? 0) eqn:E2; [apply Z.ltb_lt in E2; lia|]. lia. }
    rewrite E. reflexivity.
Qed.

Section Edges.
Context `{Cv2} `{Locale}.

(** The pixels of the i-th crop that [extract_items_frames] builds. *)
Lemma extract_crop_pixels s l px i x y w h :
  frame (self s) = Some l ->
  lookup_array (heap s) l = Some px ->
  items (self s) !! i = Some (x, y, w, h) ->
  exists s' ds d,
    extract_items_frames s = (Return tt, s') /\
    stored_crops s' = Some ds /\
    ds !! i = Some d /\
    crop_pixels s' d = Some (np_slice2 px y (y + h) x (x + w)).
Proof.
  intros Hf Hpx Hi.
  assert (Hfa : frame_array s = Some (nd_whole l px)).
  { unfold frame_array. rewrite Hf. cbn. rewrite Hpx. reflexivity. }
  exists (after_extract (nd_whole l px) s),
         (seq (S (length (heap s))) (length (items (self s)))),
         (S (length (heap s)) + i)%nat.
  split; [apply extract_items_frames_loaded, Hfa|].
  split; [apply stored_crops_after_extract|].
  split; [apply lookup_seq_lt, (lookup_lt_Some _ _ _ Hi)|].
  unfold crop_pixels.
  rewrite (lookup_dict_after_extract _ _ _ _ Hi). cbn [mbind option_bind].
  unfold pixels_of. cbn [crop_record if_frame nd_slice nd_base nd_whole].
  rewrite (lookup_array_after_extract _ _ _ _ Hpx). reflexivity.
Qed.

(** X4: no bound is checked when cropping.  For a region with non-negative
    origin and size on a [W]-pixel wide image, the crop is the part of the
    rectangle that lies in the image: it has [min(h, H - y)] rows of
    [min(w, W - x)] pixels (none when the origin is beyond the edge), and
    its pixel at row [i], column [j] is the image's pixel at row [y+i],
    column [x+j]. *)
Theorem extract_clamps_region (s : state) (l : loc) (px : image) (W : nat)
    (i : nat) (x y w h : Z)
    (Hf : frame (self s) = Some l)
    (Hpx : lookup_array (heap s) l = Some px)
    (Hi : items (self s) !! i = Some (x, y, w, h))
    (Hrect : rectangular W px)
    (Hx : 0 <= x) (Hy : 0 <= y) (Hw : 0 <= w) (Hh : 0 <= h) :
  exists s' ds d crop,
    extract_items_frames s = (Return tt, s') /\
    stored_crops s' = Some ds /\ ds !! i = Some d /\
    crop_pixels s' d = Some crop /\
    height crop = Nat.min (Z.to_nat h) (height px - Z.to_nat y) /\
    rectangular (Nat.min (Z.to_nat w) (W - Z.to_nat x)) crop /\
    forall i j, (i < Z.to_nat h)%nat -> (j < Z.to_nat w)%nat ->
      pixel_at crop i j = pixel_at px (Z.to_nat y + i) (Z.to_nat x + j).
Proof.
  destruct (extract_crop_pixels s l px i x y w h Hf Hpx Hi)
    as (s' & ds & d & E & Hst & Hd & Hcrop).
  exists s', ds, d, (np_slice2 px y (y + h) x (x + w)).
  do 4 (split; [assumption|]).
  exact (np_slice2_clamped px W x y w h Hrect Hx Hy Hw Hh).
Qed.

(** X5: a region that starts left of the image and ends inside it (with a
    width of at most the image's) gives a crop without columns, and one that
    starts above the image and ends inside it gives a crop without rows: the
    part of the face that is in the image is not cropped. *)
Theorem extract_negative_origin_empty (s : state) (l : loc) (px : image)
    (i : nat) (x y w h : Z)
    (Hf : frame (self s) = Some l)
    (Hpx : lookup_array (heap s) l = Some px)
    (Hi : items (self s) !! i = Some (x, y, w, h)) :
  exists s' ds d crop,
    extract_items_frames s = (Return tt, s') /\
    stored_crops s' = Some ds /\ ds !! i = Some d /\
    crop_pixels s' d = Some crop /\
    (x < 0 -> 0 <= x + w -> w <= Z.of_nat (width px) -> rectangular 0 crop) /\
    (y < 0 -> 0 <= y + h -> h <= Z.of_nat (height px) -> crop = []).
Proof.
  destruct (extract_crop_pixels s l px i x y w h Hf Hpx Hi)
    as (s' & ds & d & E & Hst & Hd & Hcrop).
  exists s', ds, d, (np_slice2 px y (y + h) x (x + w)).
  do 4 (split; [assumption|]).
  exact (np_slice2_negative_origin px x y w h).
Qed.

End Edges.

(** ** Drawing on the frame *)

(** Only the pixel memory of the frame may differ: the object's fields are
    the same and so is every object of the store that is not the one
    [self.frame] names. *)
Definition only_frame_memory (s s' : state) : Prop :=
  self s' = self s /\
  length (heap s') = length (heap s) /\
  forall l, frame (self s) <> Some l -> heap s' !! l = heap s !! l.

Lemma only_frame_memory_refl s : only_frame_memory s s.
Proof. repeat split. Qed.

Lemma only_frame_memory_trans s1 s2 s3 :
  only_frame_memory s1 s2 -> only_frame_memory s2 s3 ->
  only_frame_memory s1 s3.
Proof.
  intros (Hs1 & Hl1 & Hh1) (Hs2 & Hl2 & Hh2).
  split; [congruence|]. split; [congruence|].
  intros l Hl. rewrite Hh2, Hh1; [reflexivity | exact Hl |].
  rewrite Hs1. exact Hl.
Qed.

Section Drawing.
Context `{Cv2} `{Locale}.

Lemma draw_on_frame_only_frame_memory draw :
  stable only_frame_memory (draw_on_frame draw).
Proof.
  intros s. unfold draw_on_frame, mbind, M_bind, bind, get_state.
  destruct (frame (self s)) as [l|] eqn:Hf; [|apply only_frame_memory_refl].
  unfold load_array.
  destruct (heap s !! l) as [[px|c|xs]|]; try apply only_frame_memory_refl.
  cbn. split; [reflexivity|]. split; [apply length_insert|].
  intros l' Hl'. rewrite Hf in Hl'.
  apply list_lookup_insert_ne. congruence.
Qed.

Lemma draw_on_frame_None draw s :
  frame (self s) = None -> draw_on_frame draw s = (Return tt, s).
Proof.
  intros Hf. unfold draw_on_frame.
  erewrite bind_Return; [|reflexivity]. rewrite Hf. reflexivity.
Qed.

Lemma for_each_returns_unchanged {A} (l : list A) (body : A -> M unit) s :
  (forall a, body a s = (Return tt, s)) -> for_each l body s = (Return tt, s).
Proof.
  intros Hb. induction l as [|a l IH]; [reflexivity|].
  cbn [for_each]. erewrite bind_Return; [exact IH | apply Hb].
Qed.

Lemma add_label_written text x y s :
  written (snd (add_label text x y s)) = written s.
Proof.
  unfold add_label, draw_on_frame, mbind, M_bind, bind, get_state.
  destruct (frame (self s)) as [l|]; [|reflexivity].
  unfold load_array. destruct (heap s !! l) as [[]|]; reflexivity.
Qed.

Lemma archive_with_items_only_frame_memory now :
  stable only_frame_memory (archive_with_items now).
Proof.
  pose proof only_frame_memory_refl as Hr.
  pose proof only_frame_memory_trans as Ht.
  assert (Hlog : forall r, stable only_frame_memory (logging_info r)).
  { intros r. apply stable_logging_info. intros s l. repeat split. }
  unfold archive_with_items.
  apply stable_bind; [exact Ht | apply Hlog | intros _].
  apply stable_bind; [exact Ht | apply stable_get_state, Hr | intros s0].
  apply stable_bind; [exact Ht | | intros _].
  { apply stable_for_each; [exact Hr | exact Ht |].
    intros [[[x y] w] h]. apply draw_on_frame_only_frame_memory. }
  apply stable_bind; [exact Ht | apply draw_on_frame_only_frame_memory | intros _].
  apply stable_bind; [exact Ht | apply stable_get_state, Hr | intros s1].
  apply stable_bind; [exact Ht | | intros _].
  { destruct (debug (self s1)); [|apply stable_mret, Hr].
    unfold imshow_frame.
    apply stable_bind; [exact Ht | apply stable_get_state, Hr | intros s2].
    destruct (frame (self s2)); [|apply stable_raise, Hr].
    apply stable_bind; [exact Ht | apply stable_load_array, Hr | intros px].
    apply stable_modify. intros s. repeat split. }
  apply stable_bind; [exact Ht | apply Hlog | intros _].
  destruct (frame (self s1)); [|apply stable_raise, Hr].
  apply stable_bind; [exact Ht | apply stable_load_array, Hr | intros px].
  unfold cv2_imwrite. destruct (imwrite _ px) as [[]|].
  - apply stable_modify. intros s. repeat split.
  - apply stable_ret, Hr.
  - apply stable_raise, Hr.
Qed.

(** X6: [add_label] and [archive_with_items] draw in place and change
    nothing else of the object: whether they return or raise, the fields of
    the object, the lists and every crop record are as before, and the only
    object of the store that can differ is the pixel memory of the frame.
    [add_label] writes no file. *)
Theorem drawing_changes_only_frame_memory :
  forall s : state,
    (forall text x y,
       only_frame_memory s (snd (add_label text x y s)) /\
       written (snd (add_label text x y s)) = written s) /\
    (forall now, only_frame_memory s (snd (archive_with_items now s))).
Proof.
  intros s. split.
  - intros text x y. split; [|apply add_label_written].
    apply draw_on_frame_only_frame_memory.
  - intros now. apply archive_with_items_only_frame_memory.
Qed.

(** X7: without a decoded image nothing is drawn and no drawing call
    raises.  [add_label] returns and leaves the state as it was: the label is
    lost without a sign.  [archive_with_items] runs both its drawing steps
    without effect and raises only where the missing frame is handed on:
    with the preview off it logs both its lines and raises in [cv2.imwrite],
    with the preview on it raises in [cv2.imshow] after its first line.
    Either way no file is written and the object is as before. *)
Theorem drawing_without_frame (s : state)
    (Hf : frame (self s) = None) :
  (forall text x y, add_label text x y s = (Return tt, s)) /\
  (forall now,
     archive_with_items now s
     = (Raise Cv2Error,
        set_logged
          (logged s ++
           if debug (self s) then [LogArchiveFull]
           else [LogArchiveFull;
                 LogArchiveFile (images_prefix (self s) ++ "_full.jpg")])
          s)).
Proof.
  split.
  - intros text x y. apply draw_on_frame_None, Hf.
  - intros now. unfold archive_with_items.
    set (s1 := set_logged (logged s ++ [LogArchiveFull]) s).
    assert (Hf1 : frame (self s1) = None) by exact Hf.
    erewrite bind_Return; [|reflexivity]. fold s1.
    erewrite bind_Return; [|reflexivity].
    erewrite bind_Return;
      [|apply for_each_returns_unchanged; intros [[[x y] w] h];
        apply draw_on_frame_None, Hf1].
    erewrite bind_Return; [|apply draw_on_frame_None, Hf1].
    erewrite bind_Return; [|reflexivity].
    change (debug (self s1)) with (debug (self s)).
    destruct (debug (self s)).
    + erewrite bind_raises; [reflexivity|].
      unfold imshow_frame. erewrite bind_Return; [|reflexivity].
      rewrite Hf1. reflexivity.
    + erewrite bind_Return; [|reflexivity].
      erewrite bind_Return; [|reflexivity].
      rewrite Hf1. unfold raise, s1. cbn [set_logged logged self].
      rewrite <- app_assoc. reflexivity.
Qed.

(** X8: a crop is a view of the frame.  After [extract_items_frames], a
    label drawn on the frame by [add_label] is seen through every crop that
    was not converted: the i-th crop then shows its window of the frame
    memory as drawn, not the pixels it showed when it was cut. *)
Theorem label_shows_through_crops (s : state) (l : loc) (px : image)
    (i : nat) (x y w h : Z) (text : string) (tx ty : Z)
    (Hf : frame (self s) = Some l)
    (Hpx : lookup_array (heap s) l = Some px)
    (Hi : items (self s) !! i = Some (x, y, w, h)) :
  let drawn :=
    putText px text (tx + 40, if 11 <? ty then ty - 5 else ty)
            FONT_HERSHEY_SIMPLEX (12 # 10)%Q (0, 255, 0) 4 in
  exists s1 s2 ds d,
    extract_items_frames s = (Return tt, s1) /\
    stored_crops s1 = Some ds /\ ds !! i = Some d /\
    crop_pixels s1 d = Some (np_slice2 px y (y + h) x (x + w)) /\
    add_label text tx ty s1 = (Return tt, s2) /\
    frame_pixels s2 = Some drawn /\
    crop_pixels s2 d
    = Some (window (nd_slice (nd_whole l px) y (y + h) x (x + w)) drawn).
Proof.
  intros drawn.
  assert (Hfa : frame_array s = Some (nd_whole l px)).
  { unfold frame_array. rewrite Hf. cbn. rewrite Hpx. reflexivity. }
  set (s1 := after_extract (nd_whole l px) s).
  set (d := (S (length (heap s)) + i)%nat).
  assert (Hl : (l < length (heap s))%nat).
  { apply lookup_array_lookup in Hpx. apply (lookup_lt_Some _ _ _ Hpx). }
  assert (Hl1 : (l < length (heap s1))%nat).
  { subst s1. unfold after_extract. cbn [heap]. rewrite length_app. lia. }
  assert (Hd1 : lookup_dict (heap s1) d
                = Some (crop_record (nd_whole l px) (x, y, w, h))).
  { apply lookup_dict_after_extract, Hi. }
  assert (Hpx1 : lookup_array (heap s1) l = Some px).
  { apply lookup_array_after_extract, Hpx. }
  exists s1, (set_heap (<[l := ObjArray drawn]> (heap s1)) s1),
         (seq (S (length (heap s))) (length (items (self s)))), d.
  split; [apply extract_items_frames_loaded, Hfa|].
  split; [apply stored_crops_after_extract|].
  split; [apply lookup_seq_lt, (lookup_lt_Some _ _ _ Hi)|].
  split.
  { unfold crop_pixels. rewrite Hd1. cbn [mbind option_bind].
    unfold pixels_of. cbn [crop_record if_frame nd_slice nd_base nd_whole].
    rewrite Hpx1. reflexivity. }
  split.
  { unfold add_label.
    rewrite (draw_on_frame_loaded s1 l px _ Hf Hpx1). reflexivity. }
  split.
  { unfold frame_pixels. cbn [set_heap self heap].
    change (frame (self s1)) with (frame (self s)). rewrite Hf. cbn.
    apply lookup_array_lookup, list_lookup_insert_eq, Hl1. }
  unfold crop_pixels. cbn [set_heap heap].
  assert (Hd2 : lookup_dict (<[l := ObjArray drawn]> (heap s1)) d
                = Some (crop_record (nd_whole l px) (x, y, w, h))).
  { apply lookup_dict_lookup. rewrite list_lookup_insert_ne by (subst d; lia).
    apply lookup_dict_lookup, Hd1. }
  rewrite Hd2. cbn [mbind option_bind].
  unfold pixels_of. cbn [crop_record if_frame nd_slice nd_base nd_whole set_heap heap].
  assert (Hnew : lookup_array (<[l := ObjArray drawn]> (heap s1)) l = Some drawn).
  { apply lookup_array_lookup, list_lookup_insert_eq, Hl1. }
  rewrite Hnew. reflexivity.
Qed.

End Drawing.

(** ** Conversion that stops, and converted crops *)

Section Conversion.
Context `{Cv2} `{Locale}.

(** The loop of [get_items_frames(True)] over convertible records [pre],
    started right after the new list object was made. *)
Lemma gray_prefix_run s pre :
  NoDup pre ->
  Forall (crop_convertible s) pre ->
  exists s1,
    for_each pre (gray_body (length (heap s)))
             (set_heap (heap s ++ [ObjList []]) s) = (Return tt, s1) /\
    self s1 = self s /\ logged s1 = logged s /\
    written s1 = written s /\ previewed s1 = previewed s /\
    length (heap s1) = (S (length (heap s)) + length pre)%nat /\
    lookup_list (heap s1) (length (heap s)) = Some pre /\
    (forall l o, l ∉ pre -> heap s !! l = Some o -> heap s1 !! l = Some o) /\
    (forall i d, pre !! i = Some d ->
       exists c px g,
         lookup_dict (heap s) d = Some c /\
         pixels_of s (if_frame c) = Some px /\
         cvtColor px COLOR_BGR2GRAY = Some g /\
         lookup_dict (heap s1) d
         = Some (set_if_frame (nd_whole (S (length (heap s)) + i)%nat g) c) /\
         lookup_array (heap s1) (S (length (heap s)) + i)%nat = Some g).
Proof.
  intros Hnd Hconv.
  set (n := length (heap s)).
  set (s0 := set_heap (heap s ++ [ObjList []]) s).
  assert (Hup : forall l o, heap s !! l = Some o -> heap s0 !! l = Some o).
  { intros l o E. subst s0. cbn [set_heap heap]. apply lookup_app_l_Some, E. }
  assert (Hlst0 : lookup_list (heap s0) n = Some []).
  { apply lookup_list_lookup. subst s0 n. cbn [set_heap heap].
    apply list_lookup_middle. reflexivity. }
  assert (Hpix : forall c px, pixels_of s (if_frame c) = Some px ->
                   pixels_of s0 (if_frame c) = Some px).
  { intros c px Hpx. unfold pixels_of in *.
    destruct (lookup_array (heap s) (nd_base (if_frame c))) as [m|] eqn:Em;
      [|discriminate].
    apply lookup_array_lookup, Hup, lookup_array_lookup in Em.
    rewrite Em. exact Hpx. }
  assert (Hconv0 : Forall (crop_convertible s0) pre).
  { rewrite Forall_forall in *. intros d Hd.
    destruct (Hconv d Hd) as (c & px & g & Hc & Hpx & Hg).
    exists c, px, g. split; [|split; [apply Hpix, Hpx | exact Hg]].
    apply lookup_dict_lookup, Hup, lookup_dict_lookup, Hc. }
  destruct (gray_loop n pre s0 [] Hlst0 Hnd Hconv0)
    as (s1 & Hloop & Hself & Hlog & Hwr & Hpv & Hlen & Hlst' & Hframe & Hrec).
  assert (Hlen0 : length (heap s0) = S n).
  { subst s0 n. cbn [set_heap heap]. rewrite length_app. cbn. lia. }
  exists s1.
  split; [exact Hloop|]. split; [exact Hself|]. split; [exact Hlog|].
  split; [exact Hwr|]. split; [exact Hpv|].
  split; [rewrite Hlen, Hlen0; reflexivity|].
  split; [exact Hlst'|].
  split.
  { intros l o Hnotin El.
    pose proof (lookup_lt_Some _ _ _ El) as Hlt. fold n in Hlt.
    rewrite Hframe; [apply Hup, El | rewrite Hlen0; lia | exact Hnotin | lia]. }
  intros i d Hi.
  destruct (Hrec i d Hi) as (c0 & px0 & g0 & Hc0 & Hpx0 & Hg0 & Hc' & Ha').
  assert (Hin : d ∈ pre) by (apply list_elem_of_lookup; eauto).
  rewrite Forall_forall in Hconv.
  destruct (Hconv _ Hin) as (c & px & g & Hc & Hpx & Hg).
  assert (Ec : c0 = c).
  { apply lookup_dict_lookup, Hup, lookup_dict_lookup in Hc. congruence. }
  subst c0.
  assert (Epx : px0 = px).
  { apply Hpix in Hpx. congruence. }
  subst px0.
  exists c, px, g0. rewrite Hlen0 in Hc', Ha'.
  repeat split; assumption.
Qed.

(** [get_items_frames(True)] when the record [d], after the convertible
    records [pre], shows pixels that OpenCV refuses. *)
Lemma get_items_frames_true_stops s pre d post c px :
  stored_crops s = Some (pre ++ d :: post) ->
  NoDup (pre ++ d :: post) ->
  Forall (crop_convertible s) pre ->
  lookup_dict (heap s) d = Some c ->
  pixels_of s (if_frame c) = Some px ->
  cvtColor px COLOR_BGR2GRAY = None ->
  exists s1,
    get_items_frames true s = (Raise Cv2Error, s1) /\
    self s1 = self s /\ written s1 = written s /\
    length (heap s1) = (S (length (heap s)) + length pre)%nat /\
    (forall l o, l ∉ pre -> heap s !! l = Some o -> heap s1 !! l = Some o) /\
    (forall i d, pre !! i = Some d ->
       exists c px g,
         lookup_dict (heap s) d = Some c /\
         pixels_of s (if_frame c) = Some px /\
         cvtColor px COLOR_BGR2GRAY = Some g /\
         lookup_dict (heap s1) d
         = Some (set_if_frame (nd_whole (S (length (heap s)) + i)%nat g) c) /\
         lookup_array (heap s1) (S (length (heap s)) + i)%nat = Some g).
Proof.
  intros Hst Hnd Hconv Hc Hpx Hg.
  apply NoDup_app in Hnd as (Hnd_pre & Hdisj & Hnd_post).
  assert (Hd_pre : d ∉ pre).
  { intros Hin. apply (Hdisj d Hin). left. }
  destruct (gray_prefix_run s pre Hnd_pre Hconv)
    as (s1 & Hloop & Hself & Hlog & Hwr & Hpv & Hlen & Hlst & Hkeep & Hrec).
  exists s1.
  split.
  { unfold get_items_frames. cbn [negb].
    erewrite bind_Return; [|reflexivity].
    erewrite bind_Return; [|reflexivity].
    erewrite bind_Return; cycle 1.
    { apply load_list_Some. cbn [set_heap heap self].
      unfold stored_crops in Hst.
      apply lookup_list_lookup, lookup_app_l_Some, lookup_list_lookup, Hst. }
    erewrite bind_raises; [reflexivity|].
    change (for_each (pre ++ d :: post) _)
      with (for_each (pre ++ d :: post) (gray_body (length (heap s)))).
    rewrite for_each_app.
    erewrite bind_Return; [|exact Hloop].
    cbn [for_each]. erewrite bind_raises; [reflexivity|].
    unfold gray_body.
    erewrite bind_Return; cycle 1.
    { apply load_dict_Some, lookup_dict_lookup, Hkeep;
        [exact Hd_pre | apply lookup_dict_lookup, Hc]. }
    erewrite bind_Return; cycle 1.
    { apply nd_read_Some. unfold pixels_of in *.
      destruct (lookup_array (heap s) (nd_base (if_frame c))) as [m|] eqn:Em;
        [|discriminate].
      apply lookup_array_lookup in Em.
      assert (Hb : nd_base (if_frame c) ∉ pre).
      { intros Hin. rewrite Forall_forall in Hconv.
        destruct (Hconv _ Hin) as (c0 & _ & _ & Hc0 & _).
        apply lookup_dict_lookup in Hc0. congruence. }
      apply (Hkeep _ _ Hb), lookup_array_lookup in Em.
      rewrite Em. exact Hpx. }
    rewrite Hg. reflexivity. }
  split; [exact Hself|]. split; [exact Hwr|]. split; [exact Hlen|].
  split; [exact Hkeep | exact Hrec].
Qed.

(** X9: [get_items_frames(True)] is not all-or-nothing.  When OpenCV
    refuses the pixels of a stored record, the call raises there: the
    records before it in the list have already been converted in place, the
    refused record and those after it are unchanged, and the stored list is
    the same list. *)
Theorem get_items_frames_true_partial (s : state) (pre post : list loc)
    (d : loc) (c : item_frame) (px : image)
    (Hst : stored_crops s = Some (pre ++ d :: post))
    (Hnd : NoDup (pre ++ d :: post))
    (Hconv : Forall (crop_convertible s) pre)
    (Hc : lookup_dict (heap s) d = Some c)
    (Hpx : pixels_of s (if_frame c) = Some px)
    (Hg : cvtColor px COLOR_BGR2GRAY = None) :
  exists s1,
    get_items_frames true s = (Raise Cv2Error, s1) /\
    stored_crops s1 = Some (pre ++ d :: post) /\
    (forall d0, d0 ∈ pre ->
       exists c0 c1 px0 g,
         lookup_dict (heap s) d0 = Some c0 /\
         pixels_of s (if_frame c0) = Some px0 /\
         cvtColor px0 COLOR_BGR2GRAY = Some g /\
         lookup_dict (heap s1) d0 = Some c1 /\
         pixels_of s1 (if_frame c1) = Some (window (if_frame c1) g)) /\
    (forall d0 c0 px0, d0 ∈ d :: post ->
       lookup_dict (heap s) d0 = Some c0 ->
       pixels_of s (if_frame c0) = Some px0 ->
       lookup_dict (heap s1) d0 = Some c0 /\
       pixels_of s1 (if_frame c0) = Some px0).
Proof.
  destruct (get_items_frames_true_stops s pre d post c px
              Hst Hnd Hconv Hc Hpx Hg)
    as (s1 & Hrun & Hself & _ & _ & Hkeep & Hrec).
  assert (Hkind : forall l, l ∈ pre -> exists c0, heap s !! l = Some (ObjDict c0)).
  { intros l Hin. rewrite Forall_forall in Hconv.
    destruct (Hconv _ Hin) as (c0 & _ & _ & Hc0 & _).
    exists c0. apply lookup_dict_lookup, Hc0. }
  exists s1. split; [exact Hrun|].
  split.
  { unfold stored_crops in *. rewrite Hself.
    apply lookup_list_lookup. apply lookup_list_lookup in Hst.
    apply Hkeep; [|exact Hst].
    intros Hin. destruct (Hkind _ Hin) as [c0 Hc0]. congruence. }
  split.
  - intros d0 Hd0. apply list_elem_of_lookup in Hd0 as [i Hi].
    destruct (Hrec i d0 Hi) as (c0 & px0 & g & Hc0 & Hpx0 & Hg0 & Hc1 & Ha).
    exists c0, (set_if_frame (nd_whole (S (length (heap s)) + i)%nat g) c0),
           px0, g.
    do 4 (split; [assumption|]).
    unfold pixels_of. cbn [set_if_frame if_frame nd_whole nd_base].
    rewrite Ha. reflexivity.
  - intros d0 c0 px0 Hd0 Hc0 Hpx0.
    assert (Hnot : d0 ∉ pre).
    { apply NoDup_app in Hnd as (_ & Hdisj & _).
      intros Hin. exact (Hdisj d0 Hin Hd0). }
    split.
    + apply lookup_dict_lookup, Hkeep; [exact Hnot|].
      apply lookup_dict_lookup, Hc0.
    + unfold pixels_of in *.
      destruct (lookup_array (heap s) (nd_base (if_frame c0))) as [m|] eqn:Em;
        [|discriminate].
      apply lookup_array_lookup in Em.
      assert (Hb : nd_base (if_frame c0) ∉ pre).
      { intros Hin. destruct (Hkind _ Hin) as [c1 Hc1]. congruence. }
      apply (Hkeep _ _ Hb), lookup_array_lookup in Em.
      rewrite Em. exact Hpx0.
Qed.

(** [get_items_frames(True)] when every stored record converts, with what
    it leaves untouched. *)
Lemma get_items_frames_true_effect s ds :
  stored_crops s = Some ds ->
  NoDup ds ->
  Forall (crop_convertible s) ds ->
  exists s1,
    get_items_frames true s = (Return (length (heap s)), s1) /\
    self s1 = self s /\ written s1 = written s /\
    length (heap s1) = (S (length (heap s)) + length ds)%nat /\
    lookup_list (heap s1) (length (heap s)) = Some ds /\
    (forall l o, l ∉ ds -> heap s !! l = Some o -> heap s1 !! l = Some o) /\
    (forall i d, ds !! i = Some d ->
       exists c px g,
         lookup_dict (heap s) d = Some c /\
         pixels_of s (if_frame c) = Some px /\
         cvtColor px COLOR_BGR2GRAY = Some g /\
         lookup_dict (heap s1) d
         = Some (set_if_frame (nd_whole (S (length (heap s)) + i)%nat g) c) /\
         lookup_array (heap s1) (S (length (heap s)) + i)%nat = Some g).
Proof.
  intros Hst Hnd Hconv.
  destruct (gray_prefix_run s ds Hnd Hconv)
    as (s1 & Hloop & Hself & Hlog & Hwr & Hpv & Hlen & Hlst & Hkeep & Hrec).
  exists s1. split.
  { unfold get_items_frames. cbn [negb].
    erewrite bind_Return; [|reflexivity].
    erewrite bind_Return; [|reflexivity].
    erewrite bind_Return; cycle 1.
    { apply load_list_Some. cbn [set_heap heap self].
      unfold stored_crops in Hst.
      apply lookup_list_lookup, lookup_app_l_Some, lookup_list_lookup, Hst. }
    change (for_each ds _) with (for_each ds (gray_body (length (heap s)))).
    erewrite bind_Return; [|exact Hloop]. reflexivity. }
  repeat (split; [assumption|]). exact Hrec.
Qed.

(** X10: a converted crop owns its pixels.  After [get_items_frames(True)],
    a label drawn on the frame by [add_label] changes the frame memory and
    none of the stored crops: each shows the pixels it showed before the
    label was drawn. *)
Theorem converted_crops_keep_pixels (s : state) (ds : list loc) (l : loc)
    (px : image) (text : string) (tx ty : Z)
    (Hst : stored_crops s = Some ds)
    (Hnd : NoDup ds)
    (Hconv : Forall (crop_convertible s) ds)
    (Hf : frame (self s) = Some l)
    (Hpx : lookup_array (heap s) l = Some px) :
  let drawn :=
    putText px text (tx + 40, if 11 <? ty then ty - 5 else ty)
            FONT_HERSHEY_SIMPLEX (12 # 10)%Q (0, 255, 0) 4 in
  exists l' s1 s2,
    get_items_frames true s = (Return l', s1) /\
    add_label text tx ty s1 = (Return tt, s2) /\
    frame_pixels s2 = Some drawn /\
    forall d, d ∈ ds ->
      exists shown,
        crop_pixels s1 d = Some shown /\ crop_pixels s2 d = Some shown.
Proof.
  intros drawn.
  destruct (get_items_frames_true_effect s ds Hst Hnd Hconv)
    as (s1 & Hrun & Hself & _ & Hlen & _ & Hkeep & Hrec).
  assert (Hl : (l < length (heap s))%nat).
  { apply lookup_array_lookup in Hpx. apply (lookup_lt_Some _ _ _ Hpx). }
  assert (Hl_ds : l ∉ ds).
  { intros Hin. rewrite Forall_forall in Hconv.
    destruct (Hconv _ Hin) as (c0 & _ & _ & Hc0 & _).
    apply lookup_dict_lookup in Hc0. apply lookup_array_lookup in Hpx.
    congruence. }
  assert (Hf1 : frame (self s1) = Some l) by (rewrite Hself; exact Hf).
  assert (Hpx1 : lookup_array (heap s1) l = Some px).
  { apply lookup_array_lookup, (Hkeep _ _ Hl_ds), lookup_array_lookup, Hpx. }
  assert (Hl1 : (l < length (heap s1))%nat) by (rewrite Hlen; lia).
  exists (length (heap s)), s1, (set_heap (<[l := ObjArray drawn]> (heap s1)) s1).
  split; [exact Hrun|].
  split.
  { unfold add_label.
    rewrite (draw_on_frame_loaded s1 l px _ Hf1 Hpx1). reflexivity. }
  split.
  { unfold frame_pixels. cbn [set_heap self heap]. rewrite Hf1. cbn.
    apply lookup_array_lookup, list_lookup_insert_eq, Hl1. }
  intros d Hd. apply list_elem_of_lookup in Hd as [i Hi].
  destruct (Hrec i d Hi) as (c & px0 & g & Hc & _ & _ & Hc1 & Ha).
  assert (Hd_l : d <> l).
  { intros ->. apply lookup_dict_lookup in Hc.
    apply lookup_array_lookup in Hpx. congruence. }
  exists (window (nd_whole (S (length (heap s)) + i)%nat g) g).
  split.
  - unfold crop_pixels. rewrite Hc1. cbn [mbind option_bind].
    unfold pixels_of. cbn [set_if_frame if_frame nd_whole nd_base].
    rewrite Ha. reflexivity.
  - unfold crop_pixels. cbn [set_heap heap].
    assert (Hc2 : lookup_dict (<[l := ObjArray drawn]> (heap s1)) d
                  = Some (set_if_frame
                            (nd_whole (S (length (heap s)) + i)%nat g) c)).
    { apply lookup_dict_lookup. rewrite list_lookup_insert_ne by congruence.
      apply lookup_dict_lookup, Hc1. }
    rewrite Hc2. cbn [mbind option_bind].
    unfold pixels_of. cbn [set_if_frame if_frame nd_whole nd_base set_heap heap].
    assert (Ha2 : lookup_array (<[l := ObjArray drawn]> (heap s1))
                    (S (length (heap s)) + i)%nat = Some g).
    { apply lookup_array_lookup. rewrite list_lookup_insert_ne by lia.
      apply lookup_array_lookup, Ha. }
    rewrite Ha2. reflexivity.
Qed.

End Conversion.

(** ** Writes that are refused, writes that raise *)

(** The path [archive_items_frames] gives to the crop at list position
    [idx], and the path [archive_with_items] gives to the full frame. *)
Definition item_path (o : FaceDetection) (idx : nat) : string :=
  os_path_join (archive_folder o)
               (images_prefix o ++ "_item_" ++ str idx ++ ".jpg").

Definition full_path (o : FaceDetection) : string :=
  os_path_join (archive_folder o) (images_prefix o ++ "_full.jpg").

(** Only outputs were added: the object and the store are the same, and the
    files written before are still the first files written. *)
Definition only_outputs (s s' : state) : Prop :=
  self s' = self s /\ heap s' = heap s /\ previewed s' = previewed s /\
  exists files, written s' = written s ++ files.

Lemma only_outputs_refl s : only_outputs s s.
Proof. repeat split. exists []. rewrite app_nil_r. reflexivity. Qed.

Lemma only_outputs_trans s1 s2 s3 :
  only_outputs s1 s2 -> only_outputs s2 s3 -> only_outputs s1 s3.
Proof.
  intros (Ha1 & Hb1 & Hc1 & f1 & Hw1) (Ha2 & Hb2 & Hc2 & f2 & Hw2).
  repeat split; try congruence.
  exists (f1 ++ f2). rewrite Hw2, Hw1, app_assoc. reflexivity.
Qed.

Section Writes.
Context `{Cv2} `{Locale}.

(** The files OpenCV wrote among the requests [reqs]. *)
Definition written_of (reqs : list (string * image)) : list (string * image) :=
  filter (fun e => imwrite e.1 e.2 = Some true) reqs.

Lemma archive_items_frames_only_outputs :
  stable only_outputs archive_items_frames.
Proof.
  pose proof only_outputs_refl as Hr. pose proof only_outputs_trans as Ht.
  assert (Hlog : forall r, stable only_outputs (logging_info r)).
  { intros r. apply stable_logging_info. intros s l.
    repeat split. exists []. cbn. rewrite app_nil_r. reflexivity. }
  assert (Hloop : forall stored idx,
            stable only_outputs (archive_items_loop stored idx)).
  { induction stored as [|d stored IH]; intros idx; cbn [archive_items_loop].
    - apply stable_ret, Hr.
    - apply stable_bind; [exact Ht | apply stable_load_dict, Hr | intros c].
      apply stable_bind; [exact Ht | | intros px].
      { apply stable_nd_read; [exact Hr | exact Ht]. }
      apply stable_bind; [exact Ht | apply stable_get_state, Hr | intros s0].
      apply stable_bind; [exact Ht | apply Hlog | intros _].
      apply stable_bind; [exact Ht | | intros _; apply IH].
      unfold cv2_imwrite. destruct (imwrite _ px) as [[]|].
      + apply stable_modify. intros s. repeat split. eexists. reflexivity.
      + apply stable_ret, Hr.
      + apply stable_raise, Hr. }
  unfold archive_items_frames.
  apply stable_bind; [exact Ht | apply stable_get_state, Hr | intros s0].
  apply stable_bind; [exact Ht | apply stable_load_list, Hr | intros stored].
  apply stable_bind; [exact Ht | apply Hlog | intros _].
  apply Hloop.
Qed.

(** X11: [archive_items_frames] only reads the object.  Whether it returns
    or raises, the fields of the object, the lists, the crop records and all
    pixel memory are as before, and the files written earlier are still the
    first files written. *)
Theorem archive_items_frames_read_only :
  forall s : state,
    let s' := snd (archive_items_frames s) in
    self s' = self s /\ heap s' = heap s /\
    stored_crops s' = stored_crops s /\
    (forall d, crop_pixels s' d = crop_pixels s d) /\
    frame_pixels s' = frame_pixels s /\
    exists files, written s' = written s ++ files.
Proof.
  intros s s'.
  destruct (archive_items_frames_only_outputs s) as (Hself & Hheap & _ & Hw).
  fold s' in Hself, Hheap, Hw.
  unfold stored_crops, crop_pixels, pixels_of, frame_pixels.
  rewrite Hself, Hheap. repeat split. exact Hw.
Qed.

(** One turn of the loop of [archive_items_frames], by what [cv2.imwrite]
    does. *)
Lemma archive_item_step s d px idx stored' :
  crop_pixels s d = Some px ->
  archive_items_loop (d :: stored') idx s
  = match imwrite (item_path (self s) idx) px with
    | None =>
        (Raise Cv2Error,
         set_logged (logged s ++
           [LogArchiveItem (images_prefix (self s) ++ "_item_" ++ str idx ++ ".jpg")]) s)
    | Some b =>
        archive_items_loop stored' (S idx)
          (set_written (written s ++
                          if b then [(item_path (self s) idx, px)] else [])
             (set_logged (logged s ++
               [LogArchiveItem (images_prefix (self s) ++ "_item_" ++ str idx ++ ".jpg")]) s))
    end.
Proof.
  intros Hd. unfold crop_pixels in Hd.
  destruct (lookup_dict (heap s) d) as [c|] eqn:Hc; [|discriminate].
  cbn in Hd. cbn [archive_items_loop].
  erewrite bind_Return; [|apply load_dict_Some, Hc].
  erewrite bind_Return; [|apply nd_read_Some, Hd].
  erewrite bind_Return; [|reflexivity].
  erewrite bind_Return; [|reflexivity].
  unfold cv2_imwrite, item_path. cbn [set_logged self].
  destruct (imwrite _ px) as [[]|].
  - erewrite bind_Return; [|reflexivity]. reflexivity.
  - erewrite bind_Return; [|reflexivity].
    rewrite app_nil_r. destruct s; reflexivity.
  - erewrite bind_raises; reflexivity.
Qed.

Lemma archive_items_loop_no_raise ds :
  forall pxs idx s,
    Forall2 (fun d px => crop_pixels s d = Some px) ds pxs ->
    (forall i px, pxs !! i = Some px ->
       imwrite (item_path (self s) (idx + i)) px <> None) ->
    exists s',
      archive_items_loop ds idx s = (Return tt, s') /\
      self s' = self s /\ heap s' = heap s /\
      written s'
      = written s ++
        written_of (imap (fun i px => (item_path (self s) (idx + i), px)) pxs).
Proof.
  induction ds as [|d ds IH]; intros pxs idx s Hpx Hw.
  - inversion Hpx; subst. exists s.
    change (written_of (imap _ [])) with (@nil (string * image)).
    rewrite app_nil_r. repeat split.
  - inversion Hpx as [|? px ? pxs' Hd Hrest]; subst.
    rewrite (archive_item_step s d px idx ds Hd).
    pose proof (Hw 0%nat px eq_refl) as Hw0. rewrite Nat.add_0_r in Hw0.
    destruct (imwrite (item_path (self s) idx) px) as [b|] eqn:Eb;
      [|contradiction].
    match goal with
    | |- context [archive_items_loop ds (S idx) ?st] =>
        destruct (IH pxs' (S idx) st) as (s' & Hloop & Hself & Hheap & Hwr)
    end.
    { exact Hrest. }
    { intros i px' Hi. specialize (Hw (S i) px' Hi).
      rewrite Nat.add_succ_r in Hw. exact Hw. }
    exists s'. split; [exact Hloop|].
    split; [exact Hself|]. split; [exact Hheap|].
    rewrite Hwr. cbn [set_written set_logged written self].
    rewrite <- app_assoc. f_equal.
    rewrite imap_cons. unfold written_of.
    rewrite filter_cons. cbn [fst snd]. rewrite Nat.add_0_r.
    assert (Hext : imap ((fun i px0 => (item_path (self s) (idx + i), px0)) ∘ S) pxs'
                   = imap (fun i px0 => (item_path (self s) (S idx + i), px0)) pxs').
    { apply imap_ext. intros i px' _. cbn. rewrite Nat.add_succ_r. reflexivity. }
    rewrite Hext.
    destruct b.
    + rewrite decide_True by exact Eb. reflexivity.
    + rewrite decide_False by congruence. reflexivity.
Qed.

Lemma archive_items_loop_raises k :
  forall ds pxs idx s pxk,
    Forall2 (fun d px => crop_pixels s d = Some px) ds pxs ->
    pxs !! k = Some pxk ->
    imwrite (item_path (self s) (idx + k)) pxk = None ->
    (forall i px, (i < k)%nat -> pxs !! i = Some px ->
       imwrite (item_path (self s) (idx + i)) px <> None) ->
    exists s',
      archive_items_loop ds idx s = (Raise Cv2Error, s') /\
      self s' = self s /\ heap s' = heap s /\
      written s'
      = written s ++
        written_of (imap (fun i px => (item_path (self s) (idx + i), px))
                         (take k pxs)).
Proof.
  induction k as [|k IH]; intros ds pxs idx s pxk Hpx Hk Hnone Hbefore.
  - inversion Hpx as [|d px ds' pxs' Hd Hrest]; subst; [discriminate|].
    cbn in Hk. injection Hk as ->.
    rewrite (archive_item_step s d pxk idx ds' Hd).
    rewrite Nat.add_0_r in Hnone. rewrite Hnone.
    eexists. split; [reflexivity|].
    cbn [take].
    change (written_of (imap _ [])) with (@nil (string * image)).
    rewrite app_nil_r. repeat split.
  - inversion Hpx as [|d px ds' pxs' Hd Hrest]; subst; [discriminate|].
    cbn in Hk.
    rewrite (archive_item_step s d px idx ds' Hd).
    pose proof (Hbefore 0%nat px (Nat.lt_0_succ k) eq_refl) as Hw0.
    rewrite Nat.add_0_r in Hw0.
    destruct (imwrite (item_path (self s) idx) px) as [b|] eqn:Eb;
      [|contradiction].
    match goal with
    | |- context [archive_items_loop ds' (S idx) ?st] =>
        destruct (IH ds' pxs' (S idx) st pxk)
          as (s' & Hloop & Hself & Hheap & Hwr)
    end.
    { exact Hrest. }
    { exact Hk. }
    { cbn [set_written set_logged self].
      rewrite Nat.add_succ_r in Hnone. exact Hnone. }
    { intros i px' Hi Hpx'. cbn [set_written set_logged self].
      specialize (Hbefore (S i) px' (proj1 (Nat.succ_lt_mono i k) Hi) Hpx').
      rewrite Nat.add_succ_r in Hbefore. exact Hbefore. }
    exists s'. split; [exact Hloop|].
    split; [exact Hself|]. split; [exact Hheap|].
    rewrite Hwr. cbn [set_written set_logged written self take].
    rewrite <- app_assoc. f_equal.
    rewrite imap_cons. unfold written_of.
    rewrite filter_cons. cbn [fst snd]. rewrite Nat.add_0_r.
    assert (Hext : imap ((fun i px0 => (item_path (self s) (idx + i), px0)) ∘ S)
                        (take k pxs')
                   = imap (fun i px0 => (item_path (self s) (S idx + i), px0))
                          (take k pxs')).
    { apply imap_ext. intros i px' _. cbn. rewrite Nat.add_succ_r. reflexivity. }
    rewrite Hext.
    destruct b.
    + rewrite decide_True by exact Eb. reflexivity.
    + rewrite decide_False by congruence. reflexivity.
Qed.

(** The path of crop [i]: the name [<prefix>_item_<N>.jpg], [N] the decimal
    numeral of [i], joined to the archive folder. *)
Definition item_file (o : FaceDetection) (i : nat) (path : string) : Prop :=
  exists name,
    item_name (images_prefix o) i name /\
    path = os_path_join (archive_folder o) name.

Lemma item_path_item_file o i : item_file o i (item_path o i).
Proof.
  exists (images_prefix o ++ "_item_" ++ str i ++ ".jpg")%string.
  split; [apply item_name_str | reflexivity].
Qed.

Lemma imap_zip {A B} (l : list A) :
  forall f : nat -> B,
    imap (fun i x => (f i, x)) l = zip (imap (fun i _ => f i) l) l.
Proof.
  induction l as [|x l IH]; intros f; [reflexivity|].
  cbn [imap zip zip_with]. f_equal.
  apply (IH (fun i => f (S i))).
Qed.

(** X12: the result of [cv2.imwrite] is dropped.  When no write raises,
    [archive_items_frames] returns even if OpenCV refused some files.  It
    asks for one file per crop, the file at index [i] being
    [<prefix>_item_<N>.jpg] in the archive folder with [N] the decimal
    numeral of [i], and the files written are those OpenCV accepted, in list
    order: a refused file leaves a gap in the numbers. *)
Theorem archive_items_frames_refused_writes (s : state) (ds : list loc)
    (pxs : list image)
    (Hst : stored_crops s = Some ds)
    (Hpx : Forall2 (fun d px => crop_pixels s d = Some px) ds pxs)
    (Hw : forall i px path,
            pxs !! i = Some px -> item_file (self s) i path ->
            imwrite path px <> None) :
  exists s' paths,
    archive_items_frames s = (Return tt, s') /\
    length paths = length pxs /\
    (forall i path, paths !! i = Some path -> item_file (self s) i path) /\
    written s'
    = written s ++
      filter (fun e => imwrite e.1 e.2 = Some true) (zip paths pxs).
Proof.
  destruct (archive_items_loop_no_raise ds pxs 0%nat
              (set_logged (logged s ++ [LogArchiveItems (length ds)]) s) Hpx)
    as (s' & Hloop & _ & _ & Hwr).
  { intros i px Hi. apply (Hw i px _ Hi), item_path_item_file. }
  exists s', (imap (fun i _ => item_path (self s) i) pxs).
  split.
  { unfold archive_items_frames.
    erewrite bind_Return; [|reflexivity].
    erewrite bind_Return; [|apply load_list_Some, Hst].
    erewrite bind_Return; [|reflexivity].
    exact Hloop. }
  split; [apply length_imap|].
  split.
  { intros i path Hi. rewrite list_lookup_imap in Hi.
    destruct (pxs !! i); [|discriminate Hi].
    injection Hi as <-. apply item_path_item_file. }
  rewrite <- (imap_zip pxs (fun i => item_path (self s) i)). exact Hwr.
Qed.

(** X13: [archive_items_frames] stops at the first write that raises.  The
    crops before it have been handed to [cv2.imwrite] and the accepted ones
    are on disk; the crop at that position and those after it are not
    written. *)
Theorem archive_items_frames_stops_at_raise (s : state) (ds : list loc)
    (pxs : list image) (k : nat) (pxk : image)
    (Hst : stored_crops s = Some ds)
    (Hpx : Forall2 (fun d px => crop_pixels s d = Some px) ds pxs)
    (Hk : pxs !! k = Some pxk)
    (Hnone : imwrite (item_path (self s) k) pxk = None)
    (Hbefore : forall i px, (i < k)%nat -> pxs !! i = Some px ->
                 imwrite (item_path (self s) i) px <> None) :
  exists s',
    archive_items_frames s = (Raise Cv2Error, s') /\
    written s'
    = written s ++
      filter (fun e => imwrite e.1 e.2 = Some true)
             (imap (fun i px => (item_path (self s) i, px)) (take k pxs)).
Proof.
  destruct (archive_items_loop_raises k ds pxs 0%nat
              (set_logged (logged s ++ [LogArchiveItems (length ds)]) s) pxk
              Hpx Hk Hnone Hbefore)
    as (s' & Hloop & _ & _ & Hwr).
  exists s'. split; [|exact Hwr].
  unfold archive_items_frames.
  erewrite bind_Return; [|reflexivity].
  erewrite bind_Return; [|apply load_list_Some, Hst].
  erewrite bind_Return; [|reflexivity].
  exact Hloop.
Qed.

End Writes.

(** ** Names that do not collide *)


Lemma string_app_inj_length (a c b d : string) :
  String.length a = String.length c ->
  (a ++ b)%string = (c ++ d)%string -> a = c /\ b = d.
Proof.
  revert c. induction a as [|x a IH]; intros [|y c] Hlen E;
    try discriminate.
  - split; [reflexivity | exact E].
  - cbn in Hlen, E. injection Hlen as Hlen. injection E as -> E.
    destruct (IH c Hlen E) as [-> ->]. split; reflexivity.
Qed.

Lemma string_app_inv_head (a b c : string) :
  (a ++ b)%string = (a ++ c)%string -> b = c.
Proof. intros E. apply (string_app_inj_length a a b c eq_refl E). Qed.

Lemma string_app_inv_tail (a b c : string) :
  (a ++ c)%string = (b ++ c)%string -> a = b.
Proof.
  intros E.
  assert (Hlen : String.length a = String.length b).
  { apply (f_equal String.length) in E. rewrite !string_length_app in E. lia. }
  apply (string_app_inj_length a b c c Hlen E).
Qed.

Lemma to_uint_not_Nil n : Nat.to_uint n <> Decimal.Nil.
Proof.
  intros E. pose proof (Unsigned.of_to n) as Hn.
  rewrite E in Hn. cbn in Hn. subst n. discriminate E.
Qed.

Lemma str_inj i j : str i = str j -> i = j.
Proof.
  unfold str. intros E.
  apply (f_equal NilZero.uint_of_string) in E.
  rewrite !NilZero.usu in E by apply to_uint_not_Nil.
  injection E as E.
  rewrite <- (Unsigned.of_to i), <- (Unsigned.of_to j), E.
  reflexivity.
Qed.

Lemma zero_padded_inj w n m :
  (n < 10 ^ w)%nat -> (m < 10 ^ w)%nat ->
  zero_padded w n = zero_padded w m -> n = m.
Proof.
  intros Hn Hm E.
  rewrite <- (zero_padded_reads_back w n Hn), <- (zero_padded_reads_back w m Hm), E.
  reflexivity.
Qed.

Lemma strftime_Ymd_HMS_f_inj t1 t2 :
  datetime_valid t1 -> datetime_valid t2 ->
  strftime_Ymd_HMS_f t1 = strftime_Ymd_HMS_f t2 -> t1 = t2.
Proof.
  intros (Hy1 & Hm1 & Hd1 & Hh1 & Hmi1 & Hs1 & Hf1)
         (Hy2 & Hm2 & Hd2 & Hh2 & Hmi2 & Hs2 & Hf2) E.
  unfold strftime_Ymd_HMS_f in E.
  rewrite (str_four_digits (year t1)), (str_four_digits (year t2)) in E
    by assumption.
  assert (Hlen : forall w n m,
            String.length (zero_padded w n) = String.length (zero_padded w m)).
  { intros w n m.
    rewrite (proj1 (zero_padded_field w n)), (proj1 (zero_padded_field w m)).
    reflexivity. }
  apply string_app_inj_length in E as [Ey E]; [|apply Hlen].
  apply string_app_inj_length in E as [Em E]; [|apply Hlen].
  apply string_app_inj_length in E as [Ed E]; [|apply Hlen].
  apply (string_app_inv_head "-") in E.
  apply string_app_inj_length in E as [Eh E]; [|apply Hlen].
  apply string_app_inj_length in E as [Emi E]; [|apply Hlen].
  apply string_app_inj_length in E as [Es E]; [|apply Hlen].
  apply (string_app_inv_head "-") in E.
  apply zero_padded_inj in Ey;
    [| rewrite !Nat.pow_succ_r', Nat.pow_0_r; lia ..].
  apply zero_padded_inj in Em;
    [| rewrite !Nat.pow_succ_r', Nat.pow_0_r; lia ..].
  apply zero_padded_inj in Ed;
    [| rewrite !Nat.pow_succ_r', Nat.pow_0_r; lia ..].
  apply zero_padded_inj in Eh;
    [| rewrite !Nat.pow_succ_r', Nat.pow_0_r; lia ..].
  apply zero_padded_inj in Emi;
    [| rewrite !Nat.pow_succ_r', Nat.pow_0_r; lia ..].
  apply zero_padded_inj in Es;
    [| rewrite !Nat.pow_succ_r', Nat.pow_0_r; lia ..].
  apply zero_padded_inj in E;
    [| rewrite !Nat.pow_succ_r', Nat.pow_0_r; lia ..].
  clear Hy1 Hm1 Hd1 Hh1 Hmi1 Hs1 Hf1 Hy2 Hm2 Hd2 Hh2 Hmi2 Hs2 Hf2 Hlen.
  destruct t1 as [y1 m1 d1 h1 mi1 sc1 f1], t2 as [y2 m2 d2 h2 mi2 sc2 f2].
  cbn [year month day hour minute second microsecond] in *. congruence.
Qed.

Lemma os_path_join_inj folder a b :
  startswith_slash a = startswith_slash b ->
  os_path_join folder a = os_path_join folder b -> a = b.
Proof.
  unfold os_path_join. intros Hs E. rewrite <- Hs in E.
  destruct (startswith_slash a); [exact E|].
  destruct ((folder =? "")%string || endswith_slash folder).
  - apply string_app_inv_head in E. exact E.
  - apply string_app_inv_head in E.
    apply (string_app_inv_head "/") in E. exact E.
Qed.

Lemma startswith_slash_app_nonempty p c rest1 rest2 :
  startswith_slash (p ++ String c rest1)
  = startswith_slash (p ++ String c rest2).
Proof. destruct p; reflexivity. Qed.

Lemma item_path_inj o i j : item_path o i = item_path o j -> i = j.
Proof.
  unfold item_path. intros E.
  apply os_path_join_inj in E;
    [|apply (startswith_slash_app_nonempty _ "_")].
  apply string_app_inv_head in E.
  apply (string_app_inv_head "_item_") in E.
  apply string_app_inv_tail in E. apply str_inj, E.
Qed.

Lemma item_path_not_full o i : item_path o i <> full_path o.
Proof.
  unfold item_path, full_path. intros E.
  apply os_path_join_inj in E;
    [|apply (startswith_slash_app_nonempty _ "_")].
  apply string_app_inv_head in E. discriminate E.
Qed.

Section Names.
Context `{Cv2} `{Locale}.

(** X14: the run prefix identifies the clock reading.  Two objects
    constructed at different readings of the clock (years 1000 to 9999) have
    different prefixes, whatever the other arguments, so the files of two
    runs never share a name unless the runs started in the same
    microsecond. *)
Theorem run_prefix_identifies_clock_reading
    (path1 folder1 path2 folder2 : string) (dbg1 dbg2 : bool)
    (now1 now2 : datetime) (decoded1 decoded2 : option image)
    (s1 s2 : state)
    (Hv1 : datetime_valid now1) (Hv2 : datetime_valid now2)
    (Hne : now1 <> now2) :
  images_prefix (self (snd (__init__ path1 folder1 dbg1 now1 decoded1 s1)))
  <> images_prefix (self (snd (__init__ path2 folder2 dbg2 now2 decoded2 s2))).
Proof.
  rewrite !init_run. cbn [snd after_init self images_prefix].
  intros E. apply Hne. exact (strftime_Ymd_HMS_f_inj now1 now2 Hv1 Hv2 E).
Qed.

(** X15: within a run no archive file overwrites another.  When the crops
    can be read, the image was decoded and OpenCV writes each file,
    [archive_items_frames] followed by [archive_with_items] writes one file
    per crop and one for the full frame, and the paths of these files are
    pairwise distinct. *)
Theorem archive_files_have_distinct_paths (s : state) (ds : list loc)
    (pxs : list image) (l : loc) (px : image) (now : datetime)
    (Hst : stored_crops s = Some ds)
    (Hpx : Forall2 (fun d px => crop_pixels s d = Some px) ds pxs)
    (Hw : forall i px, pxs !! i = Some px ->
            imwrite (item_path (self s) i) px = Some true)
    (Hf : frame (self s) = Some l)
    (Hfp : lookup_array (heap s) l = Some px)
    (Hwf : imwrite (full_path (self s)) (annotated (items (self s)) now px)
           = Some true) :
  exists s' files,
    (archive_items_frames;; archive_with_items now) s = (Return tt, s') /\
    written s' = written s ++ files /\
    length files = S (length ds) /\
    NoDup files.*1.
Proof.
  destruct (archive_items_frames_run s ds pxs Hst Hpx Hw)
    as (s1 & Hrun1 & Hself1 & Hheap1 & _ & Hwr1).
  destruct (archive_with_items_run now s1 l px)
    as (s2 & Hrun2 & _ & _ & Hwr2).
  { rewrite Hself1. exact Hf. }
  { rewrite Hheap1. exact Hfp. }
  { rewrite Hself1. exact Hwf. }
  rewrite Hself1 in Hwr2.
  exists s2,
    (imap (fun i px0 => (item_path (self s) i, px0)) pxs
     ++ [(full_path (self s), annotated (items (self s)) now px)]).
  split; [erewrite bind_Return; [exact Hrun2 | exact Hrun1]|].
  split.
  { rewrite Hwr2, Hwr1, <- app_assoc. reflexivity. }
  split.
  { rewrite length_app, length_imap, <- (Forall2_length _ _ _ Hpx).
    cbn. lia. }
  rewrite fmap_app. apply NoDup_app. split; [|split].
  - apply NoDup_alt. intros i j p Hi Hj.
    rewrite list_lookup_fmap, list_lookup_imap in Hi, Hj.
    destruct (pxs !! i) as [pi|]; [|discriminate].
    destruct (pxs !! j) as [pj|]; [|discriminate].
    cbn in Hi, Hj. injection Hi as Hi. injection Hj as Hj.
    apply (item_path_inj (self s)). congruence.
  - intros p Hp Hfull. apply list_elem_of_singleton in Hfull. cbn in Hfull.
    apply list_elem_of_lookup in Hp as [i Hi].
    rewrite list_lookup_fmap, list_lookup_imap in Hi.
    destruct (pxs !! i) as [pi|]; [|discriminate].
    cbn in Hi. injection Hi as Hi.
    apply (item_path_not_full (self s) i). congruence.
  - apply NoDup_singleton.
Qed.

End Names.

(** ** An invariant of the store *)

(** The store is well formed for the object: [self.frame], when set, names
    pixel memory, and [self.items_frames] names a list of distinct crop
    records whose buffers read pixel memory. *)
Definition crops_well_formed (s : state) : Prop :=
  (forall l, frame (self s) = Some l -> is_Some (lookup_array (heap s) l)) /\
  exists ds,
    stored_crops s = Some ds /\
    NoDup ds /\
    Forall (fun d => exists c,
              lookup_dict (heap s) d = Some c /\
              is_Some (lookup_array (heap s) (nd_base (if_frame c)))) ds.

(** An object without its pixels. *)
Definition skeleton (o : obj) : obj :=
  match o with ObjArray _ => ObjArray [] | _ => o end.

(** The same store up to the contents of pixel memory, and the same frame
    and crop list references. *)
Definition same_shape (s s' : state) : Prop :=
  frame (self s') = frame (self s) /\
  items_frames (self s') = items_frames (self s) /\
  forall l, skeleton <$> heap s' !! l = skeleton <$> heap s !! l.

Lemma same_shape_refl s : same_shape s s.
Proof. repeat split. Qed.

Lemma same_shape_trans s1 s2 s3 :
  same_shape s1 s2 -> same_shape s2 s3 -> same_shape s1 s3.
Proof.
  intros (Ha1 & Hb1 & Hc1) (Ha2 & Hb2 & Hc2).
  split; [congruence|]. split; [congruence|].
  intros l. rewrite Hc2. apply Hc1.
Qed.

Lemma same_shape_array s s' l :
  same_shape s s' ->
  is_Some (lookup_array (heap s) l) -> is_Some (lookup_array (heap s') l).
Proof.
  intros (_ & _ & Hsk) [px Hpx]. apply lookup_array_lookup in Hpx.
  specialize (Hsk l). unfold lookup_array. unfold loc in *. rewrite Hpx in Hsk.
  destruct (heap s' !! l) as [[px'|c|xs]|]; cbn in Hsk; try discriminate.
  eexists. reflexivity.
Qed.

Lemma same_shape_dict s s' d c :
  same_shape s s' ->
  lookup_dict (heap s) d = Some c -> lookup_dict (heap s') d = Some c.
Proof.
  intros (_ & _ & Hsk) Hc. apply lookup_dict_lookup in Hc.
  specialize (Hsk d). unfold lookup_dict. unfold loc in *. rewrite Hc in Hsk.
  destruct (heap s' !! d) as [[px'|c'|xs]|]; cbn in Hsk; congruence.
Qed.

Lemma same_shape_list s s' l xs :
  same_shape s s' ->
  lookup_list (heap s) l = Some xs -> lookup_list (heap s') l = Some xs.
Proof.
  intros (_ & _ & Hsk) Hc. apply lookup_list_lookup in Hc.
  specialize (Hsk l). unfold lookup_list. unfold loc in *. rewrite Hc in Hsk.
  destruct (heap s' !! l) as [[px'|c'|xs']|]; cbn in Hsk; congruence.
Qed.

Lemma crops_well_formed_same_shape s s' :
  crops_well_formed s -> same_shape s s' -> crops_well_formed s'.
Proof.
  intros (Hfr & ds & Hst & Hnd & Hall) Hsh.
  pose proof Hsh as (Hf & Hif & _).
  split.
  - intros l Hl. rewrite Hf in Hl.
    apply (same_shape_array s s' l Hsh), Hfr, Hl.
  - exists ds. split; [|split; [exact Hnd|]].
    + unfold stored_crops in *. rewrite Hif.
      apply (same_shape_list s s' _ _ Hsh), Hst.
    + rewrite Forall_forall in *. intros d Hd.
      destruct (Hall d Hd) as (c & Hc & Hb).
      exists c. split.
      * apply (same_shape_dict s s' _ _ Hsh), Hc.
      * apply (same_shape_array s s' _ Hsh), Hb.
Qed.

Lemma crops_well_formed_extend s s' :
  crops_well_formed s ->
  frame (self s') = frame (self s) ->
  items_frames (self s') = items_frames (self s) ->
  (forall l o, heap s !! l = Some o -> heap s' !! l = Some o) ->
  crops_well_formed s'.
Proof.
  intros (Hfr & ds & Hst & Hnd & Hall) Hf Hif Hup.
  assert (Harr : forall l, is_Some (lookup_array (heap s) l) ->
                   is_Some (lookup_array (heap s') l)).
  { intros l [px Hpx]. exists px.
    apply lookup_array_lookup, Hup, lookup_array_lookup, Hpx. }
  split.
  - intros l Hl. rewrite Hf in Hl. apply Harr, Hfr, Hl.
  - exists ds. split; [|split; [exact Hnd|]].
    + unfold stored_crops in *. rewrite Hif.
      apply lookup_list_lookup, Hup, lookup_list_lookup, Hst.
    + rewrite Forall_forall in *. intros d Hd.
      destruct (Hall d Hd) as (c & Hc & Hb).
      exists c. split; [|apply Harr, Hb].
      apply lookup_dict_lookup, Hup, lookup_dict_lookup, Hc.
Qed.

Section Invariant.
Context `{Cv2} `{Locale}.

Lemma draw_on_frame_same_shape draw : stable same_shape (draw_on_frame draw).
Proof.
  intros s. destruct (frame (self s)) as [l|] eqn:Hf.
  - destruct (lookup_array (heap s) l) as [px|] eqn:El.
    + rewrite (draw_on_frame_loaded s l px draw Hf El). cbn [snd].
      apply lookup_array_lookup in El.
      split; [reflexivity|]. split; [reflexivity|].
      intros l'. cbn [set_heap heap]. unfold loc in *.
      destruct (decide (l' = l)) as [->|Hne].
      * rewrite El, list_lookup_insert_eq by (apply (lookup_lt_Some _ _ _ El)).
        reflexivity.
      * rewrite list_lookup_insert_ne by congruence. reflexivity.
    + assert (E : draw_on_frame draw s = (Raise StoreError, s)).
      { unfold draw_on_frame.
        erewrite bind_Return; [|reflexivity]. rewrite Hf.
        erewrite bind_raises; [reflexivity|].
        unfold load_array, lookup_array in *.
        destruct (heap s !! l) as [[]|]; try discriminate; reflexivity. }
      rewrite E. apply same_shape_refl.
  - rewrite (draw_on_frame_None draw s Hf). apply same_shape_refl.
Qed.

Lemma archive_with_items_same_shape now :
  stable same_shape (archive_with_items now).
Proof.
  pose proof same_shape_refl as Hr. pose proof same_shape_trans as Ht.
  assert (Hlog : forall r, stable same_shape (logging_info r)).
  { intros r. apply stable_logging_info. intros s l. repeat split. }
  unfold archive_with_items.
  apply stable_bind; [exact Ht | apply Hlog | intros _].
  apply stable_bind; [exact Ht | apply stable_get_state, Hr | intros s0].
  apply stable_bind; [exact Ht | | intros _].
  { apply stable_for_each; [exact Hr | exact Ht |].
    intros [[[x y] w] h]. apply draw_on_frame_same_shape. }
  apply stable_bind; [exact Ht | apply draw_on_frame_same_shape | intros _].
  apply stable_bind; [exact Ht | apply stable_get_state, Hr | intros s1].
  apply stable_bind; [exact Ht | | intros _].
  { destruct (debug (self s1)); [|apply stable_mret, Hr].
    unfold imshow_frame.
    apply stable_bind; [exact Ht | apply stable_get_state, Hr | intros s2].
    destruct (frame (self s2)); [|apply stable_raise, Hr].
    apply stable_bind; [exact Ht | apply stable_load_array, Hr | intros px].
    apply stable_modify. intros s. repeat split. }
  apply stable_bind; [exact Ht | apply Hlog | intros _].
  destruct (frame (self s1)); [|apply stable_raise, Hr].
  apply stable_bind; [exact Ht | apply stable_load_array, Hr | intros px].
  unfold cv2_imwrite. destruct (imwrite _ px) as [[]|].
  - apply stable_modify. intros s. repeat split.
  - apply stable_ret, Hr.
  - apply stable_raise, Hr.
Qed.

Lemma crops_well_formed_after_init path folder dbg now decoded s0 :
  crops_well_formed (after_init path folder dbg now decoded s0).
Proof.
  split.
  - intros l Hl. unfold after_init in *. cbn [self frame heap] in *.
    destruct decoded as [px|]; [|discriminate].
    injection Hl as <-. exists px.
    apply lookup_array_lookup. unfold loc.
    rewrite lookup_app_r by lia.
    replace (S (length (heap s0)) - length (heap s0))%nat with 1%nat by lia.
    reflexivity.
  - exists []. split; [|split; constructor].
    apply (after_init_lists_empty path folder dbg now decoded s0).
Qed.

Lemma crops_well_formed_extract s :
  crops_well_formed s -> crops_well_formed (snd (extract_items_frames s)).
Proof.
  intros Hwf. pose proof Hwf as (Hfr & ds & Hst & Hnd & Hall).
  destruct (frame (self s)) as [l|] eqn:Hf.
  - destruct (Hfr l eq_refl) as [px Hpx].
    assert (Hfa : frame_array s = Some (nd_whole l px)).
    { unfold frame_array. rewrite Hf. cbn. rewrite Hpx. reflexivity. }
    rewrite (extract_items_frames_loaded s _ Hfa). cbn [snd].
    split.
    + intros l' Hl'. change (frame (self s) = Some l') in Hl'.
      rewrite Hf in Hl'. injection Hl' as <-. exists px.
      apply lookup_array_after_extract, Hpx.
    + exists (seq (S (length (heap s))) (length (items (self s)))).
      split; [apply stored_crops_after_extract|].
      split; [apply NoDup_seq|].
      apply Forall_forall. intros d Hd.
      apply list_elem_of_lookup in Hd as [i Hi].
      apply lookup_seq in Hi as [-> Hi].
      destruct (lookup_lt_is_Some_2 (items (self s)) i Hi) as [r Hr].
      exists (crop_record (nd_whole l px) r).
      split; [apply lookup_dict_after_extract, Hr|].
      destruct r as [[[x y] w] h]. cbn [crop_record if_frame nd_slice nd_base nd_whole].
      exists px. apply lookup_array_after_extract, Hpx.
  - destruct (items (self s)) as [|r rs] eqn:Hit.
    + rewrite (extract_items_frames_nil s (nd_whole 0%nat []) Hit). cbn [snd].
      split.
      * intros l' Hl'. change (frame (self s) = Some l') in Hl'. congruence.
      * exists []. split; [|split; constructor].
        rewrite stored_crops_after_extract, Hit. reflexivity.
    + rewrite (extract_items_frames_no_frame s r rs Hf Hit). cbn [snd].
      apply (crops_well_formed_extend s); [exact Hwf | reflexivity.. |].
      intros l' o El. cbn [set_heap set_logged heap].
      apply lookup_app_l_Some, El.
Qed.

(** A list of readable records either converts entirely or has a first
    record that OpenCV refuses. *)
Lemma convertible_or_first_refused s ds :
  Forall (fun d => exists c,
            lookup_dict (heap s) d = Some c /\
            is_Some (lookup_array (heap s) (nd_base (if_frame c)))) ds ->
  Forall (crop_convertible s) ds \/
  exists pre d post c px,
    ds = pre ++ d :: post /\
    Forall (crop_convertible s) pre /\
    lookup_dict (heap s) d = Some c /\
    pixels_of s (if_frame c) = Some px /\
    cvtColor px COLOR_BGR2GRAY = None.
Proof.
  induction 1 as [|d ds (c & Hc & [m Hm]) _ IH]; [left; constructor|].
  assert (Hpx : pixels_of s (if_frame c) = Some (window (if_frame c) m)).
  { unfold pixels_of. rewrite Hm. reflexivity. }
  destruct (cvtColor (window (if_frame c) m) COLOR_BGR2GRAY) as [g|] eqn:Hg.
  - assert (Hd : crop_convertible s d).
    { exists c, (window (if_frame c) m), g. auto. }
    destruct IH as [Hall|(pre & d' & post & c' & px' & -> & Hpre & Hrest)].
    + left. constructor; assumption.
    + right. exists (d :: pre), d', post, c', px'.
      split; [reflexivity|]. split; [constructor; assumption | exact Hrest].
  - right. exists [], d, ds, c, (window (if_frame c) m).
    split; [reflexivity|]. split; [constructor|]. auto.
Qed.

Lemma crops_well_formed_get_true s :
  crops_well_formed s -> crops_well_formed (snd (get_items_frames true s)).
Proof.
  intros (Hfr & ds & Hst & Hnd & Hall).
  assert (Hkind_dict : forall d, d ∈ ds ->
            exists c, heap s !! d = Some (ObjDict c)).
  { intros d Hd. rewrite Forall_forall in Hall.
    destruct (Hall d Hd) as (c & Hc & _). exists c.
    apply lookup_dict_lookup, Hc. }
  assert (Hlist : heap s !! items_frames (self s) = Some (ObjList ds)).
  { apply lookup_list_lookup, Hst. }
  (* what a run that keeps the objects outside [pre] gives *)
  assert (Hgoal : forall s1 pre post,
    ds = pre ++ post ->
    self s1 = self s ->
    (forall l o, l ∉ pre -> heap s !! l = Some o -> heap s1 !! l = Some o) ->
    (forall i d, pre !! i = Some d ->
       exists c px g,
         lookup_dict (heap s) d = Some c /\
         pixels_of s (if_frame c) = Some px /\
         cvtColor px COLOR_BGR2GRAY = Some g /\
         lookup_dict (heap s1) d
         = Some (set_if_frame (nd_whole (S (length (heap s)) + i)%nat g) c) /\
         lookup_array (heap s1) (S (length (heap s)) + i)%nat = Some g) ->
    crops_well_formed s1).
  { intros s1 pre post Hds Hself Hkeep Hrec.
    assert (Hpre_in : forall d, d ∈ pre -> d ∈ ds).
    { intros d Hd. rewrite Hds. apply elem_of_app. left. exact Hd. }
    assert (Harr : forall l, is_Some (lookup_array (heap s) l) ->
                     is_Some (lookup_array (heap s1) l)).
    { intros l [px Hpx]. exists px. apply lookup_array_lookup in Hpx.
      apply lookup_array_lookup, Hkeep; [|exact Hpx].
      intros Hin. destruct (Hkind_dict l (Hpre_in l Hin)) as [c Hc].
      congruence. }
    split.
    - intros l Hl. rewrite Hself in Hl. apply Harr, Hfr, Hl.
    - exists ds. split; [|split; [exact Hnd|]].
      + unfold stored_crops. rewrite Hself.
        apply lookup_list_lookup, Hkeep; [|exact Hlist].
        intros Hin. destruct (Hkind_dict _ (Hpre_in _ Hin)) as [c Hc].
        congruence.
      + apply Forall_forall. intros d Hd.
        destruct (decide (d ∈ pre)) as [Hin|Hnot].
        * apply list_elem_of_lookup in Hin as [i Hi].
          destruct (Hrec i d Hi) as (c & px & g & _ & _ & _ & Hc1 & Ha).
          eexists. split; [exact Hc1|].
          cbn [set_if_frame if_frame nd_whole nd_base]. exists g. exact Ha.
        * rewrite Forall_forall in Hall.
          destruct (Hall d Hd) as (c & Hc & Hb).
          exists c. split; [|apply Harr, Hb].
          apply lookup_dict_lookup, Hkeep; [exact Hnot|].
          apply lookup_dict_lookup, Hc. }
  destruct (convertible_or_first_refused s ds Hall)
    as [Hconv|(pre & d & post & c & px & Hds & Hpre & Hc & Hpx & Hg)].
  - destruct (get_items_frames_true_effect s ds Hst Hnd Hconv)
      as (s1 & Hrun & Hself & _ & _ & _ & Hkeep & Hrec).
    rewrite Hrun. cbn [snd].
    apply (Hgoal s1 ds []); [rewrite app_nil_r; reflexivity | assumption..].
  - subst ds.
    destruct (get_items_frames_true_stops s pre d post c px
                Hst Hnd Hpre Hc Hpx Hg)
      as (s1 & Hrun & Hself & _ & _ & Hkeep & Hrec).
    rewrite Hrun. cbn [snd].
    apply (Hgoal s1 pre (d :: post)); [reflexivity | assumption..].
Qed.

Lemma crops_well_formed_run_call c s :
  crops_well_formed s -> crops_well_formed (snd (run_call c s)).
Proof.
  intros Hwf.
  destruct c as [response| |grayscale|text x y| |now]; cbn [run_call].
  - apply (crops_well_formed_same_shape s); [exact Hwf|].
    destruct (find_items_only_items_logged response s)
      as (_ & _ & _ & Hif & _ & Hf & Hh & _).
    split; [exact Hf|]. split; [exact Hif|]. intros l. rewrite Hh. reflexivity.
  - apply crops_well_formed_extract, Hwf.
  - assert (E : snd ((get_items_frames grayscale;; ret tt) s)
                = snd (get_items_frames grayscale s)).
    { unfold mbind, M_bind, bind.
      destruct (get_items_frames grayscale s) as [[l|e] s1]; reflexivity. }
    rewrite E. destruct grayscale.
    + apply crops_well_formed_get_true, Hwf.
    + exact Hwf.
  - apply (crops_well_formed_same_shape s); [exact Hwf|].
    apply draw_on_frame_same_shape.
  - apply (crops_well_formed_same_shape s); [exact Hwf|].
    destruct (archive_items_frames_only_outputs s) as (Hself & Hheap & _).
    split; [rewrite Hself; reflexivity|].
    split; [rewrite Hself; reflexivity|].
    intros l. rewrite Hheap. reflexivity.
  - apply (crops_well_formed_same_shape s); [exact Hwf|].
    apply archive_with_items_same_shape.
Qed.

(** X16: an invariant of every object.  After [__init__], whether it
    returned or raised in the preview, and after any sequence of method
    calls, including calls that raised, [self.frame] is [None] or names
    pixel memory and [self.items_frames] names a list of distinct crop
    records whose buffers read pixel memory: no call leaves a half-built
    list or record behind. *)
Theorem crops_stay_well_formed :
  forall path folder dbg now decoded (s0 : state) (cs : list call),
    crops_well_formed
      (run_calls cs (snd (__init__ path folder dbg now decoded s0))).
Proof.
  intros path folder dbg now decoded s0 cs.
  rewrite init_run. cbn [snd].
  generalize (crops_well_formed_after_init path folder dbg now decoded s0).
  generalize (after_init path folder dbg now decoded s0).
  induction cs as [|c cs IH]; intros s Hwf; [exact Hwf|].
  cbn [run_calls fold_left]. apply IH, crops_well_formed_run_call, Hwf.
Qed.

End Invariant.

(** ** Construction, and the methods in pipeline order *)

(** The pixels that an array with pixel memory [g] shows; [g] itself when
    its rows have one length. *)
Definition array_pixels (g : image) : image := window (nd_whole 0%nat g) g.

Section Pipeline.
Context `{Cv2} `{Locale}.

(** X17: construction.  With the debug preview off, or with a decoded
    image, [__init__] returns, whatever the file was.  The object then has
    the given path, folder and flag, no region, an empty crop list and, as
    frame, what the decoder gave: no frame for a file it could not decode.
    No file is written and no object that existed is changed. *)
Theorem init_postcondition :
  forall path folder dbg now decoded (s0 : state),
    let r := fst (__init__ path folder dbg now decoded s0) in
    let s := snd (__init__ path folder dbg now decoded s0) in
    (dbg = false \/ is_Some decoded -> r = Return tt) /\
    image_path (self s) = path /\
    archive_folder (self s) = folder /\
    debug (self s) = dbg /\
    items (self s) = [] /\
    stored_crops s = Some [] /\
    frame_pixels s = decoded /\
    (frame (self s) = None <-> decoded = None) /\
    written s = written s0 /\
    (forall l o, heap s0 !! l = Some o -> heap s !! l = Some o).
Proof.
  intros path folder dbg now decoded s0 r s. subst r s.
  rewrite init_run. cbn [fst snd].
  split.
  { intros [->|[px ->]]; [reflexivity|]. destruct dbg; reflexivity. }
  do 4 (split; [reflexivity|]).
  split; [apply (after_init_lists_empty path folder dbg now decoded s0)|].
  split.
  { unfold frame_pixels, after_init. cbn [self frame heap].
    destruct decoded as [px|]; [|reflexivity]. cbn.
    apply lookup_array_lookup. unfold loc.
    rewrite lookup_app_r by lia.
    replace (S (length (heap s0)) - length (heap s0))%nat with 1%nat by lia.
    reflexivity. }
  split.
  { unfold after_init. cbn [self frame].
    destruct decoded; split; congruence. }
  split; [reflexivity|].
  intros l o El. unfold after_init. cbn [heap]. apply lookup_app_l_Some, El.
Qed.

(** [find_items] on an answer whose faces have their corners. *)
Lemma find_items_run faces rs s :
  Forall2 (fun f r => bounding_box f = Some r) faces rs ->
  find_items (Return faces) s
  = (Return tt,
     mk_state (set_items rs (self s)) (heap s)
       (logged s ++ [LogSearch; LogCount (length rs); LogItems rs])
       (written s) (previewed s)).
Proof.
  intros Hrs. unfold find_items.
  erewrite bind_Return; [|reflexivity].
  erewrite bind_Return; [|reflexivity].
  erewrite bind_Return; [|apply (find_items_loop_boxes faces rs [] _ Hrs)].
  cbn [app].
  erewrite bind_Return; [|reflexivity].
  erewrite bind_Return; [|reflexivity].
  destruct s as [o hp lg wr pv]. cbn.
  rewrite <- !app_assoc. reflexivity.
Qed.

(** X18: the methods in pipeline order.  With a decoded image, an answer
    whose faces have their corners, crops that OpenCV converts and files
    that it writes, [find_items], [extract_items_frames],
    [get_items_frames(True)] and [archive_items_frames] in this order return
    and write one file per face, in the order of the answer: the file
    numbered [i] holds the grayscale conversion of the slice of the image
    under the box of face [i]. *)
Theorem pipeline_archives_gray_crops (s : state) (l : loc) (px : image)
    (faces : list face) (rs : list region) (gs : list image)
    (Hf : frame (self s) = Some l)
    (Hpx : lookup_array (heap s) l = Some px)
    (Hrs : Forall2 (fun f r => bounding_box f = Some r) faces rs)
    (Hgs : Forall2 (fun '(x, y, w, h) g =>
                      cvtColor (np_slice2 px y (y + h) x (x + w))
                               COLOR_BGR2GRAY = Some g) rs gs)
    (Hw : forall i g, gs !! i = Some g ->
            imwrite (item_path (self s) i) (array_pixels g) = Some true) :
  exists s',
    (find_items (Return faces);; extract_items_frames;;
     get_items_frames true;; archive_items_frames) s = (Return tt, s') /\
    length gs = length faces /\
    written s'
    = written s ++
      imap (fun i g => (item_path (self s) i, array_pixels g)) gs.
Proof.
  set (s1 := mk_state (set_items rs (self s)) (heap s)
               (logged s ++ [LogSearch; LogCount (length rs); LogItems rs])
               (written s) (previewed s)).
  set (fr := nd_whole l px).
  set (s2 := after_extract fr s1).
  set (n := length (heap s)).
  assert (Hfa : frame_array s1 = Some fr).
  { unfold frame_array. cbn [s1 self set_items frame heap]. rewrite Hf. cbn.
    rewrite Hpx. reflexivity. }
  assert (Hst2 : stored_crops s2 = Some (seq (S n) (length rs))).
  { apply (stored_crops_after_extract fr s1). }
  assert (Hrec2 : forall i r, rs !! i = Some r ->
            lookup_dict (heap s2) (S n + i)%nat = Some (crop_record fr r)).
  { intros i r Hi. apply (lookup_dict_after_extract fr s1 i r). exact Hi. }
  assert (Hpx2 : lookup_array (heap s2) l = Some px).
  { apply (lookup_array_after_extract fr s1). exact Hpx. }
  assert (Hconv : Forall (crop_convertible s2) (seq (S n) (length rs))).
  { apply Forall_lookup_2. intros i d Hi.
    apply lookup_seq in Hi as [-> Hi].
    destruct (lookup_lt_is_Some_2 rs i Hi) as [r Hr].
    destruct (Forall2_lookup_l _ _ _ _ _ Hgs Hr) as (g & Hg & Hcv).
    destruct r as [[[x y] w] h].
    exists (crop_record fr (x, y, w, h)),
           (np_slice2 px y (y + h) x (x + w)), g.
    split; [apply Hrec2, Hr|]. split; [|exact Hcv].
    unfold pixels_of. cbn [crop_record if_frame nd_slice nd_base nd_whole fr].
    rewrite Hpx2. reflexivity. }
  destruct (get_items_frames_true_effect s2 _ Hst2 (NoDup_seq _ _) Hconv)
    as (s3 & Hrun3 & Hself3 & Hwr3 & _ & _ & Hkeep & Hrec3).
  assert (Hlen2 : length (heap s2) = (S n + length rs)%nat).
  { unfold s2, after_extract. cbn [heap s1 self set_items items].
    rewrite length_app. cbn. rewrite length_map. fold n. lia. }
  assert (Hst3 : stored_crops s3 = Some (seq (S n) (length rs))).
  { unfold stored_crops. rewrite Hself3.
    apply lookup_list_lookup, Hkeep; [|apply lookup_list_lookup, Hst2].
    cbn [s2 after_extract self set_items_frames items_frames s1 heap].
    fold n. intros Hin. apply list_elem_of_lookup in Hin as [i Hi].
    apply lookup_seq in Hi. lia. }
  assert (Hcrops : Forall2 (fun d p => crop_pixels s3 d = Some p)
                     (seq (S n) (length rs)) (array_pixels <$> gs)).
  { apply Forall2_same_length_lookup. split.
    { rewrite length_seq, length_fmap. apply (Forall2_length _ _ _ Hgs). }
    intros i d p Hi Hp. rewrite list_lookup_fmap in Hp.
    destruct (gs !! i) as [g|] eqn:Hg; [|discriminate].
    injection Hp as <-.
    destruct (Hrec3 i d Hi) as (c & px0 & g' & Hc & Hpx0 & Hg' & Hc3 & Ha3).
    apply lookup_seq in Hi as [-> Hi].
    destruct (lookup_lt_is_Some_2 rs i Hi) as [r Hr].
    pose proof (Forall2_lookup_lr _ _ _ _ _ _ Hgs Hr Hg) as Hcv.
    destruct r as [[[x y] w] h].
    rewrite (Hrec2 i _ Hr) in Hc. injection Hc as <-.
    unfold pixels_of in Hpx0.
    cbn [crop_record if_frame nd_slice nd_base nd_whole fr] in Hpx0.
    rewrite Hpx2 in Hpx0. cbn in Hpx0. injection Hpx0 as <-.
    assert (E : Some g' = Some g) by (rewrite <- Hg'; exact Hcv).
    injection E as ->.
    unfold crop_pixels. rewrite Hc3. cbn [mbind option_bind].
    unfold pixels_of. cbn [set_if_frame if_frame nd_whole nd_base].
    rewrite Ha3. reflexivity. }
  assert (Hself3' : self s3 = set_items_frames n (set_items rs (self s))).
  { rewrite Hself3. reflexivity. }
  destruct (archive_items_frames_run s3 _ _ Hst3 Hcrops)
    as (s4 & Hrun4 & _ & _ & _ & Hwr4).
  { intros i p Hp. rewrite list_lookup_fmap in Hp.
    destruct (gs !! i) as [g|] eqn:Hg; [|discriminate].
    injection Hp as <-. rewrite Hself3'.
    apply (Hw i g Hg). }
  exists s4. split.
  { erewrite bind_Return; [|apply (find_items_run faces rs s Hrs)].
    erewrite bind_Return; [|apply (extract_items_frames_loaded s1 fr Hfa)].
    erewrite bind_Return; [|exact Hrun3].
    exact Hrun4. }
  split.
  { rewrite <- (Forall2_length _ _ _ Hgs). symmetry.
    apply (Forall2_length _ _ _ Hrs). }
  rewrite Hwr4, Hwr3, Hself3'. f_equal.
  rewrite imap_fmap. apply imap_ext. intros i g _. reflexivity.
Qed.

End Pipeline.

(** ** These properties on concrete runs *)

(** An object whose image could not be decoded, after detection. *)
Definition undecoded : state :=
  snd ((__init__ "in.gif" "/tmp/" false Pen.clock None;;
        find_items (Return Pen.two_faces)) Pen.blank).

(** Detection of a face within the sample, a face that reaches past its
    lower right corner, and a face that starts left of it. *)
Definition edge_faces : list face :=
  [Pen.square 1 1 3 3; Pen.square 3 2 9 9; Pen.square (-2) 1 2 3].

Definition edge_detected : state :=
  snd (find_items (Return edge_faces) Pen.constructed).

(** Crops of which the second is empty: its face lies outside the sample. *)
Definition outside_faces : list face :=
  [Pen.square 1 1 3 3; Pen.square 9 9 12 12].

Definition outside_cropped : state :=
  snd ((find_items (Return outside_faces);; extract_items_frames)
         Pen.constructed).

Section MoreWitnesses.
#[local] Existing Instance Pen.cv2.
#[local] Existing Instance Pen.locale.

Lemma sample_rectangular : rectangular 5 Pen.sample.
Proof. repeat constructor. Defined.

Lemma find_items_failure_keeps_items_witness :
  Exists lacks_corner [Pen.square 1 1 3 3; mk_face (mk_bounds [mk_vertex 0 0])] /\
  fst (find_items (Return [Pen.square 1 1 3 3; mk_face (mk_bounds [mk_vertex 0 0])])
         Pen.detected) = Raise IndexError /\
  items (self (snd (find_items
     (Return [Pen.square 1 1 3 3; mk_face (mk_bounds [mk_vertex 0 0])])
     Pen.detected))) = items (self Pen.detected).
Proof.
  assert (Hex : Exists lacks_corner
            [Pen.square 1 1 3 3; mk_face (mk_bounds [mk_vertex 0 0])]).
  { apply Exists_cons_tl, Exists_cons_hd. unfold lacks_corner. cbn. lia. }
  split; [exact Hex|].
  destruct (proj2 find_items_failure_keeps_items _ Pen.detected Hex) as [E Hit].
  split; [rewrite E; reflexivity | exact Hit].
Defined.

Lemma undecoded_no_frame : frame (self undecoded) = None.
Proof. vm_compute. reflexivity. Defined.

Lemma undecoded_has_items : items (self undecoded) <> [].
Proof. vm_compute. discriminate. Defined.

Lemma extract_without_frame_keeps_crops_witness :
  frame (self undecoded) = None /\
  items (self undecoded) <> [] /\
  exists s',
    extract_items_frames undecoded = (Raise TypeError, s') /\
    self s' = self undecoded.
Proof.
  split; [exact undecoded_no_frame|]. split; [exact undecoded_has_items|].
  destruct (extract_without_frame_keeps_crops undecoded
              undecoded_no_frame undecoded_has_items)
    as (s' & E & Hself & _).
  exists s'. split; assumption.
Defined.

Lemma edge_detected_frame : frame (self edge_detected) = Some 1%nat.
Proof. vm_compute. reflexivity. Defined.

Lemma edge_detected_pixels :
  lookup_array (heap edge_detected) 1%nat = Some Pen.sample.
Proof. vm_compute. reflexivity. Defined.

Lemma edge_detected_second :
  items (self edge_detected) !! 1%nat = Some (3, 2, 6, 7).
Proof. vm_compute. reflexivity. Defined.

Lemma edge_detected_third :
  items (self edge_detected) !! 2%nat = Some (-2, 1, 4, 2).
Proof. vm_compute. reflexivity. Defined.

Lemma extract_clamps_region_witness :
  frame (self edge_detected) = Some 1%nat /\
  lookup_array (heap edge_detected) 1%nat = Some Pen.sample /\
  items (self edge_detected) !! 1%nat = Some (3, 2, 6, 7) /\
  rectangular 5 Pen.sample /\
  exists s' d crop,
    extract_items_frames edge_detected = (Return tt, s') /\
    crop_pixels s' d = Some crop /\
    height crop = 2%nat /\ rectangular 2 crop.
Proof.
  split; [exact edge_detected_frame|]. split; [exact edge_detected_pixels|].
  split; [exact edge_detected_second|]. split; [exact sample_rectangular|].
  destruct (extract_clamps_region edge_detected 1%nat Pen.sample 5%nat 1%nat
              3 2 6 7 edge_detected_frame edge_detected_pixels
              edge_detected_second sample_rectangular)
    as (s' & ds & d & crop & E & _ & _ & Hc & Hh & Hr & _); try lia.
  exists s', d, crop. repeat split; assumption.
Defined.

Lemma extract_negative_origin_empty_witness :
  frame (self edge_detected) = Some 1%nat /\
  lookup_array (heap edge_detected) 1%nat = Some Pen.sample /\
  items (self edge_detected) !! 2%nat = Some (-2, 1, 4, 2) /\
  exists s' d crop,
    extract_items_frames edge_detected = (Return tt, s') /\
    crop_pixels s' d = Some crop /\
    rectangular 0 crop.
Proof.
  split; [exact edge_detected_frame|]. split; [exact edge_detected_pixels|].
  split; [exact edge_detected_third|].
  destruct (extract_negative_origin_empty edge_detected 1%nat Pen.sample 2%nat
              (-2) 1 4 2 edge_detected_frame edge_detected_pixels
              edge_detected_third)
    as (s' & ds & d & crop & E & _ & _ & Hc & Hleft & _).
  exists s', d, crop. split; [exact E|]. split; [exact Hc|].
  apply Hleft; [lia | lia | vm_compute; discriminate].
Defined.

Lemma drawing_without_frame_witness :
  frame (self undecoded) = None /\
  add_label "a" 0 50 undecoded = (Return tt, undecoded) /\
  fst (archive_with_items Pen.clock undecoded) = Raise Cv2Error /\
  written (snd (archive_with_items Pen.clock undecoded)) = [] /\
  logged (snd (archive_with_items Pen.clock undecoded))
  = logged undecoded
    ++ [LogArchiveFull; LogArchiveFile "20170309-140507-000042_full.jpg"].
Proof.
  split; [exact undecoded_no_frame|].
  destruct (drawing_without_frame undecoded undecoded_no_frame) as [Hl Ha].
  split; [apply Hl|]. rewrite Ha.
  split; [reflexivity|]. split; vm_compute; reflexivity.
Defined.

Lemma detected_frame : frame (self Pen.detected) = Some 1%nat.
Proof. vm_compute. reflexivity. Defined.

Lemma detected_pixels :
  lookup_array (heap Pen.detected) 1%nat = Some Pen.sample.
Proof. vm_compute. reflexivity. Defined.

Lemma detected_first : items (self Pen.detected) !! 0%nat = Some (1, 1, 2, 2).
Proof. vm_compute. reflexivity. Defined.

Lemma label_shows_through_crops_witness :
  frame (self Pen.detected) = Some 1%nat /\
  lookup_array (heap Pen.detected) 1%nat = Some Pen.sample /\
  items (self Pen.detected) !! 0%nat = Some (1, 1, 2, 2) /\
  exists s1 s2 d,
    extract_items_frames Pen.detected = (Return tt, s1) /\
    add_label "a" (-39) 1 s1 = (Return tt, s2) /\
    crop_pixels s1 d = Some [[Bgr 1 1 2; Bgr 1 2 3]; [Bgr 2 1 3; Bgr 2 2 4]] /\
    crop_pixels s2 d = Some [[Bgr 0 255 0; Bgr 1 2 3]; [Bgr 2 1 3; Bgr 2 2 4]].
Proof.
  split; [exact detected_frame|]. split; [exact detected_pixels|].
  split; [exact detected_first|].
  destruct (label_shows_through_crops Pen.detected 1%nat Pen.sample 0%nat
              1 1 2 2 "a" (-39) 1 detected_frame detected_pixels detected_first)
    as (s1 & s2 & ds & d & E1 & _ & _ & Hc1 & E2 & _ & Hc2).
  exists s1, s2, d. split; [exact E1|]. split; [exact E2|].
  split; [rewrite Hc1 | rewrite Hc2]; vm_compute; reflexivity.
Defined.

Lemma outside_cropped_stored :
  stored_crops outside_cropped = Some ([3%nat] ++ 4%nat :: []).
Proof. vm_compute. reflexivity. Defined.

Lemma outside_cropped_distinct : NoDup ([3%nat] ++ 4%nat :: []).
Proof. apply (bool_decide_unpack _). vm_compute. exact I. Defined.

Lemma outside_cropped_first_convertible :
  Forall (crop_convertible outside_cropped) [3%nat].
Proof.
  repeat constructor. eexists _, _, _.
  split; [vm_compute; reflexivity|].
  split; vm_compute; reflexivity.
Defined.

Lemma outside_cropped_second :
  lookup_dict (heap outside_cropped) 4%nat
  = Some (mk_item_frame (mk_ndarray 1%nat 4 0 5 0) 9 9 3 3).
Proof. vm_compute. reflexivity. Defined.

Lemma outside_cropped_second_pixels :
  pixels_of outside_cropped (mk_ndarray 1%nat 4 0 5 0) = Some [].
Proof. vm_compute. reflexivity. Defined.

Lemma get_items_frames_true_partial_witness :
  stored_crops outside_cropped = Some ([3%nat] ++ 4%nat :: []) /\
  NoDup ([3%nat] ++ 4%nat :: []) /\
  Forall (crop_convertible outside_cropped) [3%nat] /\
  cvtColor [] COLOR_BGR2GRAY = None /\
  exists s1,
    get_items_frames true outside_cropped = (Raise Cv2Error, s1) /\
    stored_crops s1 = Some [3%nat; 4%nat].
Proof.
  split; [exact outside_cropped_stored|].
  split; [exact outside_cropped_distinct|].
  split; [exact outside_cropped_first_convertible|].
  split; [reflexivity|].
  destruct (get_items_frames_true_partial outside_cropped [3%nat] []
              4%nat _ [] outside_cropped_stored outside_cropped_distinct
              outside_cropped_first_convertible outside_cropped_second
              outside_cropped_second_pixels eq_refl)
    as (s1 & E & Hst & _).
  exists s1. split; [exact E | exact Hst].
Defined.

Lemma cropped_stored : stored_crops Pen.cropped = Some [3%nat; 4%nat].
Proof. vm_compute. reflexivity. Defined.

Lemma cropped_frame : frame (self Pen.cropped) = Some 1%nat.
Proof. vm_compute. reflexivity. Defined.

Lemma cropped_pixels : lookup_array (heap Pen.cropped) 1%nat = Some Pen.sample.
Proof. vm_compute. reflexivity. Defined.

Lemma converted_crops_keep_pixels_witness :
  stored_crops Pen.cropped = Some [3%nat; 4%nat] /\
  NoDup [3%nat; 4%nat] /\
  Forall (crop_convertible Pen.cropped) [3%nat; 4%nat] /\
  frame (self Pen.cropped) = Some 1%nat /\
  lookup_array (heap Pen.cropped) 1%nat = Some Pen.sample /\
  exists l' s1 s2,
    get_items_frames true Pen.cropped = (Return l', s1) /\
    add_label "a" (-39) 1 s1 = (Return tt, s2) /\
    crop_pixels s2 3%nat = crop_pixels s1 3%nat.
Proof.
  split; [exact cropped_stored|]. split; [exact cropped_crops_distinct|].
  split; [exact cropped_crops_convertible|].
  split; [exact cropped_frame|]. split; [exact cropped_pixels|].
  destruct (converted_crops_keep_pixels Pen.cropped [3%nat; 4%nat] 1%nat
              Pen.sample "a" (-39) 1 cropped_stored cropped_crops_distinct
              cropped_crops_convertible cropped_frame cropped_pixels)
    as (l' & s1 & s2 & E1 & E2 & _ & Hall).
  exists l', s1, s2. split; [exact E1|]. split; [exact E2|].
  destruct (Hall 3%nat) as (shown & H1 & H2); [left|].
  rewrite H1, H2. reflexivity.
Defined.

Lemma cropped_crop_pixels :
  Forall2 (fun d px => crop_pixels Pen.cropped d = Some px) [3%nat; 4%nat]
    [[[Bgr 1 1 2; Bgr 1 2 3]; [Bgr 2 1 3; Bgr 2 2 4]];
     [[Bgr 0 2 2; Bgr 0 3 3; Bgr 0 4 4]; [Bgr 1 2 3; Bgr 1 3 4; Bgr 1 4 5]]].
Proof. repeat constructor. Defined.

Lemma outside_crop_pixels :
  Forall2 (fun d px => crop_pixels outside_cropped d = Some px) [3%nat; 4%nat]
    [[[Bgr 1 1 2; Bgr 1 2 3]; [Bgr 2 1 3; Bgr 2 2 4]]; []].
Proof. repeat constructor. Defined.

Lemma outside_second_write_raises :
  imwrite (item_path (self outside_cropped) 1) [] = None.
Proof. reflexivity. Defined.

Lemma archive_items_frames_stops_at_raise_witness :
  stored_crops outside_cropped = Some [3%nat; 4%nat] /\
  imwrite (item_path (self outside_cropped) 1) [] = None /\
  exists s',
    archive_items_frames outside_cropped = (Raise Cv2Error, s') /\
    length (written s') = 1%nat.
Proof.
  split; [exact outside_cropped_stored|].
  split; [exact outside_second_write_raises|].
  destruct (archive_items_frames_stops_at_raise outside_cropped _ _ 1%nat []
              outside_cropped_stored outside_crop_pixels eq_refl
              outside_second_write_raises)
    as (s' & E & Hw).
  { intros [|i] px Hlt Hi; [|lia].
    cbn in Hi. injection Hi as <-. discriminate. }
  exists s'. split; [exact E|]. rewrite Hw. vm_compute. reflexivity.
Defined.

Lemma clock_valid : datetime_valid Pen.clock.
Proof. unfold datetime_valid, Pen.clock. cbn [year month day hour minute second microsecond]. lia. Defined.

Lemma later_clock_valid :
  datetime_valid (mk_datetime 2017 3 9 14 5 7 43).
Proof. unfold datetime_valid. cbn [year month day hour minute second microsecond]. lia. Defined.

Lemma run_prefix_identifies_clock_reading_witness :
  datetime_valid Pen.clock /\
  datetime_valid (mk_datetime 2017 3 9 14 5 7 43) /\
  Pen.clock <> mk_datetime 2017 3 9 14 5 7 43 /\
  images_prefix (self (snd (__init__ "a.jpg" "/tmp/" false Pen.clock None
                              Pen.blank)))
  <> images_prefix (self (snd (__init__ "a.jpg" "/tmp/" false
                                 (mk_datetime 2017 3 9 14 5 7 43) None
                                 Pen.blank))).
Proof.
  assert (Hne : Pen.clock <> mk_datetime 2017 3 9 14 5 7 43).
  { unfold Pen.clock. intros [=]. }
  split; [exact clock_valid|]. split; [exact later_clock_valid|].
  split; [exact Hne|].
  exact (run_prefix_identifies_clock_reading "a.jpg" "/tmp/" "a.jpg" "/tmp/"
           false false _ _ None None Pen.blank Pen.blank
           clock_valid later_clock_valid Hne).
Defined.

Lemma archive_files_have_distinct_paths_witness :
  stored_crops Pen.cropped = Some [3%nat; 4%nat] /\
  frame (self Pen.cropped) = Some 1%nat /\
  lookup_array (heap Pen.cropped) 1%nat = Some Pen.sample /\
  exists s' (files : list (string * image)),
    (archive_items_frames;; archive_with_items Pen.clock) Pen.cropped
    = (Return tt, s') /\
    length files = 3%nat /\ NoDup files.*1.
Proof.
  split; [exact cropped_stored|]. split; [exact cropped_frame|].
  split; [exact cropped_pixels|].
  destruct (archive_files_have_distinct_paths Pen.cropped _ _ 1%nat Pen.sample
              Pen.clock cropped_stored cropped_crop_pixels)
    as (s' & files & E & _ & Hlen & Hnd).
  { intros [|[|i]] px Hi; cbn in Hi; try discriminate;
      injection Hi as <-; reflexivity. }
  { exact cropped_frame. }
  { exact cropped_pixels. }
  { vm_compute. reflexivity. }
  exists s', files. split; [exact E|]. split; [exact Hlen | exact Hnd].
Defined.

Lemma init_postcondition_witness :
  (false = false \/ is_Some (@None image)) /\
  fst (__init__ "in.gif" "/tmp/" false Pen.clock None Pen.blank) = Return tt /\
  frame (self (snd (__init__ "in.gif" "/tmp/" false Pen.clock None Pen.blank)))
  = None.
Proof.
  split; [left; reflexivity|].
  destruct (init_postcondition "in.gif" "/tmp/" false Pen.clock None Pen.blank)
    as (Hr & _ & _ & _ & _ & _ & _ & Hf & _).
  split; [apply Hr; left; reflexivity | apply Hf; reflexivity].
Defined.

Lemma two_faces_boxes :
  Forall2 (fun f r => bounding_box f = Some r) Pen.two_faces
          [(1, 1, 2, 2); (2, 0, 3, 2)].
Proof. repeat constructor. Defined.

Lemma two_faces_gray :
  Forall2 (fun '(x, y, w, h) g =>
             cvtColor (np_slice2 Pen.sample y (y + h) x (x + w))
                      COLOR_BGR2GRAY = Some g)
          [(1, 1, 2, 2); (2, 0, 3, 2)]
          [[[Gray 1; Gray 2]; [Gray 2; Gray 3]];
           [[Gray 2; Gray 3; Gray 4]; [Gray 2; Gray 3; Gray 4]]].
Proof. repeat constructor. Defined.

Lemma constructed_frame : frame (self Pen.constructed) = Some 1%nat.
Proof. vm_compute. reflexivity. Defined.

Lemma constructed_pixels :
  lookup_array (heap Pen.constructed) 1%nat = Some Pen.sample.
Proof. vm_compute. reflexivity. Defined.

Lemma pipeline_archives_gray_crops_witness :
  frame (self Pen.constructed) = Some 1%nat /\
  lookup_array (heap Pen.constructed) 1%nat = Some Pen.sample /\
  exists s',
    (find_items (Return Pen.two_faces);; extract_items_frames;;
     get_items_frames true;; archive_items_frames) Pen.constructed
    = (Return tt, s') /\
    length (written s') = 2%nat.
Proof.
  split; [exact constructed_frame|]. split; [exact constructed_pixels|].
  destruct (pipeline_archives_gray_crops Pen.constructed 1%nat Pen.sample
              Pen.two_faces _ _ constructed_frame constructed_pixels
              two_faces_boxes two_faces_gray) as (s' & E & _ & Hw).
  { intros [|[|i]] g Hi; cbn in Hi; try discriminate;
      injection Hi as <-; reflexivity. }
  exists s'. split; [exact E|]. rewrite Hw. vm_compute. reflexivity.
Defined.




End MoreWitnesses.

(** A run in which OpenCV refuses the first file. *)
Section RefusedWrite.
#[local] Existing Instance Pen.cv2_locked.

Lemma locked_refused :
  imwrite "/tmp/20170309-140507-000042_item_0.jpg"
          [[Bgr 1 1 2; Bgr 1 2 3]; [Bgr 2 1 3; Bgr 2 2 4]]
  = Some false.
Proof. vm_compute. reflexivity. Defined.

Lemma archive_items_frames_refused_writes_witness :
  stored_crops Pen.cropped = Some [3%nat; 4%nat] /\
  imwrite "/tmp/20170309-140507-000042_item_0.jpg"
          [[Bgr 1 1 2; Bgr 1 2 3]; [Bgr 2 1 3; Bgr 2 2 4]]
  = Some false /\
  exists s',
    archive_items_frames Pen.cropped = (Return tt, s') /\
    written s'
    = [("/tmp/20170309-140507-000042_item_1.jpg",
        [[Bgr 0 2 2; Bgr 0 3 3; Bgr 0 4 4];
         [Bgr 1 2 3; Bgr 1 3 4; Bgr 1 4 5]])].
Proof.
  split; [exact cropped_stored|]. split; [exact locked_refused|].
  destruct (archive_items_frames_refused_writes Pen.cropped _ _
              cropped_stored cropped_crop_pixels)
    as (s' & paths & E & Hlen & Hpaths & Hwr).
  { intros [|[|i]] px path Hi _; cbn in Hi; try discriminate;
      injection Hi as <-; cbn; unfold Pen.write_locked; cbn;
      destruct (path =? Pen.locked)%string; discriminate. }
  exists s'. split; [exact E|].
  destruct paths as [|p0 [|p1 [|p2 paths]]]; try discriminate Hlen.
  destruct (Hpaths 0%nat p0 eq_refl) as (n0 & (N0 & HN0 & ->) & ->).
  destruct (Hpaths 1%nat p1 eq_refl) as (n1 & (N1 & HN1 & ->) & ->).
  rewrite (decimal_numeral_str _ _ HN0), (decimal_numeral_str _ _ HN1) in Hwr.
  rewrite Hwr. vm_compute. reflexivity.
Defined.

End RefusedWrite.

